(** * Page-view badge worker: a shallow embedding of [src/worker.ts]

    The worker answers [GET /?page_path=P] with an SVG badge showing how
    many views the pages matching [P] received.  This development embeds
    the worker's helper functions and its [fetch] handler and proves the
    properties stated about them.

    ECMAScript values are modelled as the language defines them:
    - a String is a sequence of UTF-16 code units ([list N]);
    - a Number is an IEEE 754 binary64 value ([spec_float], with the
      arithmetic of the Standard Library's [SpecFloat], precision 53 and
      maximal exponent 1024);
    - a time value is a number of milliseconds since the epoch ([Z]). *)

From Stdlib Require Import ZArith NArith List Bool Lia String Ascii.
From Stdlib Require Import QArith Qround Qabs.
From Stdlib Require Import SpecFloat DecimalString DecimalN DecimalPos.
From Stdlib Require Import DecimalFacts.
Import ListNotations.

Local Open Scope Z_scope.

(* ================================================================== *)
(** * Unicode: code points and lower case *)
(* ================================================================== *)

Module Unicode.

Definition is_high (c : N) : bool := ((55296 <=? c) && (c <=? 56319))%N.
Definition is_low (c : N) : bool := ((56320 <=? c) && (c <=? 57343))%N.

(** [StringToCodePoints]: a high surrogate followed by a low one is
    one code point; any other code unit is a code point of its own. *)
Fixpoint code_points (s : list N) : list N :=
  match s with
  | [] => []
  | h :: s' =>
      match s' with
      | l :: s'' =>
          if is_high h && is_low l
          then (65536 + (h - 55296) * 1024 + (l - 56320))%N :: code_points s''
          else h :: code_points s'
      | [] => [h]
      end
  end.

(** [CodePointsToString]. *)
Definition units_of (cp : N) : list N :=
  if (cp <? 65536)%N then [cp]
  else [(55296 + (cp - 65536) / 1024)%N; (56320 + (cp - 65536) mod 1024)%N].

Definition code_units (l : list N) : list N := List.flat_map units_of l.

(** The lower case mappings of UnicodeData.txt (version 14.0, and the
    case pairs that version 16.0 adds): [(first, last, step, offset)]
    maps every [step]-th code point from [first] to [last] to the code
    point at [offset] from it. *)
Definition lower_pairs : list (N * N * N * Z) :=
  [
    (65, 90, 1, 32%Z); (192, 214, 1, 32%Z); (216, 222, 1, 32%Z);
    (256, 302, 2, 1%Z); (306, 310, 2, 1%Z); (313, 327, 2, 1%Z);
    (330, 374, 2, 1%Z); (376, 376, 1, (-121)%Z); (377, 381, 2, 1%Z);
    (385, 385, 1, 210%Z); (386, 388, 2, 1%Z); (390, 390, 1, 206%Z);
    (391, 391, 1, 1%Z); (393, 394, 1, 205%Z); (395, 395, 1, 1%Z);
    (398, 398, 1, 79%Z); (399, 399, 1, 202%Z); (400, 400, 1, 203%Z);
    (401, 401, 1, 1%Z); (403, 403, 1, 205%Z); (404, 404, 1, 207%Z);
    (406, 406, 1, 211%Z); (407, 407, 1, 209%Z); (408, 408, 1, 1%Z);
    (412, 412, 1, 211%Z); (413, 413, 1, 213%Z); (415, 415, 1, 214%Z);
    (416, 420, 2, 1%Z); (422, 422, 1, 218%Z); (423, 423, 1, 1%Z);
    (425, 425, 1, 218%Z); (428, 428, 1, 1%Z); (430, 430, 1, 218%Z);
    (431, 431, 1, 1%Z); (433, 434, 1, 217%Z); (435, 437, 2, 1%Z);
    (439, 439, 1, 219%Z); (440, 440, 1, 1%Z); (444, 444, 1, 1%Z);
    (452, 452, 1, 2%Z); (453, 453, 1, 1%Z); (455, 455, 1, 2%Z);
    (456, 456, 1, 1%Z); (458, 458, 1, 2%Z); (459, 475, 2, 1%Z);
    (478, 494, 2, 1%Z); (497, 497, 1, 2%Z); (498, 500, 2, 1%Z);
    (502, 502, 1, (-97)%Z); (503, 503, 1, (-56)%Z); (504, 542, 2, 1%Z);
    (544, 544, 1, (-130)%Z); (546, 562, 2, 1%Z); (570, 570, 1, 10795%Z);
    (571, 571, 1, 1%Z); (573, 573, 1, (-163)%Z); (574, 574, 1, 10792%Z);
    (577, 577, 1, 1%Z); (579, 579, 1, (-195)%Z); (580, 580, 1, 69%Z);
    (581, 581, 1, 71%Z); (582, 590, 2, 1%Z); (880, 882, 2, 1%Z);
    (886, 886, 1, 1%Z); (895, 895, 1, 116%Z); (902, 902, 1, 38%Z);
    (904, 906, 1, 37%Z); (908, 908, 1, 64%Z); (910, 911, 1, 63%Z);
    (913, 929, 1, 32%Z); (931, 939, 1, 32%Z); (975, 975, 1, 8%Z);
    (984, 1006, 2, 1%Z); (1012, 1012, 1, (-60)%Z); (1015, 1015, 1, 1%Z);
    (1017, 1017, 1, (-7)%Z); (1018, 1018, 1, 1%Z); (1021, 1023, 1, (-130)%Z);
    (1024, 1039, 1, 80%Z); (1040, 1071, 1, 32%Z); (1120, 1152, 2, 1%Z);
    (1162, 1214, 2, 1%Z); (1216, 1216, 1, 15%Z); (1217, 1229, 2, 1%Z);
    (1232, 1326, 2, 1%Z); (1329, 1366, 1, 48%Z); (4256, 4293, 1, 7264%Z);
    (4295, 4295, 1, 7264%Z); (4301, 4301, 1, 7264%Z); (5024, 5103, 1, 38864%Z);
    (5104, 5109, 1, 8%Z); (7305, 7305, 1, 1%Z); (7312, 7354, 1, (-3008)%Z);
    (7357, 7359, 1, (-3008)%Z); (7680, 7828, 2, 1%Z); (7838, 7838, 1, (-7615)%Z);
    (7840, 7934, 2, 1%Z); (7944, 7951, 1, (-8)%Z); (7960, 7965, 1, (-8)%Z);
    (7976, 7983, 1, (-8)%Z); (7992, 7999, 1, (-8)%Z); (8008, 8013, 1, (-8)%Z);
    (8025, 8031, 2, (-8)%Z); (8040, 8047, 1, (-8)%Z); (8072, 8079, 1, (-8)%Z);
    (8088, 8095, 1, (-8)%Z); (8104, 8111, 1, (-8)%Z); (8120, 8121, 1, (-8)%Z);
    (8122, 8123, 1, (-74)%Z); (8124, 8124, 1, (-9)%Z); (8136, 8139, 1, (-86)%Z);
    (8140, 8140, 1, (-9)%Z); (8152, 8153, 1, (-8)%Z); (8154, 8155, 1, (-100)%Z);
    (8168, 8169, 1, (-8)%Z); (8170, 8171, 1, (-112)%Z); (8172, 8172, 1, (-7)%Z);
    (8184, 8185, 1, (-128)%Z); (8186, 8187, 1, (-126)%Z); (8188, 8188, 1, (-9)%Z);
    (8486, 8486, 1, (-7517)%Z); (8490, 8490, 1, (-8383)%Z); (8491, 8491, 1, (-8262)%Z);
    (8498, 8498, 1, 28%Z); (8544, 8559, 1, 16%Z); (8579, 8579, 1, 1%Z);
    (9398, 9423, 1, 26%Z); (11264, 11311, 1, 48%Z); (11360, 11360, 1, 1%Z);
    (11362, 11362, 1, (-10743)%Z); (11363, 11363, 1, (-3814)%Z); (11364, 11364, 1, (-10727)%Z);
    (11367, 11371, 2, 1%Z); (11373, 11373, 1, (-10780)%Z); (11374, 11374, 1, (-10749)%Z);
    (11375, 11375, 1, (-10783)%Z); (11376, 11376, 1, (-10782)%Z); (11378, 11378, 1, 1%Z);
    (11381, 11381, 1, 1%Z); (11390, 11391, 1, (-10815)%Z); (11392, 11490, 2, 1%Z);
    (11499, 11501, 2, 1%Z); (11506, 11506, 1, 1%Z); (42560, 42604, 2, 1%Z);
    (42624, 42650, 2, 1%Z); (42786, 42798, 2, 1%Z); (42802, 42862, 2, 1%Z);
    (42873, 42875, 2, 1%Z); (42877, 42877, 1, (-35332)%Z); (42878, 42886, 2, 1%Z);
    (42891, 42891, 1, 1%Z); (42893, 42893, 1, (-42280)%Z); (42896, 42898, 2, 1%Z);
    (42902, 42920, 2, 1%Z); (42922, 42922, 1, (-42308)%Z); (42923, 42923, 1, (-42319)%Z);
    (42924, 42924, 1, (-42315)%Z); (42925, 42925, 1, (-42305)%Z); (42926, 42926, 1, (-42308)%Z);
    (42928, 42928, 1, (-42258)%Z); (42929, 42929, 1, (-42282)%Z); (42930, 42930, 1, (-42261)%Z);
    (42931, 42931, 1, 928%Z); (42932, 42946, 2, 1%Z); (42948, 42948, 1, (-48)%Z);
    (42949, 42949, 1, (-42307)%Z); (42950, 42950, 1, (-35384)%Z); (42951, 42953, 2, 1%Z);
    (42955, 42955, 1, (-42343)%Z); (42956, 42956, 1, 1%Z); (42960, 42960, 1, 1%Z);
    (42966, 42970, 2, 1%Z); (42972, 42972, 1, (-42561)%Z); (42997, 42997, 1, 1%Z);
    (65313, 65338, 1, 32%Z); (66560, 66599, 1, 40%Z); (66736, 66771, 1, 40%Z);
    (66928, 66938, 1, 39%Z); (66940, 66954, 1, 39%Z); (66956, 66962, 1, 39%Z);
    (66964, 66965, 1, 39%Z); (68736, 68786, 1, 64%Z); (68944, 68965, 1, 32%Z);
    (71840, 71871, 1, 32%Z); (93760, 93791, 1, 32%Z); (125184, 125217, 1, 34%Z)
  ]%N.

Fixpoint lower_in (t : list (N * N * N * Z)) (c : N) : N :=
  match t with
  | [] => c
  | (first, last, step, offset) :: t' =>
      if ((first <=? c) && (c <=? last) && ((c - first) mod step =? 0))%N
      then Z.to_N (Z.of_N c + offset)
      else lower_in t' c
  end.

(** The lower case of a code point that has a mapping to one code
    point, and the code point itself otherwise. *)
Definition simple_lower (c : N) : N := lower_in lower_pairs c.

Fixpoint in_ranges (t : list (N * N)) (c : N) : bool :=
  match t with
  | [] => false
  | (first, last) :: t' =>
      ((first <=? c) && (c <=? last))%N || in_ranges t' c
  end.

(** The code points with the property Case_Ignorable. *)
Definition case_ignorable_ranges : list (N * N) :=
  [
    (39, 39); (46, 46); (58, 58); (94, 94); (96, 96);
    (168, 168); (173, 173); (175, 175); (180, 180); (183, 184);
    (688, 879); (884, 885); (890, 890); (900, 901); (903, 903);
    (1155, 1161); (1369, 1369); (1375, 1375); (1425, 1469); (1471, 1471);
    (1473, 1474); (1476, 1477); (1479, 1479); (1524, 1524); (1536, 1541);
    (1552, 1562); (1564, 1564); (1600, 1600); (1611, 1631); (1648, 1648);
    (1750, 1757); (1759, 1768); (1770, 1773); (1807, 1807); (1809, 1809);
    (1840, 1866); (1958, 1968); (2027, 2037); (2042, 2042); (2045, 2045);
    (2070, 2093); (2137, 2139); (2184, 2184); (2192, 2193); (2200, 2207);
    (2249, 2306); (2362, 2362); (2364, 2364); (2369, 2376); (2381, 2381);
    (2385, 2391); (2402, 2403); (2417, 2417); (2433, 2433); (2492, 2492);
    (2497, 2500); (2509, 2509); (2530, 2531); (2558, 2558); (2561, 2562);
    (2620, 2620); (2625, 2626); (2631, 2632); (2635, 2637); (2641, 2641);
    (2672, 2673); (2677, 2677); (2689, 2690); (2748, 2748); (2753, 2757);
    (2759, 2760); (2765, 2765); (2786, 2787); (2810, 2815); (2817, 2817);
    (2876, 2876); (2879, 2879); (2881, 2884); (2893, 2893); (2901, 2902);
    (2914, 2915); (2946, 2946); (3008, 3008); (3021, 3021); (3072, 3072);
    (3076, 3076); (3132, 3132); (3134, 3136); (3142, 3144); (3146, 3149);
    (3157, 3158); (3170, 3171); (3201, 3201); (3260, 3260); (3263, 3263);
    (3270, 3270); (3276, 3277); (3298, 3299); (3328, 3329); (3387, 3388);
    (3393, 3396); (3405, 3405); (3426, 3427); (3457, 3457); (3530, 3530);
    (3538, 3540); (3542, 3542); (3633, 3633); (3636, 3642); (3654, 3662);
    (3761, 3761); (3764, 3772); (3782, 3782); (3784, 3789); (3864, 3865);
    (3893, 3893); (3895, 3895); (3897, 3897); (3953, 3966); (3968, 3972);
    (3974, 3975); (3981, 3991); (3993, 4028); (4038, 4038); (4141, 4144);
    (4146, 4151); (4153, 4154); (4157, 4158); (4184, 4185); (4190, 4192);
    (4209, 4212); (4226, 4226); (4229, 4230); (4237, 4237); (4253, 4253);
    (4348, 4348); (4957, 4959); (5906, 5908); (5938, 5939); (5970, 5971);
    (6002, 6003); (6068, 6069); (6071, 6077); (6086, 6086); (6089, 6099);
    (6103, 6103); (6109, 6109); (6155, 6159); (6211, 6211); (6277, 6278);
    (6313, 6313); (6432, 6434); (6439, 6440); (6450, 6450); (6457, 6459);
    (6679, 6680); (6683, 6683); (6742, 6742); (6744, 6750); (6752, 6752);
    (6754, 6754); (6757, 6764); (6771, 6780); (6783, 6783); (6823, 6823);
    (6832, 6862); (6912, 6915); (6964, 6964); (6966, 6970); (6972, 6972);
    (6978, 6978); (7019, 7027); (7040, 7041); (7074, 7077); (7080, 7081);
    (7083, 7085); (7142, 7142); (7144, 7145); (7149, 7149); (7151, 7153);
    (7212, 7219); (7222, 7223); (7288, 7293); (7376, 7378); (7380, 7392);
    (7394, 7400); (7405, 7405); (7412, 7412); (7416, 7417); (7468, 7530);
    (7544, 7544); (7579, 7679); (8125, 8125); (8127, 8129); (8141, 8143);
    (8157, 8159); (8173, 8175); (8189, 8190); (8203, 8207); (8216, 8217);
    (8228, 8228); (8231, 8231); (8234, 8238); (8288, 8292); (8294, 8303);
    (8305, 8305); (8319, 8319); (8336, 8348); (8400, 8432); (11388, 11389);
    (11503, 11505); (11631, 11631); (11647, 11647); (11744, 11775); (11823, 11823);
    (12293, 12293); (12330, 12333); (12337, 12341); (12347, 12347); (12441, 12446);
    (12540, 12542); (40981, 40981); (42232, 42237); (42508, 42508); (42607, 42610);
    (42612, 42621); (42623, 42623); (42652, 42655); (42736, 42737); (42752, 42785);
    (42864, 42864); (42888, 42890); (42994, 42996); (43000, 43001); (43010, 43010);
    (43014, 43014); (43019, 43019); (43045, 43046); (43052, 43052); (43204, 43205);
    (43232, 43249); (43263, 43263); (43302, 43309); (43335, 43345); (43392, 43394);
    (43443, 43443); (43446, 43449); (43452, 43453); (43471, 43471); (43493, 43494);
    (43561, 43566); (43569, 43570); (43573, 43574); (43587, 43587); (43596, 43596);
    (43632, 43632); (43644, 43644); (43696, 43696); (43698, 43700); (43703, 43704);
    (43710, 43711); (43713, 43713); (43741, 43741); (43756, 43757); (43763, 43764);
    (43766, 43766); (43867, 43871); (43881, 43883); (44005, 44005); (44008, 44008);
    (44013, 44013); (64286, 64286); (64434, 64450); (65024, 65039); (65043, 65043);
    (65056, 65071); (65106, 65106); (65109, 65109); (65279, 65279); (65287, 65287);
    (65294, 65294); (65306, 65306); (65342, 65342); (65344, 65344); (65392, 65392);
    (65438, 65439); (65507, 65507); (65529, 65531); (66045, 66045); (66272, 66272);
    (66422, 66426); (67456, 67461); (67463, 67504); (67506, 67514); (68097, 68099);
    (68101, 68102); (68108, 68111); (68152, 68154); (68159, 68159); (68325, 68326);
    (68900, 68903); (69291, 69292); (69446, 69456); (69506, 69509); (69633, 69633);
    (69688, 69702); (69744, 69744); (69747, 69748); (69759, 69761); (69811, 69814);
    (69817, 69818); (69821, 69821); (69826, 69826); (69837, 69837); (69888, 69890);
    (69927, 69931); (69933, 69940); (70003, 70003); (70016, 70017); (70070, 70078);
    (70089, 70092); (70095, 70095); (70191, 70193); (70196, 70196); (70198, 70199);
    (70206, 70206); (70367, 70367); (70371, 70378); (70400, 70401); (70459, 70460);
    (70464, 70464); (70502, 70508); (70512, 70516); (70712, 70719); (70722, 70724);
    (70726, 70726); (70750, 70750); (70835, 70840); (70842, 70842); (70847, 70848);
    (70850, 70851); (71090, 71093); (71100, 71101); (71103, 71104); (71132, 71133);
    (71219, 71226); (71229, 71229); (71231, 71232); (71339, 71339); (71341, 71341);
    (71344, 71349); (71351, 71351); (71453, 71455); (71458, 71461); (71463, 71467);
    (71727, 71735); (71737, 71738); (71995, 71996); (71998, 71998); (72003, 72003);
    (72148, 72151); (72154, 72155); (72160, 72160); (72193, 72202); (72243, 72248);
    (72251, 72254); (72263, 72263); (72273, 72278); (72281, 72283); (72330, 72342);
    (72344, 72345); (72752, 72758); (72760, 72765); (72767, 72767); (72850, 72871);
    (72874, 72880); (72882, 72883); (72885, 72886); (73009, 73014); (73018, 73018);
    (73020, 73021); (73023, 73029); (73031, 73031); (73104, 73105); (73109, 73109);
    (73111, 73111); (73459, 73460); (78896, 78904); (92912, 92916); (92976, 92982);
    (92992, 92995); (94031, 94031); (94095, 94111); (94176, 94177); (94179, 94180);
    (110576, 110579); (110581, 110587); (110589, 110590); (113821, 113822); (113824, 113827);
    (118528, 118573); (118576, 118598); (119143, 119145); (119155, 119170); (119173, 119179);
    (119210, 119213); (119362, 119364); (121344, 121398); (121403, 121452); (121461, 121461);
    (121476, 121476); (121499, 121503); (121505, 121519); (122880, 122886); (122888, 122904);
    (122907, 122913); (122915, 122916); (122918, 122922); (123184, 123197); (123566, 123566);
    (123628, 123631); (125136, 125142); (125252, 125259); (127995, 127999); (917505, 917505);
    (917536, 917631); (917760, 917999)
  ]%N.

(** The code points with the property Cased that are not
    Case_Ignorable. *)
Definition cased_ranges : list (N * N) :=
  [
    (65, 90); (97, 122); (170, 170); (181, 181); (186, 186);
    (192, 214); (216, 246); (248, 442); (444, 447); (452, 659);
    (661, 687); (880, 883); (886, 887); (891, 893); (895, 895);
    (902, 902); (904, 906); (908, 908); (910, 929); (931, 1013);
    (1015, 1153); (1162, 1327); (1329, 1366); (1376, 1416); (4256, 4293);
    (4295, 4295); (4301, 4301); (4304, 4346); (4349, 4351); (5024, 5109);
    (5112, 5117); (7296, 7306); (7312, 7354); (7357, 7359); (7424, 7467);
    (7531, 7543); (7545, 7578); (7680, 7957); (7960, 7965); (7968, 8005);
    (8008, 8013); (8016, 8023); (8025, 8025); (8027, 8027); (8029, 8029);
    (8031, 8061); (8064, 8116); (8118, 8124); (8126, 8126); (8130, 8132);
    (8134, 8140); (8144, 8147); (8150, 8155); (8160, 8172); (8178, 8180);
    (8182, 8188); (8450, 8450); (8455, 8455); (8458, 8467); (8469, 8469);
    (8473, 8477); (8484, 8484); (8486, 8486); (8488, 8488); (8490, 8493);
    (8495, 8500); (8505, 8505); (8508, 8511); (8517, 8521); (8526, 8526);
    (8544, 8575); (8579, 8580); (9398, 9449); (11264, 11387); (11390, 11492);
    (11499, 11502); (11506, 11507); (11520, 11557); (11559, 11559); (11565, 11565);
    (42560, 42605); (42624, 42651); (42786, 42863); (42865, 42887); (42891, 42894);
    (42896, 42957); (42960, 42961); (42963, 42963); (42965, 42972); (42997, 42998);
    (43002, 43002); (43824, 43866); (43872, 43880); (43888, 43967); (64256, 64262);
    (64275, 64279); (65313, 65338); (65345, 65370); (66560, 66639); (66736, 66771);
    (66776, 66811); (66928, 66938); (66940, 66954); (66956, 66962); (66964, 66965);
    (66967, 66977); (66979, 66993); (66995, 67001); (67003, 67004); (68736, 68786);
    (68800, 68850); (68944, 68965); (68976, 68997); (71840, 71903); (93760, 93823);
    (119808, 119892); (119894, 119964); (119966, 119967); (119970, 119970); (119973, 119974);
    (119977, 119980); (119982, 119993); (119995, 119995); (119997, 120003); (120005, 120069);
    (120071, 120074); (120077, 120084); (120086, 120092); (120094, 120121); (120123, 120126);
    (120128, 120132); (120134, 120134); (120138, 120144); (120146, 120485); (120488, 120512);
    (120514, 120538); (120540, 120570); (120572, 120596); (120598, 120628); (120630, 120654);
    (120656, 120686); (120688, 120712); (120714, 120744); (120746, 120770); (120772, 120779);
    (122624, 122633); (122635, 122654); (125184, 125251); (127280, 127305); (127312, 127337);
    (127344, 127369)
  ]%N.

Definition case_ignorable (c : N) : bool := in_ranges case_ignorable_ranges c.
Definition cased (c : N) : bool := in_ranges cased_ranges c.

(** Whether the first code point of [l] that is not case-ignorable is
    a cased letter. *)
Fixpoint meets_cased (l : list N) : bool :=
  match l with
  | [] => false
  | c :: l' => if case_ignorable c then meets_cased l' else cased c
  end.

(** The condition Final_Sigma of SpecialCasing.txt: a cased letter
    comes before, perhaps with case-ignorable code points in between,
    and none comes after in this way.  [before] holds the code points
    that come before, the nearest first. *)
Definition final_sigma (before after : list N) : bool :=
  meets_cased before && negb (meets_cased after).

(** The lower case of one code point in its context: the capital sigma
    has two lower cases, the capital I with a dot above becomes two
    code points (SpecialCasing.txt), every other code point has its
    simple mapping. *)
Definition lower_point (before after : list N) (c : N) : list N :=
  if (c =? 931)%N then [if final_sigma before after then 962%N else 963%N]
  else if (c =? 304)%N then [105%N; 775%N]
  else [simple_lower c].

Fixpoint lower_from (before : list N) (l : list N) : list N :=
  match l with
  | [] => []
  | c :: l' => lower_point before l' c ++ lower_from (c :: before) l'
  end.

(** The [toLowercase] of the Unicode Default Case Conversion. *)
Definition toLowercase (l : list N) : list N := lower_from [] l.

End Unicode.

(* ================================================================== *)
(** * ECMAScript strings *)
(* ================================================================== *)

Module Str.

(** A string: its UTF-16 code units. *)
Abbreviation unit16 := N.
Abbreviation t := (list N).

(** Text of a source literal made of ASCII characters. *)
Definition lit (s : string) : t :=
  List.map N_of_ascii (list_ascii_of_string s).

(** Strict equality of two strings. *)
Fixpoint eqb (a b : t) : bool :=
  match a, b with
  | [], [] => true
  | x :: a', y :: b' => N.eqb x y && eqb a' b'
  | _, _ => false
  end.

(** [StrWhiteSpaceChar]: WhiteSpace and LineTerminator code points. *)
Definition is_space (c : unit16) : bool :=
  ((9 <=? c) && (c <=? 13) || (c =? 32) || (c =? 160) || (c =? 5760)
   || (8192 <=? c) && (c <=? 8202) || (c =? 8232) || (c =? 8233)
   || (c =? 8239) || (c =? 8287) || (c =? 12288) || (c =? 65279))%N.

Fixpoint trimStart (s : t) : t :=
  match s with
  | c :: s' => if is_space c then trimStart s' else s
  | [] => []
  end.

Definition trimEnd (s : t) : t := rev (trimStart (rev s)).

(** [String.prototype.trim]. *)
Definition trim (s : t) : t := trimEnd (trimStart s).

(** [String.prototype.toLowerCase]: the code points of the string, in
    lower case by the locale-insensitive mappings of the Unicode
    Character Database, as a string again. *)
Definition toLowerCase (s : t) : t :=
  Unicode.code_units (Unicode.toLowercase (Unicode.code_points s)).

(** [s.length]. *)
Definition length (s : t) : Z := Z.of_nat (List.length s).

(** [a.startsWith(p)]. *)
Fixpoint startsWith (p s : t) : bool :=
  match p, s with
  | [], _ => true
  | x :: p', y :: s' => N.eqb x y && startsWith p' s'
  | _ :: _, [] => false
  end.

(** [Array.prototype.join] of strings. *)
Fixpoint join (sep : t) (l : list t) : t :=
  match l with
  | [] => []
  | [x] => x
  | x :: l' => x ++ sep ++ join sep l'
  end.

(** Decimal digits of a natural number, most significant first. *)
Fixpoint uint_units (d : Decimal.uint) : t :=
  match d with
  | Decimal.Nil => []
  | Decimal.D0 d => 48%N :: uint_units d
  | Decimal.D1 d => 49%N :: uint_units d
  | Decimal.D2 d => 50%N :: uint_units d
  | Decimal.D3 d => 51%N :: uint_units d
  | Decimal.D4 d => 52%N :: uint_units d
  | Decimal.D5 d => 53%N :: uint_units d
  | Decimal.D6 d => 54%N :: uint_units d
  | Decimal.D7 d => 55%N :: uint_units d
  | Decimal.D8 d => 56%N :: uint_units d
  | Decimal.D9 d => 57%N :: uint_units d
  end.

Definition dec (n : Z) : t := uint_units (N.to_uint (Z.to_N n)).

End Str.

Abbreviation jsstring := (list N).
Notation "$ s" := (Str.lit s%string) (at level 9, s at level 0, format "$ s").

(* ================================================================== *)
(** * ECMAScript numbers *)
(* ================================================================== *)

Module Num.

Definition prec : Z := 53.
Definition emax : Z := 1024.

(** The Number type: binary64. *)
Abbreviation number := spec_float.

Definition NaN : number := S754_nan.
Definition Infinity : number := S754_infinity false.

(** The Number value for a mathematical integer (a numeric literal). *)
Definition of_Z (z : Z) : number := binary_normalize prec emax z 0 false.

Definition add : number -> number -> number := SFadd prec emax.
Definition div : number -> number -> number := SFdiv prec emax.
Definition neg : number -> number := SFopp.
Definition ltb : number -> number -> bool := SFltb.
(** [===] on numbers. *)
Definition eqb : number -> number -> bool := SFeqb.
(** [Math.abs]. *)
Definition abs : number -> number := SFabs.

(** [Math.trunc]: the integral part, the sign kept. *)
Definition trunc (x : number) : number :=
  match x with
  | S754_finite s m e =>
      if 0 <=? e then x
      else
        match Z.shiftr (Zpos m) (- e) with
        | Zpos q => binary_normalize prec emax (cond_Zopp s (Zpos q)) 0 s
        | _ => S754_zero s
        end
  | _ => x
  end.

(** [x % y]: the remainder of the truncating division, exact, with the
    sign of the dividend. *)
Definition rem (x y : number) : number :=
  match x, y with
  | S754_nan, _ | _, S754_nan => S754_nan
  | S754_infinity _, _ => S754_nan
  | _, S754_zero _ => S754_nan
  | _, S754_infinity _ => x
  | S754_zero _, _ => x
  | S754_finite sx mx ex, S754_finite _ my ey =>
      let ez := Z.min ex ey in
      let ax := Zpos (fst (shl_align mx ex ez)) in
      let ay := Zpos (fst (shl_align my ey ez)) in
      binary_normalize prec emax (cond_Zopp sx (Z.rem ax ay)) ez sx
  end.

(** [Number.isInteger]. *)
Definition isInteger (x : number) : bool :=
  match x with
  | S754_zero _ => true
  | S754_finite _ m e =>
      (0 <=? e) || (Z.land (Zpos m) (Z.ones (- e)) =? 0)
  | _ => false
  end.

(** The mathematical value of a finite number. *)
Definition toQ (x : number) : Q :=
  match x with
  | S754_finite s m e =>
      let v := if 0 <=? e then inject_Z (Zpos m * 2 ^ e)
               else Qmake (Zpos m) (Z.to_pos (2 ^ (- e))) in
      if s then Qopp v else v
  | _ => 0%Q
  end.

(** [x >= q] for the magnitude of a finite number and a rational. *)
Definition mag_geb (x : number) (q : Q) : bool :=
  Qle_bool q (Qabs (toQ x)).

(** ** Number::toString *)

(** Bounds of the set of reals that round to the positive number
    [m * 2 ^ e], and whether the bounds belong to it (ties go to the
    even significand). *)
Definition round_interval (m : positive) (e : Z) : Q * Q * bool :=
  let x := toQ (S754_finite false m e) in
  let half := Qmult (1 # 2) (toQ (S754_finite false 1 e)) in
  let low_half :=
    if (Pos.eqb m (Pos.iter xO xH (Z.to_pos (prec - 1))))
       && (emin prec emax <? e)
    then Qmult (1 # 2) half else half in
  (Qminus x low_half, Qplus x half, Z.even (Zpos m)).

Definition in_interval (i : Q * Q * bool) (v : Q) : bool :=
  let '(lo, hi, closed) := i in
  if closed then Qle_bool lo v && Qle_bool v hi
  else negb (Qle_bool v lo) && negb (Qle_bool hi v).

(** [10 ^ n] for an integer [n]. *)
Definition pow10 (n : Z) : Q :=
  if 0 <=? n then inject_Z (10 ^ n) else Qinv (inject_Z (10 ^ (- n))).

(** The least [n] from [n0] on with [x < 10 ^ n]. *)
Fixpoint decade (fuel : nat) (x : Q) (n0 : Z) : Z :=
  match fuel with
  | O => n0
  | S f => if Qle_bool (pow10 n0) x then decade f x (n0 + 1) else n0
  end.

Definition decimal_exponent (m : positive) (e : Z) : Z :=
  let bits := Zpos (digits2_pos m) + e in
  decade 8 (toQ (S754_finite false m e)) ((bits - 1) * 30103 / 100000 - 2).

(** The digits [s] (as an integer of [k] digits, or [10 ^ k]) of the
    decimal with [k] significant digits that rounds to [x] and is
    closest to it, when there is one. *)
Definition digits_at (m : positive) (e : Z) (n k : Z) : option Z :=
  let x := toQ (S754_finite false m e) in
  let i := round_interval m e in
  let u := pow10 (n - k) in
  let lo := Qfloor (Qdiv x u) in
  let hi := lo + 1 in
  let vlo := Qmult (inject_Z lo) u in
  let vhi := Qmult (inject_Z hi) u in
  let oklo := in_interval i vlo && (10 ^ (k - 1) <=? lo) in
  let okhi := in_interval i vhi in
  match oklo, okhi with
  | true, false => Some lo
  | false, true => Some hi
  | false, false => None
  | true, true =>
      match Qcompare (Qminus x vlo) (Qminus vhi x) with
      | Lt => Some lo
      | Gt => Some hi
      | Eq => Some (if Z.even lo then lo else hi)
      end
  end.

Fixpoint shortest (fuel : nat) (m : positive) (e : Z) (n k : Z)
  : Z * Z :=
  match fuel with
  | O => (Zpos m, k)
  | S f =>
      match digits_at m e n k with
      | Some s => (s, k)
      | None => shortest f m e n (k + 1)
      end
  end.

(** The triple [(n, k, s)] of Number::toString: [s] has [k] digits,
    [s * 10 ^ (n - k)] rounds to the number and [k] is minimal. *)
Definition nks (m : positive) (e : Z) : Z * Z * Z :=
  let n := decimal_exponent m e in
  let '(s, k) := shortest 25 m e n 1 in
  if s =? 10 ^ k then (n + 1, 1, 1) else (n, k, s).

Definition zeros (n : Z) : jsstring := repeat 48%N (Z.to_nat n).

Definition toString_pos (m : positive) (e : Z) : jsstring :=
  let '(n, k, s) := nks m e in
  let ds := Str.dec s in
  if (k <=? n) && (n <=? 21) then ds ++ zeros (n - k)
  else if (0 <? n) && (n <=? 21) then
    firstn (Z.to_nat n) ds ++ $"." ++ skipn (Z.to_nat n) ds
  else if (-6 <? n) && (n <=? 0) then
    $"0." ++ zeros (- n) ++ ds
  else
    let ex := n - 1 in
    let sg := if ex <? 0 then $"-" else $"+" in
    if k =? 1 then ds ++ $"e" ++ sg ++ Str.dec (Z.abs ex)
    else firstn 1 ds ++ $"." ++ skipn 1 ds ++ $"e" ++ sg
         ++ Str.dec (Z.abs ex).

Definition toString (x : number) : jsstring :=
  match x with
  | S754_nan => $"NaN"
  | S754_zero _ => $"0"
  | S754_infinity s => if s then $"-Infinity" else $"Infinity"
  | S754_finite s m e =>
      (if s then $"-" else []) ++ toString_pos m e
  end.

(** ** Number.prototype.toFixed *)

(** The integer [n] for which [n / 10 ^ f - x] is as close to zero as
    possible, the larger one when there are two. *)
Definition fixed_digits (x : Q) (f : Z) : Z :=
  Qfloor (Qplus (Qmult x (inject_Z (10 ^ f))) (1 # 2)).

Definition toFixed (x : number) (f : Z) : jsstring :=
  match x with
  | S754_finite s m e =>
      let sg := if s then $"-" else [] in
      if mag_geb x (inject_Z (10 ^ 21)) then sg ++ toString_pos m e
      else
        let n := fixed_digits (Qabs (toQ x)) f in
        let ds := Str.dec n in
        if f =? 0 then sg ++ ds
        else
          let k := Str.length ds in
          let ds := if k <=? f then zeros (f + 1 - k) ++ ds else ds in
          let k := Str.length ds in
          sg ++ firstn (Z.to_nat (k - f)) ds ++ $"."
             ++ skipn (Z.to_nat (k - f)) ds
  | S754_zero _ =>
      if f =? 0 then $"0" else $"0." ++ zeros f
  | _ => toString x
  end.

End Num.

Abbreviation number := spec_float.

(* ================================================================== *)
(** * Number Formatter: [formatNumber] *)
(* ================================================================== *)

(** [formattedNum.toFixed(formattedNum % 1 === 0 ? 0 : 1)]. *)
Definition fixed01 (formattedNum : number) : jsstring :=
  Num.toFixed formattedNum
    (if Num.eqb (Num.rem formattedNum (Num.of_Z 1)) (Num.of_Z 0)
     then 0 else 1).

Definition formatNumber (num : number) : jsstring :=
  let isNegative := Num.ltb num (Num.of_Z 0) in
  let absNum := Num.abs num in
  let sign := if isNegative then $"-" else $"" in
  if Num.ltb absNum (Num.of_Z 1000) then
    sign ++ Num.toString (Num.trunc absNum)
  else if Num.ltb absNum (Num.of_Z 1000000) then
    let formattedNum := Num.div absNum (Num.of_Z 1000) in
    sign ++ fixed01 formattedNum ++ $"K"
  else
    let formattedNum := Num.div absNum (Num.of_Z 1000000) in
    sign ++ fixed01 formattedNum ++ $"M".

(* ================================================================== *)
(** * [parseInt] *)
(* ================================================================== *)

(** Value of a code unit as a digit of radix [R], if it is one. *)
Definition digit_value (R : Z) (c : N) : option Z :=
  let c := Z.of_N c in
  let v :=
    if (48 <=? c) && (c <=? 57) then c - 48
    else if (97 <=? c) && (c <=? 122) then c - 87
    else if (65 <=? c) && (c <=? 90) then c - 55
    else 36 in
  if v <? R then Some v else None.

(** The longest prefix of radix-[R] digits, read as an integer;
    [None] when the prefix is empty. *)
Fixpoint digits_prefix (R : Z) (acc : option Z) (s : jsstring)
  : option Z :=
  match s with
  | c :: s' =>
      match digit_value R c with
      | Some v =>
          digits_prefix R
            (Some (match acc with Some a => a * R + v | None => v end)) s'
      | None => acc
      end
  | [] => acc
  end.

(** [parseInt(string)], the radix left undefined: leading white space
    is skipped, a sign is read, a [0x] or [0X] prefix selects radix 16,
    the digits that follow are read up to the first other code unit.
    No digit at all gives [NaN]. *)
Definition parseInt (input : jsstring) : number :=
  let inputString := Str.trimStart input in
  let '(negative, signless) :=
    match inputString with
    | c :: r =>
        if (c =? 45)%N then (true, r)
        else if (c =? 43)%N then (false, r)
        else (false, inputString)
    | [] => (false, [])
    end in
  let '(R, body) :=
    match signless with
    | c0 :: c1 :: r =>
        if (c0 =? 48)%N && ((c1 =? 120)%N || (c1 =? 88)%N) then (16, r)
        else (10, signless)
    | _ => (10, signless)
    end in
  match digits_prefix R None body with
  | None => Num.NaN
  | Some mathInt =>
      if mathInt =? 0 then S754_zero negative
      else Num.of_Z (if negative then - mathInt else mathInt)
  end.

(* ================================================================== *)
(** * Report Aggregator: [getValues] and the count *)
(* ================================================================== *)

Module GoogleAnalyticsReport.

(** [DimensionValue] and [MetricValue]: an object with a [value]
    field, which a payload may leave out. *)
Record Value := { value : option jsstring }.

(** A row as [Object.entries(row)] sees it: its properties in order,
    each an array whose elements may be null. *)
Definition ReportRow := list (jsstring * list (option Value)).

Record Report := { rows : option (list ReportRow) }.

(** A row with the two fields of the interface. *)
Definition row (dims mets : list jsstring) : ReportRow :=
  [ ($"dimensionValues",
      List.map (fun s => Some {| value := Some s |}) dims);
    ($"metricValues",
      List.map (fun s => Some {| value := Some s |}) mets) ].

End GoogleAnalyticsReport.

Import GoogleAnalyticsReport.

(** [analyticsResponse?.['rows'] ?? []]. *)
Definition rows_of (analyticsResponse : option Report) : list ReportRow :=
  match analyticsResponse with
  | Some r => match rows r with Some rs => rs | None => [] end
  | None => []
  end.

(** [value?.['value']]. *)
Definition value_of (v : option Value) : option jsstring :=
  match v with
  | Some o => value o
  | None => None
  end.

Definition getValues (analyticsResponse : option Report)
    (dimensionKey : jsstring) : list (option jsstring) :=
  List.map value_of
    (List.flat_map (fun kv : jsstring * list (option Value) => snd kv)
       (List.filter
          (fun kv : jsstring * list (option Value) =>
             Str.eqb (fst kv) dimensionKey)
          (List.flat_map (fun row : ReportRow => row)
             (rows_of analyticsResponse)))).

(** [value ?? '0']. *)
Definition or_zero (v : option jsstring) : jsstring :=
  match v with
  | Some s => s
  | None => $"0"
  end.

(** [getValues(data, 'metricValues').map(value => parseInt(value ?? '0'))
      .reduce((total, count) => total + count, 0)]. *)
Definition counts (data : option Report) : number :=
  List.fold_left (fun total count => Num.add total count)
    (List.map (fun v => parseInt (or_zero v))
       (getValues data $"metricValues"))
    (Num.of_Z 0).

(* ================================================================== *)
(** * Dates: [getTomorrowDate] *)
(* ================================================================== *)

Module Date.

Definition msPerDay : Z := 86400000.

Definition Day (t : Z) : Z := t / msPerDay.
Definition TimeWithinDay (t : Z) : Z := t mod msPerDay.

Definition DayFromYear (y : Z) : Z :=
  365 * (y - 1970) + (y - 1969) / 4 - (y - 1901) / 100 + (y - 1601) / 400.

Definition DaysInYear (y : Z) : Z :=
  if negb (y mod 4 =? 0) then 365
  else if negb (y mod 100 =? 0) then 366
  else if negb (y mod 400 =? 0) then 365
  else 366.

(** The year of day number [d]: the largest [y] with
    [DayFromYear y <= d].  A year lasts 146097 / 400 days on average,
    which places the year within one of the quotient. *)
Definition YearFromDay (d : Z) : Z :=
  let y := 1970 + (400 * d) / 146097 in
  if d <? DayFromYear y then y - 1
  else if DayFromYear (y + 1) <=? d then y + 1
  else y.

Definition YearFromTime (t : Z) : Z := YearFromDay (Day t).

Definition InLeapYear (t : Z) : Z :=
  if DaysInYear (YearFromTime t) =? 366 then 1 else 0.

Definition DayWithinYear (t : Z) : Z :=
  Day t - DayFromYear (YearFromTime t).

(** Day number within the year of the first day of month [m]. *)
Definition month_start (m leap : Z) : Z :=
  match m with
  | 0 => 0
  | 1 => 31
  | 2 => 59 + leap
  | 3 => 90 + leap
  | 4 => 120 + leap
  | 5 => 151 + leap
  | 6 => 181 + leap
  | 7 => 212 + leap
  | 8 => 243 + leap
  | 9 => 273 + leap
  | 10 => 304 + leap
  | _ => 334 + leap
  end.

Definition MonthFromTime (t : Z) : Z :=
  let d := DayWithinYear t in
  let leap := InLeapYear t in
  if d <? 31 then 0
  else if d <? 59 + leap then 1
  else if d <? 90 + leap then 2
  else if d <? 120 + leap then 3
  else if d <? 151 + leap then 4
  else if d <? 181 + leap then 5
  else if d <? 212 + leap then 6
  else if d <? 243 + leap then 7
  else if d <? 273 + leap then 8
  else if d <? 304 + leap then 9
  else if d <? 334 + leap then 10
  else 11.

Definition DateFromTime (t : Z) : Z :=
  DayWithinYear t - month_start (MonthFromTime t) (InLeapYear t) + 1.

Definition HourFromTime (t : Z) : Z := (t / 3600000) mod 24.
Definition MinFromTime (t : Z) : Z := (t / 60000) mod 60.
Definition SecFromTime (t : Z) : Z := (t / 1000) mod 60.
Definition msFromTime (t : Z) : Z := t mod 1000.

(** [MakeDay(year, month, date)]: the day number of the first day of
    the month, plus [date - 1]. *)
Definition MakeDay (year month date : Z) : Z :=
  let ym := year + month / 12 in
  let mn := month mod 12 in
  DayFromYear ym
  + month_start mn (if DaysInYear ym =? 366 then 1 else 0)
  + date - 1.

Definition MakeDate (day time : Z) : Z := day * msPerDay + time.

(** [TimeClip]: a time value out of range is not a date. *)
Definition TimeClip (t : Z) : option Z :=
  if Z.abs t <=? 8640000000000000 then Some t else None.

(** The host's offset of local time from UTC, in milliseconds. *)
Definition LocalTime (tza t : Z) : Z := t + tza.
Definition UTC (tza t : Z) : Z := t - tza.

(** [d.getDate()]. *)
Definition getDate (tza t : Z) : Z := DateFromTime (LocalTime tza t).

(** [d.setDate(date)]: the new time value of [d]. *)
Definition setDate (tza t date : Z) : option Z :=
  let lt := LocalTime tza t in
  let newDate :=
    MakeDate (MakeDay (YearFromTime lt) (MonthFromTime lt) date)
             (TimeWithinDay lt) in
  TimeClip (UTC tza newDate).

(** A number written with at least [w] digits. *)
Definition pad (w : nat) (n : Z) : jsstring :=
  let ds := Str.dec n in
  repeat 48%N (w - List.length ds) ++ ds.

(** The date part of [d.toISOString()]: the year on four digits (six
    and a sign outside 0..9999), the month and the day of the month. *)
Definition date_text (t : Z) : jsstring :=
  let y := YearFromTime t in
  let year :=
    if (0 <=? y) && (y <=? 9999) then pad 4 y
    else (if y <? 0 then $"-" else $"+") ++ pad 6 (Z.abs y) in
  year ++ $"-" ++ pad 2 (MonthFromTime t + 1)
       ++ $"-" ++ pad 2 (DateFromTime t).

Definition time_text (t : Z) : jsstring :=
  pad 2 (HourFromTime t)
  ++ $":" ++ pad 2 (MinFromTime t)
  ++ $":" ++ pad 2 (SecFromTime t)
  ++ $"." ++ pad 3 (msFromTime t).

(** [d.toISOString()] of a time value in range. *)
Definition toISOString (t : Z) : jsstring :=
  date_text t ++ $"T" ++ time_text t ++ $"Z".

End Date.

(** [s.split(sep)[0]]: the text before the first [sep]. *)
Fixpoint before_first (sep : N) (s : jsstring) : jsstring :=
  match s with
  | c :: s' => if N.eqb c sep then [] else c :: before_first sep s'
  | [] => []
  end.

(** [getTomorrowDate()], the clock reading [now] and the host's zone
    offset [tza] made explicit.  When the new time value is out of
    range [toISOString] throws a RangeError: [None]. *)
Definition getTomorrowDate (tza now : Z) : option jsstring :=
  let tomorrow := now in
  match Date.setDate tza tomorrow (Date.getDate tza tomorrow + 1) with
  | Some tomorrow => Some (before_first 84%N (Date.toISOString tomorrow))
  | None => None
  end.

(* ================================================================== *)
(** * Badge Renderer: [generateBadge] *)
(* ================================================================== *)

(** [text.length * averageCharWidth + 10].  Lengths are far below
    [2 ^ 53], where Number arithmetic on integers is exact: the widths
    are computed in [Z]. *)
Definition getTextWidth (text : jsstring) : Z :=
  let averageCharWidth := 8 in
  Str.length text * averageCharWidth + 10.

(** The replacement text of the comment terminator, as the source file
    spells it: U+00E2, U+20AC, U+201D and ['>']. *)
Definition arrow_substitute : jsstring := [226%N; 8364%N; 8221%N; 62%N].

(** [item.replace(/-->/g, ...)]: every match of ["-->"], found from
    left to right without overlap, is replaced. *)
Fixpoint replace_arrow (item : jsstring) : jsstring :=
  match item with
  | [] => []
  | a :: rest =>
      match rest with
      | b :: c :: after =>
          if (a =? 45)%N && (b =? 45)%N && (c =? 62)%N
          then arrow_substitute ++ replace_arrow after
          else a :: replace_arrow rest
      | _ => a :: replace_arrow rest
      end
  end.

Definition metadataComment (item : jsstring) : jsstring :=
  $"<!-- METADATA: " ++ replace_arrow item ++ $" -->".

Definition nl : jsstring := [10%N].
Definition tab : jsstring := [9%N].

(** Text of the template; the apostrophes of the transcription stand
    for the double quotes of the source. *)
Definition tpl (s : string) : jsstring :=
  List.map (fun c => if (c =? 39)%N then 34%N else c) (Str.lit s).

(** [`${n}`] for an integral width. *)
Definition show_int (n : Z) : jsstring := Str.dec n.

(** The lines of the template literal that follow the XML declaration. *)
Definition badge_body (label valueText : jsstring)
    (labelWidth valueWidth totalWidth : Z) (metadataComments : jsstring)
  : jsstring :=
    tpl "    <svg xmlns='http://www.w3.org/2000/svg' width='"
    ++ show_int totalWidth ++ tpl "' height='20'>" ++ nl
    ++ tab ++ tpl "  " ++ metadataComments ++ nl
    ++ tpl "      <linearGradient id='b' x2='0' y2='100%'>" ++ nl
    ++ tpl "        <stop offset='0' stop-color='#bbb' stop-opacity='.1'/>"
    ++ nl
    ++ tpl "        <stop offset='1' stop-opacity='.1'/>" ++ nl
    ++ tpl "      </linearGradient>" ++ nl
    ++ tpl "      <mask id='a'>" ++ nl
    ++ tpl "        <rect width='" ++ show_int totalWidth
    ++ tpl "' height='20' rx='3' fill='#fff'/>" ++ nl
    ++ tpl "      </mask>" ++ nl
    ++ tpl "      <g mask='url(#a)'>" ++ nl
    ++ tpl "        <rect width='" ++ show_int labelWidth
    ++ tpl "' height='20' fill='#555'/>" ++ nl
    ++ tpl "        <rect x='" ++ show_int labelWidth ++ tpl "' width='"
    ++ show_int valueWidth ++ tpl "' height='20' fill='#4c1'/>" ++ nl
    ++ tpl "        <rect width='" ++ show_int totalWidth
    ++ tpl "' height='20' fill='url(#b)'/>" ++ nl
    ++ tpl "      </g>" ++ nl
    ++ tpl "      <g fill='#fff' text-anchor='middle' font-family='DejaVu Sans,Verdana,Geneva,sans-serif' font-size='13'>"
    ++ nl
    ++ tpl "        <text x='" ++ show_int (labelWidth / 2)
    ++ tpl "' y='15' fill='#010101' fill-opacity='.3'>" ++ label
    ++ tpl "</text>" ++ nl
    ++ tpl "        <text x='" ++ show_int (labelWidth / 2)
    ++ tpl "' y='14'>" ++ label ++ tpl "</text>" ++ nl
    ++ tpl "        <text x='" ++ show_int (labelWidth + valueWidth / 2)
    ++ tpl "' y='15' fill='#010101' fill-opacity='.3'>" ++ valueText
    ++ tpl "</text>" ++ nl
    ++ tpl "        <text x='" ++ show_int (labelWidth + valueWidth / 2)
    ++ tpl "' y='14'>" ++ valueText ++ tpl "</text>" ++ nl
    ++ tpl "      </g>" ++ nl
    ++ tpl "    </svg>".

(** The template literal. *)
Definition badge_template (label valueText : jsstring)
    (labelWidth valueWidth totalWidth : Z) (metadataComments : jsstring)
  : jsstring :=
  tpl "<?xml version='1.0' encoding='UTF-8'?>" ++ nl
  ++ badge_body label valueText labelWidth valueWidth totalWidth
       metadataComments.

(** [generateBadge(label, value, metadata)] for a [value] that is a
    string, as [formatNumber] returns it. *)
Definition generateBadge (label value : jsstring)
    (metadata : list jsstring) : jsstring :=
  let valueText := value in
  let labelWidth := getTextWidth label in
  let valueWidth := getTextWidth valueText in
  let totalWidth := labelWidth + valueWidth in
  let metadataComments :=
    Str.join nl (List.map metadataComment metadata) in
  Str.trim
    (badge_template label valueText labelWidth valueWidth totalWidth
       metadataComments).

(* ================================================================== *)
(** * JSON text of the error bodies *)
(* ================================================================== *)

Module JSON.

Definition hex_digit (v : N) : N :=
  if (v <? 10)%N then (48 + v)%N else (87 + v)%N.

(** [UnicodeEscape]: a backslash, [u] and four lower-case hex digits. *)
Definition unicode_escape (c : N) : jsstring :=
  [92%N; 117%N; hex_digit (c / 4096 mod 16); hex_digit (c / 256 mod 16);
   hex_digit (c / 16 mod 16); hex_digit (c mod 16)]%N.

Definition is_high (c : N) : bool := ((55296 <=? c) && (c <=? 56319))%N.
Definition is_low (c : N) : bool := ((56320 <=? c) && (c <=? 57343))%N.

(** The characters of [QuoteJSONString] between the quotes. *)
Fixpoint escape (s : jsstring) : jsstring :=
  match s with
  | [] => []
  | c :: s' =>
      if (c =? 8)%N then [92; 98]%N ++ escape s'
      else if (c =? 9)%N then [92; 116]%N ++ escape s'
      else if (c =? 10)%N then [92; 110]%N ++ escape s'
      else if (c =? 12)%N then [92; 102]%N ++ escape s'
      else if (c =? 13)%N then [92; 114]%N ++ escape s'
      else if (c =? 34)%N then [92; 34]%N ++ escape s'
      else if (c =? 92)%N then [92; 92]%N ++ escape s'
      else if (c <? 32)%N then unicode_escape c ++ escape s'
      else if is_high c then
        match s' with
        | d :: s'' =>
            if is_low d then c :: d :: escape s''
            else unicode_escape c ++ escape s'
        | [] => unicode_escape c
        end
      else if is_low c then unicode_escape c ++ escape s'
      else c :: escape s'
  end.

Definition quote (s : jsstring) : jsstring := [34%N] ++ escape s ++ [34%N].

(** [JSON.stringify({ error }, null, 4)]. *)
Definition stringify_error_indented (error : jsstring) : jsstring :=
  $"{" ++ [10%N] ++ $"    " ++ quote $"error" ++ $": " ++ quote error
       ++ [10%N] ++ $"}".

(** [JSON.stringify({ error, timestamp })]. *)
Definition stringify_error_timestamp (error timestamp : jsstring)
  : jsstring :=
  $"{" ++ quote $"error" ++ $":" ++ quote error ++ $","
       ++ quote $"timestamp" ++ $":" ++ quote timestamp ++ $"}".

End JSON.

(* ================================================================== *)
(** * Cache Orchestrator: the [fetch] handler *)
(* ================================================================== *)

(** ** Requests, responses and the collaborators *)

Record Request := {
  method : jsstring;
  url : jsstring;
  (** [[...new URL(request.url).searchParams.entries()]] *)
  searchParams : list (jsstring * jsstring)
}.

Record Response := {
  status : Z;
  headers : list (jsstring * jsstring);
  body : jsstring
}.

(** A thrown value and its [message] property. *)
Record Error := { message : option jsstring }.

Inductive outcome (A : Type) : Type :=
| Returns (a : A)
| Throws (e : Error).
Arguments Returns {A} a.
Arguments Throws {A} e.

(** The body of the report query. *)
Record RunReportRequest := {
  startDate : jsstring;
  endDate : jsstring;
  dimensionName : jsstring;
  filterFieldName : jsstring;
  matchType : jsstring;
  filterValue : jsstring;
  metricName : jsstring
}.

(** The call made to the analytics backend. *)
Record BackendCall := {
  call_url : jsstring;
  call_method : jsstring;
  call_headers : list (jsstring * jsstring);
  call_body : RunReportRequest;
  cacheTtl : Z;
  cacheEverything : bool
}.

Record BackendResponse := {
  ok : bool;
  (** [await analyticsResponse.text()] *)
  text : outcome jsstring;
  (** [await analyticsResponse.json()] *)
  json : outcome (option Report)
}.

(** What the collaborators do while one request is served. *)
Record World := {
  GA_PROPERTY_ID : jsstring;
  (** [JSON.parse(atob(env.SERVICE_ACCOUNT_CREDENTIALS))] and the
      construction of the client *)
  credentials : outcome unit;
  (** [await oauth.getGoogleAuthToken()]; [None] is [undefined] *)
  getGoogleAuthToken : outcome (option jsstring);
  (** the clock read by [getTomorrowDate], the clock read by the
      [catch] branch, the zone offset of the host *)
  now : Z;
  now_at_catch : Z;
  tza : Z;
  (** the global [fetch] *)
  backend : BackendCall -> outcome BackendResponse
}.

(** The response cache: request identities (method and URL) with the
    stored response, the latest first. *)
Definition CacheKey : Type := jsstring * jsstring.
Definition Cache : Type := list (CacheKey * Response).

Definition cache_key (request : Request) : CacheKey :=
  (method request, url request).

Definition key_eqb (a b : CacheKey) : bool :=
  Str.eqb (fst a) (fst b) && Str.eqb (snd a) (snd b).

(** [cache.match(request)]. *)
Fixpoint cache_match (c : Cache) (k : CacheKey) : option Response :=
  match c with
  | [] => None
  | (k', r) :: c' => if key_eqb k' k then Some r else cache_match c' k
  end.

(** [cache.put(request, response)]. *)
Definition cache_put (c : Cache) (k : CacheKey) (r : Response) : Cache :=
  (k, r) :: c.

(** The calls that leave the handler, in the order they are made. *)
Inductive Event : Type :=
| EvCacheMatch (k : CacheKey)
| EvGetToken (scopes : list jsstring)
| EvBackendFetch (call : BackendCall)
| EvCachePut (k : CacheKey) (r : Response).

Record State := { cache : Cache; trace : list Event }.

(** ** The monad of the [try] block

    A step completes normally, or by a [return] statement, or by a
    thrown error; the state carries the cache and the trace. *)

Inductive completion (A : Type) : Type :=
| Normal (a : A)
| Return (r : Response)
| Throw (e : Error).
Arguments Normal {A} a.
Arguments Return {A} r.
Arguments Throw {A} e.

Definition M (A : Type) : Type := State -> completion A * State.

Definition ret {A} (a : A) : M A := fun st => (Normal a, st).

Definition bind {A B} (m : M A) (f : A -> M B) : M B :=
  fun st =>
    match m st with
    | (Normal a, st') => f a st'
    | (Return r, st') => (Return r, st')
    | (Throw e, st') => (Throw e, st')
    end.

Notation "x <- m ;; f" := (bind m (fun x => f))
  (at level 61, m at next level, right associativity).
Notation "m ;;; f" := (bind m (fun _ => f))
  (at level 61, right associativity).

Definition return_ {A} (r : Response) : M A := fun st => (Return r, st).
Definition throw {A} (e : Error) : M A := fun st => (Throw e, st).

Definition emit (ev : Event) : M unit :=
  fun st => (Normal tt, {| cache := cache st; trace := trace st ++ [ev] |}).

(** Awaiting a collaborator. *)
Definition await {A} (o : outcome A) : M A :=
  match o with
  | Returns a => ret a
  | Throws e => throw e
  end.

Definition when (b : bool) (m : M unit) : M unit :=
  if b then m else ret tt.

Definition read_cache (k : CacheKey) : M (option Response) :=
  fun st => (Normal (cache_match (cache st) k),
             {| cache := cache st; trace := trace st ++ [EvCacheMatch k] |}).

Definition write_cache (k : CacheKey) (r : Response) : M unit :=
  fun st => (Normal tt,
             {| cache := cache_put (cache st) k r;
                trace := trace st ++ [EvCachePut k r] |}).

(** ** Constants and messages *)

Definition IMAGE_CACHE_SECONDS : Z := 45 * 60.
Definition GOOGLE_CALL_CACHE_TTL_SECONDS : Z := 45 * 60.

Definition new_Error (msg : jsstring) : Error := {| message := Some msg |}.

(** The TypeError of [item.replace] on an undefined item and the
    RangeError of [toISOString] on an invalid date, with the messages
    of the engine. *)
Definition TypeError_replace : Error :=
  new_Error $"Cannot read properties of undefined (reading 'replace')".
Definition RangeError_date : Error := new_Error $"Invalid time value".

(** ** The handler *)

(** [[...entries].find(([key, _]) =>
       (key || '').toLowerCase().trim() === "page_path")?.[1]]. *)
Definition find_page_path (entries : list (jsstring * jsstring))
  : option jsstring :=
  match List.find
          (fun kv : jsstring * jsstring =>
             Str.eqb (Str.trim (Str.toLowerCase (fst kv))) $"page_path")
          entries with
  | Some kv => Some (snd kv)
  | None => None
  end.

(** [!page_path]. *)
Definition falsy (page_path : option jsstring) : bool :=
  match page_path with
  | None => true
  | Some [] => true
  | Some _ => false
  end.

Definition requestBody (tomorrow page_path : jsstring) : RunReportRequest :=
  {| startDate := $"2024-01-01";
     endDate := tomorrow;
     dimensionName := $"pagePath";
     filterFieldName := $"pagePath";
     matchType := $"CONTAINS";
     filterValue := Str.trim (Str.toLowerCase page_path);
     metricName := $"screenPageViews" |}.

Definition backendCall (w : World) (token : jsstring)
    (q : RunReportRequest) : BackendCall :=
  {| call_url := $"https://analyticsdata.googleapis.com/v1beta/"
                 ++ GA_PROPERTY_ID w ++ $":runReport";
     call_method := $"POST";
     call_headers := [ ($"Authorization", $"Bearer " ++ token);
                       ($"Content-Type", $"application/json") ];
     call_body := q;
     cacheTtl := GOOGLE_CALL_CACHE_TTL_SECONDS;
     cacheEverything := true |}.

(** The strings of an array whose items are all defined. *)
Fixpoint all_defined (l : list (option jsstring)) : option (list jsstring) :=
  match l with
  | [] => Some []
  | Some s :: l' =>
      match all_defined l' with
      | Some r => Some (s :: r)
      | None => None
      end
  | None :: _ => None
  end.

(** The header that [new Response(text, init)] sets when [init] names
    no content type. *)
Definition text_plain : list (jsstring * jsstring) :=
  [ ($"content-type", $"text/plain;charset=UTF-8") ].

Definition method_not_allowed : Response :=
  {| status := 405; headers := text_plain; body := $"Method not allowed" |}.

Definition page_path_not_available : Response :=
  {| status := 405; headers := text_plain;
     body := $"page_path not available" |}.

Definition upstream_error (errorText : jsstring) : Response :=
  {| status := 500;
     headers := [ ($"Content-Type", $"application/json") ];
     body := JSON.stringify_error_indented errorText |}.

Definition badge_response (svg : jsstring) : Response :=
  {| status := 200;
     headers := [ ($"Content-Type", $"image/svg+xml");
                  ($"Cache-Control",
                    $"public, max-age=" ++ show_int IMAGE_CACHE_SECONDS);
                  ($"Access-Control-Allow-Origin", $"*") ];
     body := svg |}.

Definition scopes : list jsstring :=
  [ $"https://www.googleapis.com/auth/analytics.readonly" ].

(** The body of the [try] block. *)
Definition try_block (w : World) (request : Request) : M Response :=
  response <- read_cache (cache_key request) ;;
  match response with
  | Some response => ret response
  | None =>
      await (credentials w) ;;;
      emit (EvGetToken scopes) ;;;
      token <- await (getGoogleAuthToken w) ;;
      token <- match token with
               | None =>
                   throw (new_Error $"generating Google auth token failed")
               | Some token => ret token
               end ;;
      when (negb (Str.eqb (method request) $"GET"))
           (return_ method_not_allowed) ;;;
      let page_path := find_page_path (searchParams request) in
      when (falsy page_path) (return_ page_path_not_available) ;;;
      let page_path := match page_path with Some p => p | None => [] end in
      tomorrow <- match getTomorrowDate (tza w) (now w) with
                  | Some d => ret d
                  | None => throw RangeError_date
                  end ;;
      let call := backendCall w token (requestBody tomorrow page_path) in
      emit (EvBackendFetch call) ;;;
      analyticsResponse <- await (backend w call) ;;
      when (negb (ok analyticsResponse))
           (errorText <- await (text analyticsResponse) ;;
            return_ (upstream_error errorText)) ;;;
      data <- await (json analyticsResponse) ;;
      let counts := counts data in
      let dimensionValues := getValues data $"dimensionValues" in
      svg <- match all_defined dimensionValues with
             | Some metadata =>
                 ret (generateBadge $"readers" (formatNumber counts) metadata)
             | None => throw TypeError_replace
             end ;;
      let response := badge_response svg in
      write_cache (cache_key request) response ;;;
      ret response
  end.

(** [error.message || 'Internal server error']. *)
Definition error_text (e : Error) : jsstring :=
  match message e with
  | Some (c :: m) => c :: m
  | _ => $"Internal server error"
  end.

Definition internal_error (w : World) (e : Error) : Response :=
  {| status := 500;
     headers := [ ($"Content-Type", $"application/json") ];
     body := JSON.stringify_error_timestamp (error_text e)
               (Date.toISOString (now_at_catch w)) |}.

(** [fetch(request, env, ctx)]: the response and the state left. *)
Definition fetch (w : World) (request : Request) (st : State)
  : Response * State :=
  match try_block w request st with
  | (Normal response, st') => (response, st')
  | (Return response, st') => (response, st')
  | (Throw error, st') => (internal_error w error, st')
  end.

(* ================================================================== *)
(** * Definitions used by the statements and the proofs *)
(* ================================================================== *)

Definition exact_rec (mrs : shr_record) : Prop :=
  shr_r mrs = false /\ shr_s mrs = false.

(** The canonical representation of a positive integer below [2^53]. *)
Definition canon (s : bool) (n : positive) : number :=
  let '(m, e) := shl_align n 0 (Zpos (digits2_pos n) - 53) in
  S754_finite s m e.

(** The Number of a safe integer. *)
Definition int (z : Z) : number :=
  match z with
  | Z0 => S754_zero false
  | Zpos p => canon false p
  | Zneg p => canon true p
  end.

(** The number of binary digits of a positive integer. *)
Definition bits (z : Z) : Z := Zpos (digits2_pos (Z.to_pos z)).

(** The lower case of the characters of Basic Latin and of the
    Latin-1 Supplement: the letters A to Z, and the capital letters
    from U+00C0 to U+00DE, between which the multiplication sign
    stands, have their lower case 32 places further. *)
Definition latin1_lower (c : N) : N :=
  if ((65 <=? c) && (c <=? 90)
      || (192 <=? c) && (c <=? 222) && negb (c =? 215))%N
  then (c + 32)%N else c.

(** A code point with one lower case, whatever comes before and
    after. *)
Definition one_lower (c : N) : bool := negb (c =? 931)%N && negb (c =? 304)%N.

(** The digits of a number are digits. *)
Definition is_digit (c : N) : bool := ((48 <=? c) && (c <=? 57))%N.

(** The sign written in front of a negative integer. *)
Definition sign_text (n : Z) : jsstring := if n <? 0 then $"-" else [].

(** [out] writes the quotient of [a] by [d]: its digits when the
    division is exact; otherwise [r] tenths, a point before the last
    digit, for an [r] at most half a tenth away from the quotient. *)
Definition quotient_text (a d : Z) (out : jsstring) : Prop :=
  (a mod d = 0 /\ out = Str.dec (a / d))
  \/ (a mod d <> 0
      /\ exists r : Z,
           10 <= r
           /\ 2 * Z.abs (10 * a - d * r) <= d
           /\ out = Str.dec (r / 10) ++ $"." ++ Str.dec (r mod 10)).

(** The integers from [a] on, [k] of them. *)
Fixpoint range (k : nat) (a : Z) : list Z :=
  match k with
  | O => []
  | S k' => a :: range k' (a + 1)
  end.

(** The check of [formatNumber] on one integer of fewer than four
    digits. *)
Definition units_ok (n : Z) : bool :=
  Str.eqb (formatNumber (Num.of_Z n)) (sign_text n ++ Str.dec (Z.abs n)).

(** The slots filed under [key] in the rows, row after row, each read
    as [value?.['value']] reads it. *)
Definition slots (key : jsstring) (rows : list GoogleAnalyticsReport.ReportRow)
  : list (option jsstring) :=
  List.flat_map
    (fun row : GoogleAnalyticsReport.ReportRow =>
       List.flat_map
         (fun kv : jsstring * list (option GoogleAnalyticsReport.Value) =>
            if Str.eqb (fst kv) key then List.map value_of (snd kv) else [])
         row)
    rows.

(** The sum of numbers, added from left to right to [0]. *)
Definition sum_numbers (l : list number) : number :=
  List.fold_left Num.add l (Num.of_Z 0).

(** A report whose rows carry dimension and metric strings. *)
Definition typed_report (l : list (list jsstring * list jsstring))
  : option GoogleAnalyticsReport.Report :=
  Some {| GoogleAnalyticsReport.rows :=
            Some (List.map (fun r => GoogleAnalyticsReport.row (fst r) (snd r))
                           l) |}.

(** A report whose metric values are the decimal strings of counts. *)
Definition counted_report (l : list (list jsstring * list Z))
  : option GoogleAnalyticsReport.Report :=
  typed_report (List.map (fun r => (fst r, List.map Str.dec (snd r))) l).

Definition Zsum (l : list Z) : Z := List.fold_right Z.add 0 l.

(** One request served from cache [c]: the response, the cache left
    and the calls made. *)
Definition run (w : World) (request : Request) (c : Cache)
  : Response * State :=
  fetch w request {| cache := c; trace := [] |}.

(** The ways the acquisition of the token fails, with the error that
    the [catch] branch receives. *)
Definition token_failure (w : World) (e : Error) : Prop :=
  credentials w = Throws e
  \/ (credentials w = Returns tt
      /\ (getGoogleAuthToken w = Throws e
          \/ (getGoogleAuthToken w = Returns None
              /\ e = new_Error $"generating Google auth token failed"))).

Definition is_backend_fetch (ev : Event) : bool :=
  match ev with
  | EvBackendFetch _ => true
  | _ => false
  end.

Definition is_cache_put (ev : Event) : bool :=
  match ev with
  | EvCachePut _ _ => true
  | _ => false
  end.

(** The same collaborators with another analytics backend. *)
Definition with_backend (w : World)
    (b : BackendCall -> outcome BackendResponse) : World :=
  {| GA_PROPERTY_ID := GA_PROPERTY_ID w;
     credentials := credentials w;
     getGoogleAuthToken := getGoogleAuthToken w;
     now := now w;
     now_at_catch := now_at_catch w;
     tza := tza w;
     backend := b |}.

(** A response that is a badge rendered with the label "readers". *)
Definition rendered (r : Response) : Prop :=
  exists (value : jsstring) (metadata : list jsstring),
    r = badge_response (generateBadge $"readers" value metadata).

(** The caches that the worker can meet: the empty one, the cache left
    by a request, and a cache some entries of which have expired. *)
Inductive reachable : Cache -> Prop :=
| reach_empty : reachable []
| reach_fetch (w : World) (request : Request) (c : Cache) :
    reachable c -> reachable (cache (snd (run w request c)))
| reach_expire (c c' : Cache) :
    reachable c -> incl c' c -> reachable c'.

(** A request that passes the checks, with a token at hand. *)
Record admitted (w : World) (request : Request) (c : Cache)
    (token page_path : jsstring) : Prop := {
  adm_miss : cache_match c (cache_key request) = None;
  adm_credentials : credentials w = Returns tt;
  adm_token : getGoogleAuthToken w = Returns (Some token);
  adm_method : Str.eqb (method request) $"GET" = true;
  adm_page_path : find_page_path (searchParams request) = Some page_path;
  adm_nonempty : page_path <> [];
  adm_clock : Z.abs (now w + Date.msPerDay) <= 8640000000000000
}.

(** The call that an admitted request makes. *)
Definition report_call (w : World) (token page_path : jsstring)
  : BackendCall :=
  backendCall w token
    (requestBody (Date.date_text (now w + Date.msPerDay)) page_path).

(** The six ways a request is served. *)
Inductive served (w : World) (request : Request) (c : Cache)
  : Response -> State -> Prop :=
| served_hit r :
    cache_match c (cache_key request) = Some r ->
    served w request c r
      {| cache := c; trace := [EvCacheMatch (cache_key request)] |}
| served_token_failure e evs :
    cache_match c (cache_key request) = None ->
    token_failure w e ->
    evs = [EvCacheMatch (cache_key request)]
    \/ evs = [EvCacheMatch (cache_key request); EvGetToken scopes] ->
    served w request c (internal_error w e) {| cache := c; trace := evs |}
| served_method token :
    cache_match c (cache_key request) = None ->
    credentials w = Returns tt ->
    getGoogleAuthToken w = Returns (Some token) ->
    Str.eqb (method request) $"GET" = false ->
    served w request c method_not_allowed
      {| cache := c;
         trace := [EvCacheMatch (cache_key request); EvGetToken scopes] |}
| served_page_path token :
    cache_match c (cache_key request) = None ->
    credentials w = Returns tt ->
    getGoogleAuthToken w = Returns (Some token) ->
    Str.eqb (method request) $"GET" = true ->
    falsy (find_page_path (searchParams request)) = true ->
    served w request c page_path_not_available
      {| cache := c;
         trace := [EvCacheMatch (cache_key request); EvGetToken scopes] |}
| served_clock token :
    cache_match c (cache_key request) = None ->
    credentials w = Returns tt ->
    getGoogleAuthToken w = Returns (Some token) ->
    8640000000000000 < Z.abs (now w + Date.msPerDay) ->
    served w request c (internal_error w RangeError_date)
      {| cache := c;
         trace := [EvCacheMatch (cache_key request); EvGetToken scopes] |}
| served_admitted token page_path :
    admitted w request c token page_path ->
    served w request c (fst (run w request c)) (snd (run w request c)).

(** ** Sample requests and collaborators *)

Definition sample_report : option GoogleAnalyticsReport.Report :=
  typed_report [ ([ $"/blog/post" ], [ $"42" ]) ].

(** A backend that answers every call with [sample_report]. *)
Definition backend_ok (call : BackendCall) : outcome BackendResponse :=
  Returns {| ok := true;
             text := Returns $"{}";
             json := Returns sample_report |}.

(** A backend that refuses every call. *)
Definition backend_refusing (call : BackendCall) : outcome BackendResponse :=
  Returns {| ok := false;
             text := Returns $"quota exceeded";
             json := Throws (new_Error $"Unexpected token") |}.

Definition world_ok : World :=
  {| GA_PROPERTY_ID := $"properties/1";
     credentials := Returns tt;
     getGoogleAuthToken := Returns (Some $"token");
     now := 1730505600000;
     now_at_catch := 1730505600250;
     tza := 0;
     backend := backend_ok |}.

Definition world_refused : World := with_backend world_ok backend_refusing.

(** Collaborators whose token acquisition yields no token. *)
Definition world_no_token : World :=
  {| GA_PROPERTY_ID := $"properties/1";
     credentials := Returns tt;
     getGoogleAuthToken := Returns None;
     now := 1730505600000;
     now_at_catch := 1730505600250;
     tza := 0;
     backend := backend_ok |}.

Definition get_post : Request :=
  {| method := $"GET";
     url := $"https://views.example/?page_path=Post";
     searchParams := [ ($"page_path", $"Post") ] |}.

Definition post_post : Request :=
  {| method := $"POST";
     url := $"https://views.example/?page_path=a";
     searchParams := [ ($"page_path", $"a") ] |}.

Definition get_nothing : Request :=
  {| method := $"GET";
     url := $"https://views.example/";
     searchParams := [] |}.

(* ================================================================== *)
(** * Well-formed documents

    A recogniser of XML documents made of an optional declaration, one
    root element with attributes, character data and comments.
    References, processing instructions, CDATA sections and document
    type declarations are outside this fragment and are refused. *)
(* ================================================================== *)

Module Xml.

Definition is_S (c : N) : bool :=
  ((c =? 32) || (c =? 9) || (c =? 10) || (c =? 13))%N.

(** [Char], on the code units of the string that becomes the body of
    a response.  A high surrogate followed by a low one is a character
    from U+10000 on, which is a [Char]; any other surrogate is not a
    character, and the encoding of the body writes U+FFFD for it, which
    is a [Char] too.  A surrogate therefore stands for a [Char] in the
    document, like the other code units from U+0020 to U+FFFD. *)
Definition is_char (c : N) : bool :=
  ((c =? 9) || (c =? 10) || (c =? 13) || (32 <=? c) && (c <=? 65533))%N.

Definition is_name_start (c : N) : bool :=
  ((65 <=? c) && (c <=? 90) || (97 <=? c) && (c <=? 122)
   || (c =? 95) || (c =? 58))%N.

Definition is_name_char (c : N) : bool :=
  (is_name_start c || (48 <=? c) && (c <=? 57) || (c =? 45) || (c =? 46))%N.

(** A name, its last code unit first. *)
Definition name : Type := list N.

Inductive mode : Type :=
| Content (brackets : nat)
| Lt
| Bang
| BangDash
| Comment (hyphens : nat)
| OpenName (nm : name)
| Attrs (nm : name) (seen : list name) (spaced : bool)
| AttrName (nm : name) (seen : list name) (an : name)
| AttrEq (nm : name) (seen : list name) (an : name)
| AttrQuote (nm : name) (seen : list name)
| AttrValue (nm : name) (seen : list name) (q : N)
| EmptyTag (nm : name)
| CloseStart
| CloseName (nm : name)
| CloseSpace (nm : name).

(** The recogniser's state: where it is, the elements that are open
    (innermost first) and whether the root element has begun. *)
Record config : Type := {
  at_ : mode;
  stack : list name;
  rooted : bool
}.

Definition go (m : mode) (cfg : config) : option config :=
  Some {| at_ := m; stack := stack cfg; rooted := rooted cfg |}.

(** A start tag is complete. *)
Definition open (nm : name) (cfg : config) : option config :=
  Some {| at_ := Content 0; stack := nm :: stack cfg; rooted := true |}.

(** An end tag is complete. *)
Definition close (nm : name) (cfg : config) : option config :=
  match stack cfg with
  | top :: below =>
      if Str.eqb top nm
      then Some {| at_ := Content 0; stack := below; rooted := rooted cfg |}
      else None
  | [] => None
  end.

(** An attribute name is complete: it must be new in its tag. *)
Definition attribute (nm : name) (seen : list name) (an : name)
    (cfg : config) : option config :=
  if existsb (Str.eqb an) seen then None
  else go (AttrQuote nm (an :: seen)) cfg.

Definition step (cfg : config) (c : N) : option config :=
  match at_ cfg with
  | Content b =>
      if (c =? 60)%N then go Lt cfg
      else if (c =? 38)%N then None
      else
        match stack cfg with
        | [] => if is_S c then go (Content 0) cfg else None
        | _ :: _ =>
            if negb (is_char c) then None
            else if (c =? 93)%N then go (Content (Nat.min 2 (S b))) cfg
            else if (c =? 62)%N && (2 <=? b)%nat then None
            else go (Content 0) cfg
        end
  | Lt =>
      if (c =? 33)%N then go Bang cfg
      else if (c =? 47)%N then
        match stack cfg with
        | [] => None
        | _ :: _ => go CloseStart cfg
        end
      else if is_name_start c then
        match stack cfg with
        | [] => if rooted cfg then None else go (OpenName [c]) cfg
        | _ :: _ => go (OpenName [c]) cfg
        end
      else None
  | Bang => if (c =? 45)%N then go BangDash cfg else None
  | BangDash => if (c =? 45)%N then go (Comment 0) cfg else None
  | Comment d =>
      if (2 <=? d)%nat then
        if (c =? 62)%N then go (Content 0) cfg else None
      else if (c =? 45)%N then go (Comment (S d)) cfg
      else if is_char c then go (Comment 0) cfg
      else None
  | OpenName nm =>
      if is_name_char c then go (OpenName (c :: nm)) cfg
      else if is_S c then go (Attrs nm [] true) cfg
      else if (c =? 62)%N then open nm cfg
      else if (c =? 47)%N then go (EmptyTag nm) cfg
      else None
  | Attrs nm seen spaced =>
      if is_S c then go (Attrs nm seen true) cfg
      else if (c =? 62)%N then open nm cfg
      else if (c =? 47)%N then go (EmptyTag nm) cfg
      else if is_name_start c && spaced then go (AttrName nm seen [c]) cfg
      else None
  | AttrName nm seen an =>
      if is_name_char c then go (AttrName nm seen (c :: an)) cfg
      else if (c =? 61)%N then attribute nm seen an cfg
      else if is_S c then go (AttrEq nm seen an) cfg
      else None
  | AttrEq nm seen an =>
      if is_S c then go (AttrEq nm seen an) cfg
      else if (c =? 61)%N then attribute nm seen an cfg
      else None
  | AttrQuote nm seen =>
      if is_S c then go (AttrQuote nm seen) cfg
      else if (c =? 34)%N || (c =? 39)%N then go (AttrValue nm seen c) cfg
      else None
  | AttrValue nm seen q =>
      if (c =? q)%N then go (Attrs nm seen false) cfg
      else if (c =? 60)%N || (c =? 38)%N then None
      else if is_char c then go (AttrValue nm seen q) cfg
      else None
  | EmptyTag nm =>
      if (c =? 62)%N then
        Some {| at_ := Content 0; stack := stack cfg; rooted := true |}
      else None
  | CloseStart =>
      if is_name_start c then go (CloseName [c]) cfg else None
  | CloseName nm =>
      if is_name_char c then go (CloseName (c :: nm)) cfg
      else if is_S c then go (CloseSpace nm) cfg
      else if (c =? 62)%N then close nm cfg
      else None
  | CloseSpace nm =>
      if is_S c then go (CloseSpace nm) cfg
      else if (c =? 62)%N then close nm cfg
      else None
  end.

Fixpoint run (cfg : config) (s : jsstring) : option config :=
  match s with
  | [] => Some cfg
  | c :: s' =>
      match step cfg c with
      | Some cfg' => run cfg' s'
      | None => None
      end
  end.

Definition start : config :=
  {| at_ := Content 0; stack := []; rooted := false |}.

(** At the end the root element is closed and all markup is complete. *)
Definition accepting (cfg : config) : bool :=
  match at_ cfg, stack cfg with
  | Content _, [] => rooted cfg
  | _, _ => false
  end.

(** The XML declaration of the documents of this fragment. *)
Definition declaration : jsstring :=
  tpl "<?xml version='1.0' encoding='UTF-8'?>".

Fixpoint strip_prefix (p s : jsstring) : option jsstring :=
  match p, s with
  | [], _ => Some s
  | x :: p', y :: s' => if (x =? y)%N then strip_prefix p' s' else None
  | _ :: _, [] => None
  end.

Definition well_formed (doc : jsstring) : bool :=
  let body :=
    match strip_prefix declaration doc with
    | Some rest => rest
    | None => doc
    end in
  match run start body with
  | Some cfg => accepting cfg
  | None => false
  end.

End Xml.

(** ** The comment terminator *)

(** Reading [s] after [d] hyphens (two stand for two or more): the
    number of hyphens that end it, or [None] as soon as the comment
    terminator is met. *)
Fixpoint scan (d : nat) (s : jsstring) : option nat :=
  match s with
  | [] => Some d
  | c :: s' =>
      if (c =? 45)%N then scan (Nat.min 2 (S d)) s'
      else if (c =? 62)%N && (2 <=? d)%nat then None
      else scan 0 s'
  end.

(** Whether a string begins with the comment terminator. *)
Definition starts_arrow (s : jsstring) : bool :=
  match s with
  | a :: b :: c :: _ => (a =? 45)%N && (b =? 45)%N && (c =? 62)%N
  | _ => false
  end.

(** What may follow [d] hyphens without completing a terminator that
    lies across the boundary. *)
Definition boundary_ok (d : nat) (s : jsstring) : Prop :=
  (d = 2%nat -> forall r, s <> 62%N :: r)
  /\ ((1 <= d)%nat -> forall r, s <> 45%N :: 62%N :: r).


(** ** Strings that need no escaping *)

(** Character data: legal code units other than ['<'] and ['&'], and
    no ["]]>"]. *)
Definition text_unit (c : N) : bool :=
  Xml.is_char c && negb (c =? 60)%N && negb (c =? 38)%N.

Definition plain_text (s : jsstring) : Prop :=
  forallb text_unit s = true /\ forall a b, s <> a ++ $"]]>" ++ b.

(** The text of a comment: legal code units and no ["--"]. *)
Definition plain_comment (s : jsstring) : Prop :=
  forallb Xml.is_char s = true /\ forall a b, s <> a ++ $"--" ++ b.

(** A code unit that stays inside an attribute value quoted by [q]. *)
Definition value_unit (q c : N) : bool :=
  Xml.is_char c && negb (c =? q)%N && negb (c =? 60)%N && negb (c =? 38)%N.

(** Whether [p] occurs in [s]. *)
Fixpoint occurs (p s : jsstring) : bool :=
  Str.startsWith p s
  || match s with
     | [] => false
     | _ :: s' => occurs p s'
     end.

(* ================================================================== *)
(** * Definitions used by the further properties *)
(* ================================================================== *)

(** Whether [s] may stand in a comment after [d] hyphens: legal code
    units and no two hyphens in a row. *)
Fixpoint comment_text_ok (d : nat) (s : jsstring) : bool :=
  match s with
  | [] => true
  | c :: s' =>
      if (c =? 45)%N then (d =? 0)%nat && comment_text_ok 1 s'
      else Xml.is_char c && comment_text_ok 0 s'
  end.

(** Whether the comment made of a metadata string is a comment of a
    well-formed document. *)
Definition comment_ok (item : jsstring) : bool :=
  forallb Xml.is_char item && negb (occurs $"--" (replace_arrow item)).

(** The code units of the texts that [formatNumber] returns: the
    digits, the sign, the point, the suffixes, the exponent mark of
    the numbers from [1e21] on and the letters of [NaN] and
    [Infinity]. *)
Definition badge_unit (c : N) : bool :=
  is_digit c || existsb (N.eqb c) $"-.+eKMNaInfity".

(** The check of [formatNumber] on one integer just below a million. *)
Definition near_million_ok (n : Z) : bool :=
  Str.eqb (formatNumber (Num.of_Z n)) $"1000.0K".

(** The number of days of month [m] (from 0), in a leap year or not. *)
Definition DaysInMonth (m leap : Z) : Z :=
  match m with
  | 1 => 28 + leap
  | 3 | 5 | 8 | 10 => 30
  | _ => 31
  end.

(** What may follow the digits of a count: nothing, or text whose
    first code unit is neither a digit nor the [x] of a hexadecimal
    prefix. *)
Definition numeric_end (t : jsstring) : bool :=
  match t with
  | [] => true
  | c :: _ => negb (is_digit c) && negb (c =? 120)%N && negb (c =? 88)%N
  end.

(** The count that a metric value stands for: its leading decimal
    digits, and 0 for a value that is missing. *)
Definition count_of (v : option jsstring) : Z :=
  match v with
  | Some s =>
      match digits_prefix 10 None s with
      | Some z => z
      | None => 0
      end
  | None => 0
  end.

(** A metric value that is missing, or is a count written in decimal
    digits, perhaps followed by other text. *)
Definition is_count (v : option jsstring) : Prop :=
  v = None
  \/ exists (z : Z) (t : jsstring),
       0 <= z /\ numeric_end t = true /\ v = Some (Str.dec z ++ t).

(** A report made of the given rows. *)
Definition report_of (rs : list ReportRow) : option Report :=
  Some {| rows := Some rs |}.

(** The number of values that a row files under [key]. *)
Definition row_count (key : jsstring) (row : ReportRow) : nat :=
  list_sum
    (List.map
       (fun kv : jsstring * list (option Value) =>
          if Str.eqb (fst kv) key then List.length (snd kv) else 0%nat)
       row).

(** The same collaborators with another token and another backend. *)
Definition with_token (w : World) (token : jsstring)
    (b : BackendCall -> outcome BackendResponse) : World :=
  {| GA_PROPERTY_ID := GA_PROPERTY_ID w;
     credentials := credentials w;
     getGoogleAuthToken := Returns (Some token);
     now := now w;
     now_at_catch := now_at_catch w;
     tza := tza w;
     backend := b |}.

(* ================================================================== *)
(** * Facts on binary64 arithmetic over the integers *)
(* ================================================================== *)




Lemma iter_pos_iter {A} (f : A -> A) (p : positive) (x : A) :
  iter_pos f p x = Pos.iter f x p.
Proof.
  revert x. induction p as [p IH|p IH|]; intros x; simpl.
  - rewrite !IH. rewrite <- Pos.iter_swap. rewrite <- Pos.iter_swap. reflexivity.
  - rewrite !IH. reflexivity.
  - reflexivity.
Qed.

Lemma shr_1_m (mrs : shr_record) :
  0 <= shr_m mrs -> shr_m (shr_1 mrs) = shr_m mrs / 2.
Proof.
  destruct mrs as [m r s]. cbn [shr_m]. intros H.
  destruct m as [|[p|p|]|p]; cbn [shr_1 shr_m]; try lia.
  - reflexivity.
  - rewrite Pos2Z.inj_xI. apply Z.div_unique with 1; lia.
  - change (Z.pos p~0) with (2 * Z.pos p). apply Z.div_unique with 0; lia.
  - reflexivity.
Qed.

Lemma shr_iter_m (p : positive) (mrs : shr_record) :
  0 <= shr_m mrs ->
  shr_m (iter_pos shr_1 p mrs) = shr_m mrs / 2 ^ Zpos p.
Proof.
  intros H. rewrite iter_pos_iter.
  rewrite Pos2Nat.inj_iter.
  rewrite <- (positive_nat_Z p).
  induction (Pos.to_nat p) as [|k IH].
  - simpl. rewrite Z.div_1_r. reflexivity.
  - rewrite Nat2Z.inj_succ, Z.pow_succ_r by lia. cbn [nat_rect].
    rewrite shr_1_m.
    + rewrite IH. rewrite Z.div_div by lia. f_equal. lia.
    + rewrite IH. apply Z.div_pos; lia.
Qed.

Lemma shr_1_exact (mrs : shr_record) :
  0 <= shr_m mrs -> exact_rec mrs -> shr_m mrs mod 2 = 0 ->
  exact_rec (shr_1 mrs).
Proof.
  destruct mrs as [m r s]. unfold exact_rec. cbn [shr_m shr_r shr_s].
  intros H [-> ->] Hm.
  destruct m as [|[p|p|]|p]; cbn [shr_1 shr_m shr_r shr_s orb]; auto; try lia.
  - rewrite Pos2Z.inj_xI in Hm. exfalso.
    rewrite Z.add_comm, Z.mul_comm, Z.mod_add in Hm by lia. discriminate.
  - discriminate.
Qed.

Lemma shr_iter_exact (p : positive) (mrs : shr_record) :
  0 <= shr_m mrs -> exact_rec mrs -> shr_m mrs mod 2 ^ Zpos p = 0 ->
  exact_rec (iter_pos shr_1 p mrs).
Proof.
  intros H He. rewrite iter_pos_iter, Pos2Nat.inj_iter.
  rewrite <- (positive_nat_Z p).
  assert (G : forall k : nat, shr_m mrs mod 2 ^ Z.of_nat k = 0 ->
     exact_rec (Nat.iter k shr_1 mrs)
     /\ shr_m (Nat.iter k shr_1 mrs) = shr_m mrs / 2 ^ Z.of_nat k).
  { induction k as [|k IH]; intros Hk.
    - simpl. rewrite Z.div_1_r. auto.
    - rewrite Nat2Z.inj_succ, Z.pow_succ_r in * by lia.
      assert (Hk' : shr_m mrs mod 2 ^ Z.of_nat k = 0).
      { apply Z.mod_divide in Hk; [|lia]. apply Z.mod_divide; [lia|].
        destruct Hk as [c Hc]. exists (c * 2). lia. }
      destruct (IH Hk') as [IH1 IH2]. rewrite Nat.iter_succ. split.
      + apply shr_1_exact; auto.
        * rewrite IH2. apply Z.div_pos; lia.
        * rewrite IH2. apply Z.mod_divide in Hk; [|lia].
          destruct Hk as [c Hc]. rewrite Hc.
          replace (c * (2 * 2 ^ Z.of_nat k)) with ((c * 2) * 2 ^ Z.of_nat k) by lia.
          rewrite Z.div_mul by lia. apply Z.mod_mul. lia.
      + rewrite shr_1_m.
        * rewrite IH2, Z.div_div by lia. f_equal. lia.
        * rewrite IH2. apply Z.div_pos; lia. }
  intros Hp. apply G. exact Hp.
Qed.

Lemma digits2_size (p : positive) : digits2_pos p = Pos.size p.
Proof. induction p; simpl; congruence. Qed.

Lemma digits2_bounds (p : positive) :
  2 ^ (Zpos (digits2_pos p) - 1) <= Zpos p < 2 ^ Zpos (digits2_pos p).
Proof.
  induction p as [p IH|p IH|]; simpl digits2_pos.
  - rewrite Pos2Z.inj_succ, Pos2Z.inj_xI.
    replace (Z.succ (Zpos (digits2_pos p)) - 1) with (Z.succ (Zpos (digits2_pos p) - 1)) by lia.
    rewrite !Z.pow_succ_r by lia.
    generalize dependent (2 ^ (Z.pos (digits2_pos p) - 1)); generalize (2 ^ Z.pos (digits2_pos p)); intros; lia.
  - rewrite Pos2Z.inj_succ. change (Z.pos p~0) with (2 * Z.pos p).
    replace (Z.succ (Zpos (digits2_pos p)) - 1) with (Z.succ (Zpos (digits2_pos p) - 1)) by lia.
    rewrite !Z.pow_succ_r by lia.
    generalize dependent (2 ^ (Z.pos (digits2_pos p) - 1)); generalize (2 ^ Z.pos (digits2_pos p)); intros; lia.
  - simpl. lia.
Qed.

Lemma digits2_unique (p : positive) (d : Z) :
  2 ^ (d - 1) <= Zpos p < 2 ^ d -> Zpos (digits2_pos p) = d.
Proof.
  intros [H1 H2]. pose proof (digits2_bounds p) as [B1 B2].
  assert (0 < d).
  { destruct (Z_lt_le_dec 0 d); auto. exfalso.
    assert (2 ^ d <= 2 ^ 0) by (destruct (Z_lt_le_dec d 0); [rewrite Z.pow_neg_r by lia; simpl; lia | apply Z.pow_le_mono_r; lia]).
    simpl in *. lia. }
  destruct (Z_lt_le_dec (Zpos (digits2_pos p)) d) as [L|L].
  - exfalso. assert (2 ^ Zpos (digits2_pos p) <= 2 ^ (d - 1)) by (apply Z.pow_le_mono_r; lia). lia.
  - destruct (Z_lt_le_dec d (Zpos (digits2_pos p))) as [L'|L']; [|lia].
    exfalso. assert (2 ^ d <= 2 ^ (Zpos (digits2_pos p) - 1)) by (apply Z.pow_le_mono_r; lia). lia.
Qed.


Lemma digits2_scale (n M : positive) (j : Z) :
  0 <= j -> Zpos M = Zpos n * 2 ^ j ->
  Zpos (digits2_pos M) = Zpos (digits2_pos n) + j.
Proof.
  intros Hj HM. pose proof (digits2_bounds n) as [B1 B2].
  apply digits2_unique. rewrite HM.
  replace (Zpos (digits2_pos n) + j - 1)
    with ((Zpos (digits2_pos n) - 1) + j) by lia.
  rewrite !Z.pow_add_r by lia.
  assert (0 < 2 ^ j) by (apply Z.pow_pos_nonneg; lia). nia.
Qed.

Lemma iter_xO_Z (m d : positive) :
  Zpos (Pos.iter xO m d) = Zpos m * 2 ^ Zpos d.
Proof.
  rewrite Pos2Nat.inj_iter, <- (positive_nat_Z d).
  induction (Pos.to_nat d) as [|k IH]; cbn [nat_rect].
  - simpl. lia.
  - rewrite Nat2Z.inj_succ, Z.pow_succ_r by lia.
    rewrite (Pos2Z.inj_xO (nat_rect _ m (fun _ => xO) k)), IH. ring.
Qed.

Lemma fexp_normal (d : Z) : -1021 <= d -> fexp Num.prec Num.emax d = d - 53.
Proof. intros H. unfold fexp, emin, Num.prec, Num.emax. lia. Qed.

Lemma round_aux_shift (s : bool) (m M : positive) (e j : Z) :
  0 <= j -> Zpos (digits2_pos m) = 53 + j -> Zpos m = Zpos M * 2 ^ j ->
  -1074 <= e + j <= 971 ->
  binary_round_aux Num.prec Num.emax s (Zpos m) e loc_Exact
  = S754_finite s M (e + j).
Proof.
  intros Hj Hdm HmM He.
  assert (HdM : Zpos (digits2_pos M) = 53).
  { pose proof (digits2_scale M m j Hj HmM). lia. }
  assert (Hsecond :
    shr_fexp Num.prec Num.emax (Zpos M) (e + j) loc_Exact
    = ({| shr_m := Zpos M; shr_r := false; shr_s := false |}, e + j)).
  { unfold shr_fexp. cbn [Zdigits2 shr_record_of_loc]. rewrite HdM.
    rewrite fexp_normal by lia.
    replace (53 + (e + j) - 53 - (e + j)) with 0 by lia. reflexivity. }
  assert (Hfirst :
    shr_fexp Num.prec Num.emax (Zpos m) e loc_Exact
    = ({| shr_m := Zpos M; shr_r := false; shr_s := false |}, e + j)).
  { unfold shr_fexp. cbn [Zdigits2 shr_record_of_loc]. rewrite Hdm.
    rewrite fexp_normal by lia.
    replace (53 + j + e - 53 - e) with j by lia.
    destruct j as [|p|p]; [| |lia].
    - cbn [shr]. rewrite Z.add_0_r. f_equal. f_equal.
      rewrite Z.pow_0_r in HmM. lia.
    - cbn [shr]. f_equal.
      set (r0 := {| shr_m := Zpos m; shr_r := false; shr_s := false |}).
      assert (G1 : shr_m (iter_pos shr_1 p r0) = Zpos M).
      { rewrite shr_iter_m by (simpl; lia). simpl shr_m. rewrite HmM.
        apply Z.div_mul. apply Z.pow_nonzero; lia. }
      assert (G2 : exact_rec (iter_pos shr_1 p r0)).
      { apply shr_iter_exact; [simpl; lia|split; reflexivity|].
        simpl shr_m. rewrite HmM. apply Z.mod_mul. apply Z.pow_nonzero; lia. }
      destruct (iter_pos shr_1 p r0) as [m' r' s'].
      destruct G2 as [G2 G3]. simpl in G1, G2, G3. subst. reflexivity. }
  unfold binary_round_aux. rewrite Hfirst.
  cbn [shr_m loc_of_shr_record round_nearest_even].
  rewrite Hsecond. cbn [shr_m].
  replace (e + j <=? Num.emax - Num.prec) with true; [reflexivity|].
  symmetry. apply Z.leb_le. unfold Num.emax, Num.prec. lia.
Qed.

Lemma shl_align_spec (m : positive) (e e' : Z) :
  e' <= e ->
  exists m', shl_align m e e' = (m', e')
             /\ Zpos m' = Zpos m * 2 ^ (e - e').
Proof.
  intros H. unfold shl_align.
  destruct (e' - e) as [|p|p] eqn:E; try lia.
  - exists m. assert (e' = e) by lia. subst. rewrite Z.sub_diag. split; [reflexivity|simpl; lia].
  - exists (Pos.iter xO m p). split; [reflexivity|].
    rewrite iter_xO_Z. f_equal. f_equal. lia.
Qed.

Lemma shl_align_none (m : positive) (e e' : Z) :
  e <= e' -> shl_align m e e' = (m, e).
Proof.
  intros H. unfold shl_align. destruct (e' - e) eqn:E; try reflexivity; lia.
Qed.

Lemma binary_round_exact (s : bool) (n m : positive) (k : Z) :
  0 <= k -> Zpos (digits2_pos n) <= 53 ->
  Zpos m = Zpos n * 2 ^ k ->
  binary_round Num.prec Num.emax s m (- k) = canon s n.
Proof.
  intros Hk Hn Hm.
  pose proof (digits2_bounds n) as [Bn1 Bn2].
  set (dn := Zpos (digits2_pos n)) in *.
  assert (Hdn : 1 <= dn) by (unfold dn; lia).
  assert (Hdm : Zpos (digits2_pos m) = dn + k)
    by (apply digits2_scale; assumption).
  (* the canonical significand *)
  destruct (shl_align_spec n 0 (dn - 53)) as [M [HM1 HM2]]; [lia|].
  unfold canon. fold dn. rewrite HM1.
  replace (0 - (dn - 53)) with (53 - dn) in HM2 by lia.
  unfold binary_round. rewrite Hdm.
  replace (dn + k + - k) with dn by lia.
  rewrite fexp_normal by lia.
  destruct (Z_le_gt_dec (dn - 53) (- k)) as [L|G].
  - destruct (shl_align_spec m (- k) (dn - 53)) as [m' [Hm1 Hm2]]; [lia|].
    rewrite Hm1.
    assert (m' = M).
    { apply Pos2Z.inj. rewrite Hm2, HM2, Hm, <- Z.mul_assoc, <- Z.pow_add_r by lia.
      f_equal. f_equal. lia. }
    subst m'.
    replace (dn - 53) with (dn - 53 + 0) at 2 by lia.
    apply round_aux_shift; try lia.
    rewrite (digits2_scale n M (53 - dn)) by (lia || assumption).
    fold dn. lia.
  - rewrite shl_align_none by lia.
    replace (dn - 53) with (- k + (dn - 53 + k)) by lia.
    apply round_aux_shift; try lia.
    rewrite HM2, Hm.
    rewrite <- Z.mul_assoc, <- Z.pow_add_r by lia.
    f_equal. f_equal. lia.
Qed.


Lemma digits2_small (p : positive) :
  Zpos p < 2 ^ 53 -> Zpos (digits2_pos p) <= 53.
Proof.
  intros H. pose proof (digits2_bounds p) as [B1 B2].
  destruct (Z_le_gt_dec (Zpos (digits2_pos p)) 53) as [L|G]; [exact L|].
  exfalso.
  assert (2 ^ 53 <= 2 ^ (Zpos (digits2_pos p) - 1))
    by (apply Z.pow_le_mono_r; lia).
  lia.
Qed.

Lemma of_Z_safe (z : Z) : Z.abs z < 2 ^ 53 -> Num.of_Z z = int z.
Proof.
  intros H. destruct z as [|p|p]; [reflexivity| |];
    unfold Num.of_Z; cbn [binary_normalize int];
    change 0 with (- 0);
    apply binary_round_exact; try lia;
    apply digits2_small; exact H.
Qed.

Lemma canon_parts (s : bool) (n : positive) :
  Zpos (digits2_pos n) <= 53 ->
  exists M, canon s n = S754_finite s M (Zpos (digits2_pos n) - 53)
            /\ Zpos M = Zpos n * 2 ^ (53 - Zpos (digits2_pos n)).
Proof.
  intros H. unfold canon.
  destruct (shl_align_spec n 0 (Zpos (digits2_pos n) - 53)) as [M [H1 H2]];
    [lia|].
  exists M. rewrite H1. split; [reflexivity|].
  rewrite H2. f_equal. f_equal. lia.
Qed.

Lemma canon_compare (p q : positive) :
  Zpos p < 2 ^ 53 -> Zpos q < 2 ^ 53 ->
  SFcompare (canon false p) (canon false q) = Some (Pos.compare p q).
Proof.
  intros Hp Hq.
  destruct (canon_parts false p (digits2_small p Hp)) as [P [-> HP]].
  destruct (canon_parts false q (digits2_small q Hq)) as [Q [-> HQ]].
  pose proof (digits2_bounds p) as [Bp1 Bp2].
  pose proof (digits2_bounds q) as [Bq1 Bq2].
  pose proof (digits2_small p Hp) as Dp.
  pose proof (digits2_small q Hq) as Dq.
  set (dp := Zpos (digits2_pos p)) in *.
  set (dq := Zpos (digits2_pos q)) in *.
  cbn [SFcompare]. f_equal.
  destruct (Z.compare_spec (dp - 53) (dq - 53)) as [E|L|G].
  - assert (dp = dq) by lia.
    change (Pos.compare_cont Eq P Q) with (Zpos P ?= Zpos Q).
    rewrite HP, HQ, H.
    rewrite <- Zmult_compare_compat_r
      by (apply Z.lt_gt, Z.pow_pos_nonneg; lia).
    reflexivity.
  - symmetry. apply Pos.compare_lt_iff.
    assert (2 ^ dp <= 2 ^ (dq - 1)) by (apply Z.pow_le_mono_r; lia). lia.
  - symmetry. apply Pos.compare_gt_iff.
    assert (2 ^ dq <= 2 ^ (dp - 1)) by (apply Z.pow_le_mono_r; lia). lia.
Qed.

Lemma SFcompare_opp (m1 m2 : positive) (e1 e2 : Z) :
  SFcompare (S754_finite true m1 e1) (S754_finite true m2 e2)
  = SFcompare (S754_finite false m2 e2) (S754_finite false m1 e1).
Proof.
  cbn [SFcompare]. f_equal.
  rewrite (Z.compare_antisym e1 e2).
  destruct (e1 ?= e2); cbn [CompOpp]; try reflexivity.
  change (Pos.compare_cont Eq m1 m2) with (m1 ?= m2)%positive.
  change (Pos.compare_cont Eq m2 m1) with (m2 ?= m1)%positive.
  rewrite (Pos.compare_antisym m1 m2). reflexivity.
Qed.

Lemma int_compare (a b : Z) :
  Z.abs a < 2 ^ 53 -> Z.abs b < 2 ^ 53 ->
  SFcompare (int a) (int b) = Some (a ?= b).
Proof.
  intros Ha Hb.
  destruct a as [|p|p], b as [|q|q]; cbn [int]; try reflexivity.
  - destruct (canon_parts false q (digits2_small q Hb)) as [Q [-> _]]. reflexivity.
  - destruct (canon_parts true q (digits2_small q Hb)) as [Q [-> _]]. reflexivity.
  - destruct (canon_parts false p (digits2_small p Ha)) as [P [-> _]]. reflexivity.
  - apply canon_compare; assumption.
  - destruct (canon_parts false p (digits2_small p Ha)) as [P [-> _]].
    destruct (canon_parts true q (digits2_small q Hb)) as [Q [-> _]]. reflexivity.
  - destruct (canon_parts true p (digits2_small p Ha)) as [P [-> _]]. reflexivity.
  - destruct (canon_parts true p (digits2_small p Ha)) as [P [-> _]].
    destruct (canon_parts false q (digits2_small q Hb)) as [Q [-> _]]. reflexivity.
  - destruct (canon_parts true p (digits2_small p Ha)) as [P [HP _]].
    destruct (canon_parts true q (digits2_small q Hb)) as [Q [HQ _]].
    destruct (canon_parts false p (digits2_small p Ha)) as [P' [HP' _]].
    destruct (canon_parts false q (digits2_small q Hb)) as [Q' [HQ' _]].
    pose proof (canon_compare q p Hb Ha) as C.
    rewrite HP' , HQ' in C.
    rewrite HP, HQ.
    assert (P = P') by (unfold canon in *; destruct (shl_align p 0 _); congruence).
    assert (Q = Q') by (unfold canon in *; destruct (shl_align q 0 _); congruence).
    subst. rewrite SFcompare_opp. rewrite C.
    f_equal. cbn [Z.compare]. rewrite Pos.compare_antisym. reflexivity.
Qed.

Lemma int_ltb (a b : Z) :
  Z.abs a < 2 ^ 53 -> Z.abs b < 2 ^ 53 ->
  Num.ltb (int a) (int b) = (a <? b).
Proof.
  intros Ha Hb. unfold Num.ltb, SFltb. rewrite int_compare by assumption.
  unfold Z.ltb. destruct (a ?= b); reflexivity.
Qed.

Lemma int_abs (a : Z) : Num.abs (int a) = int (Z.abs a).
Proof.
  destruct a as [|p|p]; cbn [int Z.abs]; try reflexivity;
    unfold canon; destruct (shl_align p 0 _); reflexivity.
Qed.

Lemma int_neg (a : Z) : a <> 0 -> Num.neg (int a) = int (- a).
Proof.
  destruct a as [|p|p]; cbn [int Z.opp]; try congruence; intros _;
    unfold canon; destruct (shl_align p 0 _); reflexivity.
Qed.

Lemma aligned_value (n M : positive) (e ez : Z) :
  Zpos M = Zpos n * 2 ^ (- e) -> ez <= e -> e <= 0 ->
  Zpos (fst (shl_align M e ez)) = Zpos n * 2 ^ (- ez).
Proof.
  intros HM Hz He.
  destruct (shl_align_spec M e ez Hz) as [M' [-> H2]]. cbn [fst].
  rewrite H2, HM, <- Z.mul_assoc, <- Z.pow_add_r by lia.
  f_equal. f_equal. lia.
Qed.

Lemma normalize_exact (z : Z) (k : Z) (v : Z) :
  0 <= k -> z = v * 2 ^ k -> Z.abs v < 2 ^ 53 ->
  binary_normalize Num.prec Num.emax z (- k) false = int v.
Proof.
  intros Hk Hz Hv.
  assert (P : 0 < 2 ^ k) by (apply Z.pow_pos_nonneg; lia).
  destruct v as [|p|p].
  - subst z. reflexivity.
  - destruct z as [|m|m]; try (exfalso; nia).
    cbn [binary_normalize int].
    apply binary_round_exact; try lia. apply digits2_small; exact Hv.
  - destruct z as [|m|m]; try (exfalso; nia).
    cbn [binary_normalize int].
    apply binary_round_exact; try lia. apply digits2_small; exact Hv.
Qed.

Lemma int_finite (z : Z) :
  z <> 0 -> Z.abs z < 2 ^ 53 ->
  exists M e, int z = S754_finite (z <? 0) M e
              /\ Zpos M = Z.abs z * 2 ^ (- e) /\ -52 <= e <= 0.
Proof.
  intros Hz Hs. destruct z as [|p|p]; [congruence| |]; cbn [int];
    pose proof (digits2_small p Hs) as D.
  - destruct (canon_parts false p D) as [M [-> HM]].
    exists M, (Zpos (digits2_pos p) - 53). split; [reflexivity|].
    split; [|lia]. rewrite HM. cbn [Z.abs]. f_equal. f_equal. lia.
  - destruct (canon_parts true p D) as [M [-> HM]].
    exists M, (Zpos (digits2_pos p) - 53). split; [reflexivity|].
    split; [|lia]. rewrite HM. cbn [Z.abs]. f_equal. f_equal. lia.
Qed.

Lemma int_add (a b : Z) :
  Z.abs a < 2 ^ 53 -> Z.abs b < 2 ^ 53 -> Z.abs (a + b) < 2 ^ 53 ->
  Num.add (int a) (int b) = int (a + b).
Proof.
  intros Ha Hb Hab.
  destruct (Z.eq_dec a 0) as [->|Na].
  { cbn [int Z.add]. destruct b as [|q|q]; cbn [int]; try reflexivity;
      unfold canon; destruct (shl_align q 0 _); reflexivity. }
  destruct (Z.eq_dec b 0) as [->|Nb].
  { rewrite Z.add_0_r. destruct a as [|p|p]; cbn [int]; try reflexivity;
      unfold canon; destruct (shl_align p 0 _); reflexivity. }
  destruct (int_finite a Na Ha) as [A [ea [-> [HA Ea]]]].
  destruct (int_finite b Nb Hb) as [B [eb [-> [HB Eb]]]].
  unfold Num.add. cbn [SFadd].
  set (ez := Z.min ea eb).
  replace ez with (- (- ez)) at 3 by lia.
  apply normalize_exact; [lia| |exact Hab].
  assert (VA : Zpos (fst (shl_align A ea ez)) = Z.abs a * 2 ^ (- ez)).
  { destruct a as [|p|p]; try congruence;
      apply (aligned_value p A ea ez); cbn [Z.abs] in HA; auto; lia. }
  assert (VB : Zpos (fst (shl_align B eb ez)) = Z.abs b * 2 ^ (- ez)).
  { destruct b as [|q|q]; try congruence;
      apply (aligned_value q B eb ez); cbn [Z.abs] in HB; auto; lia. }
  rewrite VA, VB.
  unfold cond_Zopp.
  destruct (Z.ltb_spec a 0), (Z.ltb_spec b 0); cbv iota;
    rewrite ?(Z.abs_eq a), ?(Z.abs_neq a), ?(Z.abs_eq b), ?(Z.abs_neq b)
      by lia; ring.
Qed.

(** Beyond [2^53] the Number of an integer is still at least [2^53]. *)
Lemma round_big (s : bool) (p : positive) :
  53 < Zpos (digits2_pos p) ->
  binary_round Num.prec Num.emax s p 0 = S754_infinity s
  \/ exists m e, binary_round Num.prec Num.emax s p 0 = S754_finite s m e
                 /\ 1 <= e.
Proof.
  intros Hd. pose proof (digits2_bounds p) as [B1 B2].
  set (d := Zpos (digits2_pos p)) in *.
  unfold binary_round. fold d. rewrite Z.add_0_r.
  rewrite fexp_normal by lia.
  rewrite shl_align_none by lia.
  unfold binary_round_aux.
  (* the first shift *)
  assert (F : exists mrs',
     shr_fexp Num.prec Num.emax (Zpos p) 0 loc_Exact = (mrs', d - 53)
     /\ 2 ^ 52 <= shr_m mrs').
  { unfold shr_fexp. cbn [Zdigits2 shr_record_of_loc]. fold d.
    rewrite Z.add_0_r, fexp_normal, Z.sub_0_r by lia.
    destruct (d - 53) as [|j|j] eqn:Ej; try lia.
    cbn [shr]. eexists. split; [reflexivity|].
    rewrite shr_iter_m by (cbn; lia). cbn [shr_m].
    apply Z.div_le_lower_bound; [apply Z.pow_pos_nonneg; lia|].
    rewrite <- Z.pow_add_r by lia.
    replace (Zpos j + 52) with (d - 1) by lia. exact B1. }
  destruct F as [mrs' [-> Hm']].
  set (m2 := round_nearest_even (shr_m mrs') (loc_of_shr_record mrs')).
  assert (Hm2 : 2 ^ 52 <= m2).
  { unfold m2, round_nearest_even.
    destruct (loc_of_shr_record mrs') as [|[]]; try lia.
    destruct (Z.even (shr_m mrs')); lia. }
  assert (S : exists mrs'' e'',
     shr_fexp Num.prec Num.emax m2 (d - 53) loc_Exact = (mrs'', e'')
     /\ 0 < shr_m mrs'' /\ d - 53 <= e'').
  { destruct m2 as [|q|q] eqn:Em2; try lia.
    unfold shr_fexp. cbn [Zdigits2 shr_record_of_loc].
    pose proof (digits2_bounds q) as [C1 C2].
    set (dq := Zpos (digits2_pos q)) in *.
    assert (53 <= dq).
    { destruct (Z_le_gt_dec 53 dq); [assumption|exfalso].
      assert (2 ^ dq <= 2 ^ 52) by (apply Z.pow_le_mono_r; lia). lia. }
    rewrite fexp_normal by lia.
    replace (dq + (d - 53) - 53 - (d - 53)) with (dq - 53) by lia.
    destruct (dq - 53) as [|j|j] eqn:Ej; try lia.
    - cbn [shr]. do 2 eexists. split; [reflexivity|]. cbn [shr_m]. lia.
    - cbn [shr]. do 2 eexists. split; [reflexivity|].
      rewrite shr_iter_m by (cbn; lia). cbn [shr_m]. split; [|lia].
      apply Z.lt_le_trans with (2 ^ 52); [reflexivity|].
      apply Z.div_le_lower_bound; [apply Z.pow_pos_nonneg; lia|].
      rewrite <- Z.pow_add_r by lia.
      replace (Zpos j + 52) with (dq - 1) by lia. exact C1. }
  destruct S as [mrs'' [e'' [-> [Hpos He]]]].
  destruct (shr_m mrs'') as [|m|m]; try lia.
  destruct (Z.leb _ _); [right|left; reflexivity].
  exists m, e''. split; [reflexivity|lia].
Qed.

(* ================================================================== *)
(** * Decimal strings and [parseInt] *)
(* ================================================================== *)


Lemma digits_prefix_acc (d : Decimal.uint) (acc : positive) :
  digits_prefix 10 (Some (Zpos acc)) (Str.uint_units d)
  = Some (Zpos (Pos.of_uint_acc d acc)).
Proof.
  revert acc. induction d; intros acc; cbn [Str.uint_units Pos.of_uint_acc];
    [reflexivity|..];
    cbn [digits_prefix]; 
    match goal with |- context [digit_value 10 ?c] =>
      let v := eval vm_compute in (digit_value 10 c) in
      change (digit_value 10 c) with v end;
    cbv iota; rewrite <- IHd; f_equal; f_equal; lia.
Qed.

Lemma digits_prefix_zero (d : Decimal.uint) :
  digits_prefix 10 (Some 0) (Str.uint_units d)
  = Some (Z.of_N (Pos.of_uint d)).
Proof.
  induction d; cbn [Str.uint_units Pos.of_uint]; [reflexivity|..];
    cbn [digits_prefix];
    match goal with |- context [digit_value 10 ?c] =>
      let v := eval vm_compute in (digit_value 10 c) in
      change (digit_value 10 c) with v end;
    cbv iota; cbn [Z.mul Z.add]; [exact IHd|..];
    apply digits_prefix_acc.
Qed.

Lemma digits_prefix_uint (d : Decimal.uint) :
  d <> Decimal.Nil ->
  digits_prefix 10 None (Str.uint_units d) = Some (Z.of_N (Pos.of_uint d)).
Proof.
  destruct d; intros H; [congruence|..];
    cbn [Str.uint_units Pos.of_uint digits_prefix];
    match goal with |- context [digit_value 10 ?c] =>
      let v := eval vm_compute in (digit_value 10 c) in
      change (digit_value 10 c) with v end;
    cbv iota; [apply digits_prefix_zero|..]; apply digits_prefix_acc.
Qed.

Lemma to_uint_nonnil (n : N) : N.to_uint n <> Decimal.Nil.
Proof.
  destruct n; [discriminate|]. apply DecimalPos.Unsigned.to_uint_nonnil.
Qed.

Lemma digits_prefix_dec (n : Z) :
  0 <= n -> digits_prefix 10 None (Str.dec n) = Some n.
Proof.
  intros H. unfold Str.dec.
  rewrite digits_prefix_uint by apply to_uint_nonnil.
  change (Pos.of_uint (N.to_uint (Z.to_N n))) with (N.of_uint (N.to_uint (Z.to_N n))).
  rewrite DecimalN.Unsigned.of_to. f_equal. lia.
Qed.

Lemma uint_units_digits (d : Decimal.uint) :
  forallb is_digit (Str.uint_units d) = true.
Proof. induction d; cbn; auto. Qed.

Lemma dec_digits (n : Z) : forallb is_digit (Str.dec n) = true.
Proof. apply uint_units_digits. Qed.

Lemma dec_nonempty (n : Z) : Str.dec n <> [].
Proof.
  unfold Str.dec. pose proof (to_uint_nonnil (Z.to_N n)) as H.
  destruct (N.to_uint (Z.to_N n)); [congruence|..]; discriminate.
Qed.

Lemma parseInt_digits (c : N) (r : jsstring) :
  forallb is_digit (c :: r) = true ->
  parseInt (c :: r) =
    match digits_prefix 10 None (c :: r) with
    | None => Num.NaN
    | Some mathInt =>
        if mathInt =? 0 then S754_zero false else Num.of_Z mathInt
    end.
Proof.
  cbn [forallb]. intros H. apply andb_prop in H as [Hc Hr].
  unfold is_digit in Hc. apply andb_prop in Hc as [C1 C2].
  apply N.leb_le in C1. apply N.leb_le in C2.
  unfold parseInt. cbn [Str.trimStart].
  assert (S : Str.is_space c = false).
  { unfold Str.is_space. repeat apply orb_false_intro;
      first [ apply N.eqb_neq; lia
            | apply andb_false_iff;
              first [ left; apply N.leb_gt; lia
                    | right; apply N.leb_gt; lia ] ]. }
  rewrite S.
  assert (E45 : (c =? 45)%N = false) by (apply N.eqb_neq; lia).
  assert (E43 : (c =? 43)%N = false) by (apply N.eqb_neq; lia).
  rewrite E45, E43.
  destruct r as [|c1 r'].
  - reflexivity.
  - assert (X : ((c1 =? 120) || (c1 =? 88))%N = false).
    { cbn [forallb] in Hr. apply andb_prop in Hr as [Hc1 _].
      unfold is_digit in Hc1. apply andb_prop in Hc1 as [D1 D2].
      apply N.leb_le in D1. apply N.leb_le in D2.
      apply orb_false_iff. split; apply N.eqb_neq; lia. }
    rewrite X, andb_false_r. reflexivity.
Qed.

Lemma parseInt_dec (n : Z) : 0 <= n -> parseInt (Str.dec n) = Num.of_Z n.
Proof.
  intros H. pose proof (dec_digits n) as D. pose proof (dec_nonempty n) as E.
  pose proof (digits_prefix_dec n H) as P.
  destruct (Str.dec n) as [|c r]; [congruence|].
  rewrite parseInt_digits by exact D. rewrite P.
  destruct (Z.eqb_spec n 0) as [->|]; reflexivity.
Qed.

(* ================================================================== *)
(** * Division and remainder of binary64 integers *)
(* ================================================================== *)

Lemma digits2_range (p : positive) (d : Z) :
  0 < d -> 2 ^ (d - 1) <= Zpos p < 2 ^ d -> Zpos (digits2_pos p) = d.
Proof. intros _ H. apply digits2_unique, H. Qed.

(** Rounding a quotient of 53 or 54 bits: the result is finite and
    within two units of the quotient. *)
Lemma round_aux_quotient (s : bool) (q0 e : Z) (l : location) :
  2 ^ 52 <= q0 < 2 ^ 54 -> -1000 <= e <= 900 ->
  exists M E,
    binary_round_aux Num.prec Num.emax s q0 e l = S754_finite s M E
    /\ e <= E <= e + 2
    /\ 2 ^ 52 <= Zpos M < 2 ^ 53
    /\ q0 - 2 <= Zpos M * 2 ^ (E - e) <= q0 + 2.
Proof.
  intros Hq He.
  destruct q0 as [|p|p]; try lia.
  pose proof (digits2_bounds p) as [B1 B2].
  set (d := Zpos (digits2_pos p)) in *.
  assert (Hd : d = 53 \/ d = 54).
  { destruct (Z_le_gt_dec d 52) as [L|G].
    - exfalso. assert (2 ^ d <= 2 ^ 52) by (apply Z.pow_le_mono_r; lia). lia.
    - destruct (Z_le_gt_dec 55 d) as [L'|G'];
        [|lia].
      exfalso. assert (2 ^ 54 <= 2 ^ (d - 1)) by (apply Z.pow_le_mono_r; lia).
      lia. }
  unfold binary_round_aux.
  (* the first shift *)
  assert (F : exists mrs' j1,
     shr_fexp Num.prec Num.emax (Zpos p) e l = (mrs', e + j1)
     /\ (j1 = 0 \/ j1 = 1)
     /\ shr_m mrs' = Zpos p / 2 ^ j1
     /\ 2 ^ 52 <= shr_m mrs' < 2 ^ 53).
  { unfold shr_fexp. cbn [Zdigits2]. fold d.
    rewrite fexp_normal by lia.
    destruct Hd as [Hd|Hd]; rewrite Hd in *.
    - replace (53 + e - 53 - e) with 0 by lia. cbn [shr].
      exists (shr_record_of_loc (Zpos p) l), 0.
      rewrite Z.add_0_r, Z.pow_0_r, Z.div_1_r.
      repeat split; auto; destruct l as [|[]]; cbn [shr_record_of_loc shr_m];
        change (53 - 1) with 52 in B1; lia.
    - replace (54 + e - 53 - e) with 1 by lia. cbn [shr iter_pos].
      exists (shr_1 (shr_record_of_loc (Zpos p) l)), 1.
      assert (M1 : shr_m (shr_1 (shr_record_of_loc (Zpos p) l)) = Zpos p / 2).
      { rewrite shr_1_m; destruct l as [|[]]; cbn [shr_record_of_loc shr_m];
          (reflexivity || lia). }
      rewrite M1. change (2 ^ 1) with 2.
      repeat split; auto.
      + apply Z.div_le_lower_bound; [lia|].
        change (54 - 1) with 53 in B1. change (2 ^ 53) with (2 * 2 ^ 52) in B1.
        lia.
      + apply Z.div_lt_upper_bound; [lia|].
        change (2 ^ 54) with (2 * 2 ^ 53) in B2. lia. }
  destruct F as [mrs' [j1 [-> [Hj1 [Hm1 Rm1]]]]].
  set (m2 := round_nearest_even (shr_m mrs') (loc_of_shr_record mrs')).
  assert (Hm2 : m2 = shr_m mrs' \/ m2 = shr_m mrs' + 1).
  { unfold m2, round_nearest_even.
    destruct (loc_of_shr_record mrs') as [|[]]; auto.
    destruct (Z.even (shr_m mrs')); auto. }
  assert (S : exists M j2,
     shr_fexp Num.prec Num.emax m2 (e + j1) loc_Exact
     = ({| shr_m := Zpos M; shr_r := false; shr_s := false |}, e + j1 + j2)
     /\ (j2 = 0 \/ j2 = 1)
     /\ m2 = Zpos M * 2 ^ j2
     /\ 2 ^ 52 <= Zpos M < 2 ^ 53).
  { destruct (Z.eq_dec m2 (2 ^ 53)) as [E53|N53].
    - rewrite E53. exists (4503599627370496)%positive, 1.
      change (2 ^ 53) with 9007199254740992.
      change (2 ^ 52) with 4503599627370496.
      change (2 ^ 1) with 2.
      split; [|repeat split; auto; lia].
      unfold shr_fexp. cbn [Zdigits2 shr_record_of_loc].
      change (Zpos (digits2_pos 9007199254740992)) with 54.
      rewrite fexp_normal by lia.
      replace (54 + (e + j1) - 53 - (e + j1)) with 1 by lia.
      reflexivity.
    - assert (R2 : 2 ^ 52 <= m2 < 2 ^ 53) by lia.
      destruct m2 as [|q|q] eqn:Em2; try lia.
      exists q, 0. unfold shr_fexp. cbn [Zdigits2 shr_record_of_loc].
      rewrite (digits2_unique q 53) by (change (53 - 1) with 52; lia).
      rewrite fexp_normal by lia.
      replace (53 + (e + j1) - 53 - (e + j1)) with 0 by lia.
      cbn [shr]. rewrite Z.add_0_r, Z.pow_0_r, Z.mul_1_r.
      repeat split; auto; lia. }
  destruct S as [M [j2 [-> [Hj2 [Em2 RM]]]]].
  cbn [shr_m].
  exists M, (e + j1 + j2).
  replace (e + j1 + j2 <=? Num.emax - Num.prec) with true
    by (symmetry; apply Z.leb_le; unfold Num.emax, Num.prec; lia).
  split; [reflexivity|].
  split; [lia|]. split; [exact RM|].
  replace (e + j1 + j2 - e) with (j2 + j1) by lia.
  rewrite Z.pow_add_r by lia. rewrite Z.mul_assoc, <- Em2.
  (* m2 * 2^j1 against p *)
  assert (D : shr_m mrs' * 2 ^ j1 <= Zpos p < (shr_m mrs' + 1) * 2 ^ j1).
  { rewrite Hm1. destruct Hj1 as [-> | ->].
    - rewrite Z.pow_0_r, Z.div_1_r. lia.
    - change (2 ^ 1) with 2.
      pose proof (Z.div_mod (Zpos p) 2 ltac:(lia)) as DM.
      pose proof (Z.mod_pos_bound (Zpos p) 2 ltac:(lia)). lia. }
  destruct Hj1 as [-> | ->]; [rewrite Z.pow_0_r in *|change (2 ^ 1) with 2 in *];
    destruct Hm2 as [-> | ->]; lia.
Qed.

(** Number of binary digits of a positive integer. *)

Lemma div_core (A B : positive) (ea eb : Z) :
  Zpos (digits2_pos A) = 53 -> Zpos (digits2_pos B) = 53 ->
  -60 <= ea - eb <= 60 ->
  SFdiv_core_binary Num.prec Num.emax (Zpos A) ea (Zpos B) eb
  = ((Zpos A * 2 ^ 53) / Zpos B, ea - eb - 53,
     new_location (Zpos B) ((Zpos A * 2 ^ 53) mod Zpos B)).
Proof.
  intros HA HB He. unfold SFdiv_core_binary. cbn [Zdigits2].
  rewrite HA, HB.
  replace (53 + ea - (53 + eb)) with (ea - eb) by lia.
  rewrite fexp_normal by lia.
  replace (Z.min (ea - eb - 53) (ea - eb)) with (ea - eb - 53) by lia.
  replace (ea - eb - (ea - eb - 53)) with 53 by lia.
  cbv iota. rewrite Z.shiftl_mul_pow2 by lia.
  unfold Z.div, Z.modulo.
  destruct (Z.div_eucl (Zpos A * 2 ^ 53) (Zpos B)) as [q r]. reflexivity.
Qed.

Lemma int_pos_parts (a : Z) :
  0 < a < 2 ^ 53 ->
  exists A, int a = S754_finite false A (bits a - 53)
            /\ Zpos A = a * 2 ^ (53 - bits a)
            /\ Zpos (digits2_pos A) = 53
            /\ 1 <= bits a <= 53.
Proof.
  intros H. destruct a as [|p|p]; try lia. cbn [int]. unfold bits.
  cbn [Z.to_pos].
  pose proof (digits2_small p ltac:(lia)) as D.
  destruct (canon_parts false p D) as [A [-> HA]].
  exists A. split; [reflexivity|]. split; [exact HA|]. split; [|lia].
  rewrite (digits2_scale p A (53 - Zpos (digits2_pos p))) by (lia || exact HA).
  lia.
Qed.

(** The quotient of two safe integers: finite, and within two units
    in the last place of the exact quotient. *)
Lemma div_int_bound (a b : Z) :
  0 < a < 2 ^ 53 -> 0 < b < 2 ^ 53 ->
  let K := 53 + bits b - bits a in
  exists M E,
    Num.div (int a) (int b) = S754_finite false M E
    /\ - K <= E <= - K + 2
    /\ 2 ^ 52 <= Zpos M < 2 ^ 53
    /\ (a * 2 ^ K) / b - 2 <= Zpos M * 2 ^ (E + K) <= (a * 2 ^ K) / b + 2.
Proof.
  intros Ha Hb K.
  destruct (int_pos_parts a Ha) as [A [-> [VA [DA RA]]]].
  destruct (int_pos_parts b Hb) as [B [-> [VB [DB RB]]]].
  unfold Num.div. cbn [SFdiv].
  rewrite div_core by (auto; lia).
  cbn [xorb].
  assert (PA : 2 ^ 52 <= Zpos A < 2 ^ 53).
  { pose proof (digits2_bounds A) as Bd. rewrite DA in Bd.
    change (53 - 1) with 52 in Bd. exact Bd. }
  assert (PB : 2 ^ 52 <= Zpos B < 2 ^ 53).
  { pose proof (digits2_bounds B) as Bd. rewrite DB in Bd.
    change (53 - 1) with 52 in Bd. exact Bd. }
  set (q0 := Zpos A * 2 ^ 53 / Zpos B).
  assert (Hq0 : 2 ^ 52 <= q0 < 2 ^ 54).
  { unfold q0. split.
    - apply Z.div_le_lower_bound; [lia|].
      change (2 ^ 52) with 4503599627370496 in *.
      change (2 ^ 53) with 9007199254740992 in *. nia.
    - apply Z.div_lt_upper_bound; [lia|].
      change (2 ^ 52) with 4503599627370496 in *.
      change (2 ^ 53) with 9007199254740992 in *.
      change (2 ^ 54) with 18014398509481984. nia. }
  destruct (round_aux_quotient false q0 (bits a - 53 - (bits b - 53) - 53)
              (new_location (Zpos B) (Zpos A * 2 ^ 53 mod Zpos B)) Hq0)
    as [M [E [R [HE [RM HN]]]]]; [lia|].
  exists M, E. split; [exact R|].
  replace (bits a - 53 - (bits b - 53) - 53) with (- K) in * by (unfold K; lia).
  split; [lia|]. split; [exact RM|].
  replace (E - - K) with (E + K) in HN by lia.
  assert (Q : q0 = a * 2 ^ K / b).
  { unfold q0. rewrite VA, VB.
    assert (PK : 0 <= K) by (unfold K; lia).
    replace (a * 2 ^ (53 - bits a) * 2 ^ 53)
      with ((a * 2 ^ K) * 2 ^ (53 - bits b)).
    - apply Z.div_mul_cancel_r; [lia|].
      apply Z.pow_nonzero; lia.
    - rewrite <- !Z.mul_assoc, <- !Z.pow_add_r by lia.
      f_equal. f_equal. unfold K. lia. }
  rewrite <- Q. exact HN.
Qed.

Lemma new_location_zero (n : Z) : new_location n 0 = loc_Exact.
Proof.
  unfold new_location, new_location_even, new_location_odd.
  destruct (Z.even n); reflexivity.
Qed.

Lemma bits_spec (z : Z) : 0 < z -> 2 ^ (bits z - 1) <= z < 2 ^ bits z.
Proof.
  intros H. destruct z as [|p|p]; try lia. apply digits2_bounds.
Qed.

Lemma bits_mul_le (b c : Z) : 0 < b -> 0 < c -> bits (b * c) <= bits b + bits c.
Proof.
  intros Hb Hc.
  pose proof (bits_spec b Hb) as [B1 B2].
  pose proof (bits_spec c Hc) as [C1 C2].
  pose proof (bits_spec (b * c) ltac:(nia)) as [P1 P2].
  destruct (Z_le_gt_dec (bits (b * c)) (bits b + bits c)) as [L|G]; [exact L|].
  exfalso.
  assert (2 ^ (bits b + bits c) <= 2 ^ (bits (b * c) - 1))
    by (apply Z.pow_le_mono_r; lia).
  assert (0 < bits b) by (unfold bits; lia).
  assert (0 < bits c) by (unfold bits; lia).
  rewrite Z.pow_add_r in H by lia. nia.
Qed.

(** An exact quotient of safe integers is computed exactly. *)
Lemma div_int_exact (b c : Z) :
  0 < b -> 0 < c -> b * c < 2 ^ 53 ->
  Num.div (int (b * c)) (int b) = int c.
Proof.
  intros Hb Hc Hbc.
  assert (Ha : 0 < b * c < 2 ^ 53) by nia.
  assert (Hb' : 0 < b < 2 ^ 53) by nia.
  assert (Hc' : 0 < c < 2 ^ 53) by nia.
  destruct (int_pos_parts (b * c) Ha) as [A [-> [VA [DA RA]]]].
  destruct (int_pos_parts b Hb') as [B [-> [VB [DB RB]]]].
  destruct (int_pos_parts c Hc') as [C [-> [VC [DC RC]]]].
  pose proof (bits_mul_le b c Hb Hc) as BM.
  set (da := bits (b * c)) in *. set (db := bits b) in *.
  set (dc := bits c) in *.
  set (K := 53 + db - da).
  assert (PK : 0 <= K) by (unfold K; lia).
  unfold Num.div. cbn [SFdiv]. rewrite div_core by (auto; lia).
  cbn [xorb].
  assert (Em : Zpos A * 2 ^ 53 = (c * 2 ^ K) * Zpos B).
  { rewrite VA, VB.
    replace (b * c * 2 ^ (53 - da) * 2 ^ 53)
      with (c * b * (2 ^ (53 - da) * 2 ^ 53)) by ring.
    replace (c * 2 ^ K * (b * 2 ^ (53 - db)))
      with (c * b * (2 ^ K * 2 ^ (53 - db))) by ring.
    rewrite <- !Z.pow_add_r by lia. f_equal. f_equal. unfold K. lia. }
  rewrite Em, Z.div_mul, Z.mod_mul, new_location_zero by lia.
  assert (P2K : 0 < 2 ^ K) by (apply Z.pow_pos_nonneg; lia).
  destruct (c * 2 ^ K) as [|m|m] eqn:Ecm; try nia.
  replace (da - 53 - (db - 53) - 53) with (- K) by (unfold K; lia).
  set (j := dc + db - da).
  replace (dc - 53) with (- K + j) by (unfold K, j; lia).
  apply round_aux_shift.
  - unfold j. lia.
  - rewrite (digits2_scale (Z.to_pos c) m K); [|lia|].
    + change (Zpos (digits2_pos (Z.to_pos c))) with dc. unfold K, j. lia.
    + rewrite <- Ecm. rewrite Z2Pos.id by lia. reflexivity.
  - rewrite VC, <- Ecm, <- Z.mul_assoc, <- Z.pow_add_r by (unfold j; lia).
    f_equal. f_equal. unfold K, j. lia.
  - unfold K, j. lia.
Qed.

(** In the normal range a non-zero integer is not rounded to zero. *)
Lemma round_nonzero (s : bool) (m : positive) (e : Z) :
  -1021 <= Zpos (digits2_pos m) + e ->
  binary_round Num.prec Num.emax s m e = S754_infinity s
  \/ exists M E, binary_round Num.prec Num.emax s m e = S754_finite s M E.
Proof.
  intros Hn. pose proof (digits2_bounds m) as [B1 B2].
  set (d := Zpos (digits2_pos m)) in *.
  unfold binary_round. fold d. rewrite fexp_normal by lia.
  assert (G : forall (mz : positive) (ez : Z),
     -1021 <= Zpos (digits2_pos mz) + ez ->
     53 <= Zpos (digits2_pos mz) ->
     binary_round_aux Num.prec Num.emax s (Zpos mz) ez loc_Exact
       = S754_infinity s
     \/ exists M E,
          binary_round_aux Num.prec Num.emax s (Zpos mz) ez loc_Exact
          = S754_finite s M E).
  { intros mz ez Hz Hd.
    pose proof (digits2_bounds mz) as [Z1 Z2].
    set (dz := Zpos (digits2_pos mz)) in *.
    unfold binary_round_aux.
    assert (F : exists mrs' e1,
       shr_fexp Num.prec Num.emax (Zpos mz) ez loc_Exact = (mrs', e1)
       /\ 2 ^ 52 <= shr_m mrs' /\ e1 = ez + (dz - 53)).
    { unfold shr_fexp. cbn [Zdigits2 shr_record_of_loc]. fold dz.
      rewrite fexp_normal by lia.
      replace (dz + ez - 53 - ez) with (dz - 53) by lia.
      destruct (dz - 53) as [|j|j] eqn:Ej; try lia.
      - cbn [shr]. do 2 eexists. split; [reflexivity|]. cbn [shr_m].
        assert (dz = 53) by lia. rewrite H in Z1.
        change (53 - 1) with 52 in Z1. lia.
      - cbn [shr]. do 2 eexists. split; [reflexivity|].
        rewrite shr_iter_m by (cbn; lia). cbn [shr_m]. split; [|lia].
        apply Z.div_le_lower_bound; [apply Z.pow_pos_nonneg; lia|].
        rewrite <- Z.pow_add_r by lia.
        replace (Zpos j + 52) with (dz - 1) by lia. exact Z1. }
    destruct F as [mrs' [e1 [-> [Hm' He1]]]].
    set (m2 := round_nearest_even (shr_m mrs') (loc_of_shr_record mrs')).
    assert (Hm2 : 2 ^ 52 <= m2).
    { unfold m2, round_nearest_even.
      destruct (loc_of_shr_record mrs') as [|[]]; try lia.
      destruct (Z.even (shr_m mrs')); lia. }
    assert (S : exists mrs'' e'',
       shr_fexp Num.prec Num.emax m2 e1 loc_Exact = (mrs'', e'')
       /\ 0 < shr_m mrs'').
    { destruct m2 as [|q|q] eqn:Em2; try lia.
      unfold shr_fexp. cbn [Zdigits2 shr_record_of_loc].
      pose proof (digits2_bounds q) as [C1 C2].
      set (dq := Zpos (digits2_pos q)) in *.
      assert (53 <= dq).
      { destruct (Z_le_gt_dec 53 dq); [assumption|exfalso].
        assert (2 ^ dq <= 2 ^ 52) by (apply Z.pow_le_mono_r; lia). lia. }
      rewrite fexp_normal by lia.
      replace (dq + e1 - 53 - e1) with (dq - 53) by lia.
      destruct (dq - 53) as [|j|j] eqn:Ej; try lia.
      - cbn [shr]. do 2 eexists. split; [reflexivity|]. cbn [shr_m]. lia.
      - cbn [shr]. do 2 eexists. split; [reflexivity|].
        rewrite shr_iter_m by (cbn; lia). cbn [shr_m].
        apply Z.lt_le_trans with (2 ^ 52); [reflexivity|].
        apply Z.div_le_lower_bound; [apply Z.pow_pos_nonneg; lia|].
        rewrite <- Z.pow_add_r by lia.
        replace (Zpos j + 52) with (dq - 1) by lia. exact C1. }
    destruct S as [mrs'' [e'' [-> Hpos]]].
    destruct (shr_m mrs'') as [|M|M]; try lia.
    destruct (Z.leb _ _); [right; eauto|left; reflexivity]. }
  destruct (Z_le_gt_dec d 53) as [L|L].
  - destruct (shl_align_spec m e (d + e - 53)) as [mz [-> Hmz]]; [lia|].
    apply G.
    + rewrite (digits2_scale m mz (e - (d + e - 53))) by (lia || exact Hmz).
      fold d. lia.
    + rewrite (digits2_scale m mz (e - (d + e - 53))) by (lia || exact Hmz).
      fold d. lia.
  - rewrite shl_align_none by lia. apply G; fold d; lia.
Qed.

Lemma aligned_fst (M : positive) (e ez : Z) :
  ez <= e -> Zpos (fst (shl_align M e ez)) = Zpos M * 2 ^ (e - ez).
Proof.
  intros H. destruct (shl_align_spec M e ez H) as [m' [-> E]]. exact E.
Qed.

(** [x % 1 === 0] for a positive finite number: whether the
    significand is a multiple of the weight of the unit. *)
Lemma rem_one_whole (M : positive) (E : Z) :
  -1000 <= E <= 0 ->
  Num.eqb (Num.rem (S754_finite false M E) (Num.of_Z 1)) (Num.of_Z 0)
  = (Zpos M mod 2 ^ (- E) =? 0).
Proof.
  intros HE.
  change (Num.of_Z 1) with (S754_finite false 4503599627370496 (-52)).
  change (Num.of_Z 0) with (S754_zero false).
  cbn [Num.rem]. set (ez := Z.min E (-52)).
  rewrite !aligned_fst by lia.
  set (ax := Zpos M * 2 ^ (E - ez)).
  set (ay := 4503599627370496 * 2 ^ (-52 - ez)).
  assert (Pay : 0 < ay)
    by (unfold ay; apply Z.mul_pos_pos; [lia|apply Z.pow_pos_nonneg; lia]).
  assert (Pax : 0 < ax)
    by (unfold ax; apply Z.mul_pos_pos; [lia|apply Z.pow_pos_nonneg; lia]).
  rewrite Z.rem_mod_nonneg by lia. cbn [cond_Zopp].
  assert (R : (ax mod ay =? 0) = (Zpos M mod 2 ^ (- E) =? 0)).
  { unfold ax, ay, ez. destruct (Z_le_gt_dec (-52) E) as [L|G].
    - replace (Z.min E (-52)) with (-52) by lia.
      replace (-52 - -52) with 0 by lia.
      rewrite Z.pow_0_r, Z.mul_1_r.
      replace 4503599627370496 with (2 ^ (- E) * 2 ^ (E - -52))
        by (rewrite <- Z.pow_add_r by lia;
            replace (- E + (E - -52)) with 52 by lia; reflexivity).
      rewrite Z.mul_mod_distr_r
        by (apply Z.pow_nonzero; lia).
      assert (0 < 2 ^ (E - -52)) by (apply Z.pow_pos_nonneg; lia).
      destruct (Z.eqb_spec (Zpos M mod 2 ^ (- E)) 0) as [Z0|NZ].
      + rewrite Z0. reflexivity.
      + apply Z.eqb_neq. nia.
    - replace (Z.min E (-52)) with E by lia.
      rewrite Z.sub_diag, Z.pow_0_r, Z.mul_1_r.
      change 4503599627370496 with (2 ^ 52).
      rewrite <- Z.pow_add_r by lia.
      replace (52 + (-52 - E)) with (- E) by lia. reflexivity. }
  rewrite <- R.
  pose proof (Z.mod_pos_bound ax ay Pay) as Bd.
  destruct (ax mod ay) as [|rho|rho] eqn:Er; try lia.
  - reflexivity.
  - cbn [binary_normalize].
    destruct (round_nonzero false rho ez) as [-> |[M' [E' ->]]];
      [unfold ez; lia|reflexivity|reflexivity].
Qed.

(* ================================================================== *)
(** * Decimal digits and [toFixed] *)
(* ================================================================== *)

Lemma uint_units_revapp (d d' : Decimal.uint) :
  Str.uint_units (Decimal.revapp d d')
  = List.rev (Str.uint_units d) ++ Str.uint_units d'.
Proof.
  revert d'. induction d; intros d'; cbn [Decimal.revapp Str.uint_units List.rev];
    [reflexivity|..]; rewrite IHd, <- List.app_assoc; reflexivity.
Qed.

Lemma uint_units_app (d d' : Decimal.uint) :
  Str.uint_units (Decimal.app d d') = Str.uint_units d ++ Str.uint_units d'.
Proof.
  unfold Decimal.app, Decimal.rev.
  rewrite !uint_units_revapp. cbn [Str.uint_units].
  rewrite List.app_nil_r, List.rev_involutive. reflexivity.
Qed.

Lemma digits_prefix_app (acc : option Z) (s t : jsstring) :
  forallb is_digit s = true ->
  digits_prefix 10 acc (s ++ t) = digits_prefix 10 (digits_prefix 10 acc s) t.
Proof.
  revert acc. induction s as [|c s IH]; intros acc H; [reflexivity|].
  cbn [forallb] in H. apply andb_prop in H as [Hc Hs].
  cbn [List.app digits_prefix].
  destruct (digit_value 10 c) as [v|] eqn:V.
  - apply IH, Hs.
  - exfalso. unfold is_digit in Hc. apply andb_prop in Hc as [C1 C2].
    apply N.leb_le in C1. apply N.leb_le in C2.
    unfold digit_value in V.
    replace ((48 <=? Z.of_N c) && (Z.of_N c <=? 57)) with true in V
      by (symmetry; apply andb_true_intro; split; apply Z.leb_le; lia).
    destruct (Z.ltb_spec (Z.of_N c - 48) 10); [discriminate|lia].
Qed.

Lemma to_uint_head (n : N) :
  n <> 0%N ->
  exists c s, Str.uint_units (N.to_uint n) = c :: s /\ c <> 48%N.
Proof.
  intros H. pose proof (DecimalN.Unsigned.to_of (N.to_uint n)) as U.
  rewrite DecimalN.Unsigned.of_to in U.
  destruct (N.to_uint n) as [|d|d|d|d|d|d|d|d|d|d] eqn:E;
    [exfalso; exact (to_uint_nonnil n E)| |
     cbn [Str.uint_units]; eexists _, _; split; [reflexivity|discriminate]..].
  exfalso. unfold Decimal.unorm in U. cbn [Decimal.nzhead] in U.
  destruct (Decimal.nzhead d) eqn:Z0; try discriminate U.
  - injection U as U. subst d. apply H.
    rewrite <- (DecimalN.Unsigned.of_to n), E. reflexivity.
  - exact (nzhead_nonzero d _ Z0).
Qed.

Lemma unorm_head (d : Decimal.uint) (c : N) (s : jsstring) :
  Str.uint_units d = c :: s -> c <> 48%N -> Decimal.unorm d = d.
Proof.
  intros E H. destruct d; cbn [Str.uint_units] in E;
    [discriminate E| |reflexivity..].
  injection E as E _. congruence.
Qed.

Lemma dec_unit (q m : Z) :
  0 <= m < 10 -> digits_prefix 10 (Some q) (Str.dec m) = Some (q * 10 + m).
Proof.
  intros H.
  assert (C : m = 0 \/ m = 1 \/ m = 2 \/ m = 3 \/ m = 4 \/ m = 5
              \/ m = 6 \/ m = 7 \/ m = 8 \/ m = 9) by lia.
  repeat (destruct C as [->|C]; [reflexivity|]). subst m. reflexivity.
Qed.

(** The decimal digits of [r] are those of [r / 10] followed by the
    digit [r mod 10]. *)
Lemma dec_split (r : Z) :
  10 <= r -> Str.dec r = Str.dec (r / 10) ++ Str.dec (r mod 10).
Proof.
  intros H. unfold Str.dec at 2 3. rewrite <- uint_units_app.
  set (d := Decimal.app _ _).
  assert (Q : 1 <= r / 10) by (apply Z.div_le_lower_bound; lia).
  pose proof (Z.mod_pos_bound r 10 ltac:(lia)) as B.
  assert (V : Z.of_N (N.of_uint d) = r).
  { assert (N0 : d <> Decimal.Nil).
    { intros E. pose proof (uint_units_app (N.to_uint (Z.to_N (r / 10)))
                              (N.to_uint (Z.to_N (r mod 10)))) as A.
      fold d in A. rewrite E in A. cbn [Str.uint_units] in A.
      symmetry in A. apply List.app_eq_nil in A as [A _].
      exact (dec_nonempty (r / 10) A). }
    pose proof (digits_prefix_uint d N0) as P.
    unfold d in P at 1. rewrite uint_units_app in P.
    rewrite digits_prefix_app in P by apply uint_units_digits.
    fold (Str.dec (r / 10)) in P. fold (Str.dec (r mod 10)) in P.
    rewrite digits_prefix_dec in P by lia.
    rewrite dec_unit in P by lia.
    injection P as P. unfold N.of_uint. rewrite <- P.
    pose proof (Z.div_mod r 10 ltac:(lia)). lia. }
  unfold Str.dec. replace (Z.to_N r) with (N.of_uint d) by lia.
  rewrite DecimalN.Unsigned.to_of.
  destruct (to_uint_head (Z.to_N (r / 10)) ltac:(lia)) as [c [s [E C]]].
  rewrite (unorm_head d c (s ++ Str.uint_units (N.to_uint (Z.to_N (r mod 10))))).
  - reflexivity.
  - unfold d. rewrite uint_units_app, E. reflexivity.
  - exact C.
Qed.

Lemma point_split (r : Z) :
  10 <= r ->
  let ds := Str.dec r in
  firstn (List.length ds - 1) ds ++ $"." ++ skipn (List.length ds - 1) ds
  = Str.dec (r / 10) ++ $"." ++ Str.dec (r mod 10).
Proof.
  intros H ds. unfold ds. rewrite (dec_split r H).
  pose proof (Z.mod_pos_bound r 10 ltac:(lia)) as B.
  assert (L : List.length (Str.dec (r mod 10)) = 1%nat).
  { assert (C : r mod 10 = 0 \/ r mod 10 = 1 \/ r mod 10 = 2 \/ r mod 10 = 3
                \/ r mod 10 = 4 \/ r mod 10 = 5 \/ r mod 10 = 6
                \/ r mod 10 = 7 \/ r mod 10 = 8 \/ r mod 10 = 9) by lia.
    repeat (destruct C as [->|C]; [reflexivity|]). rewrite C. reflexivity. }
  rewrite List.length_app, L.
  replace (List.length (Str.dec (r / 10)) + 1 - 1)%nat
    with (List.length (Str.dec (r / 10)) + 0)%nat by lia.
  rewrite List.firstn_app_2, List.skipn_app, Nat.add_0_r.
  rewrite List.skipn_all, Nat.sub_diag. cbn [List.firstn List.skipn List.app].
  rewrite List.app_nil_r. reflexivity.
Qed.

Lemma dec_length_two (r : Z) : 10 <= r -> (2 <= List.length (Str.dec r))%nat.
Proof.
  intros H. pose proof (digits_prefix_dec r ltac:(lia)) as P.
  pose proof (dec_digits r) as D.
  destruct (Str.dec r) as [|c [|c' s]]; cbn [List.length]; try lia.
  - discriminate P.
  - exfalso. cbn [forallb] in D. apply andb_prop in D as [D _].
    unfold is_digit in D. apply andb_prop in D as [D1 D2].
    apply N.leb_le in D1. apply N.leb_le in D2.
    cbn [digits_prefix] in P. unfold digit_value in P.
    replace ((48 <=? Z.of_N c) && (Z.of_N c <=? 57)) with true in P
      by (symmetry; apply andb_true_intro; split; apply Z.leb_le; lia).
    destruct (Z.ltb_spec (Z.of_N c - 48) 10); [|lia].
    injection P as P. lia.
Qed.

(** [toFixed] of a positive number with a fractional significand. *)
Lemma toFixed_fraction (M : positive) (E f : Z) :
  E < 0 -> Zpos M < 2 ^ 53 -> f = 0 \/ f = 1 ->
  let P := 2 ^ (- E) in
  let r := (2 * 10 ^ f * Zpos M + P) / (2 * P) in
  (f = 1 -> 10 <= r) ->
  Num.toFixed (S754_finite false M E) f
  = if f =? 0 then Str.dec r
    else Str.dec (r / 10) ++ $"." ++ Str.dec (r mod 10).
Proof.
  intros HE HM Hf P r Hr.
  assert (PP : 0 < P) by (apply Z.pow_pos_nonneg; lia).
  unfold Num.toFixed.
  assert (G : Num.mag_geb (S754_finite false M E) (inject_Z (10 ^ 21)) = false).
  { unfold Num.mag_geb, Num.toQ.
    replace (0 <=? E) with false by (symmetry; apply Z.leb_gt; lia).
    unfold Qle_bool, Qabs, inject_Z. cbn [Qnum Qden Z.abs].
    apply Z.leb_gt. rewrite Z2Pos.id by exact PP. fold P.
    change (10 ^ 21) with 1000000000000000000000.
    change (2 ^ 53) with 9007199254740992 in HM. nia. }
  rewrite G.
  assert (D : Num.fixed_digits (Qabs (Num.toQ (S754_finite false M E))) f = r).
  { unfold Num.fixed_digits, Num.toQ.
    replace (0 <=? E) with false by (symmetry; apply Z.leb_gt; lia).
    unfold Qfloor, Qplus, Qmult, Qabs, inject_Z. cbn [Qnum Qden Z.abs].
    rewrite !Pos2Z.inj_mul, Z2Pos.id by exact PP. fold P. unfold r.
    f_equal; ring. }
  rewrite D. cbn [List.app].
  destruct Hf as [-> | ->]; [reflexivity|].
  cbn [Z.eqb]. cbv iota.
  pose proof (dec_length_two r (Hr eq_refl)) as L.
  unfold Str.length.
  replace (Z.of_nat (List.length (Str.dec r)) <=? 1) with false
    by (symmetry; apply Z.leb_gt; lia).
  replace (Z.to_nat (Z.of_nat (List.length (Str.dec r)) - 1))
    with (List.length (Str.dec r) - 1)%nat by lia.
  apply (point_split r (Hr eq_refl)).
Qed.

(* ================================================================== *)
(** * The quotient as [formatNumber] writes it *)
(* ================================================================== *)

Lemma tenths_bound (a u P Q0 N r : Z) :
  0 < u -> 60 * u <= P ->
  (10 * u) * Q0 <= a * P < (10 * u) * (Q0 + 1) ->
  Q0 - 2 <= N <= Q0 + 2 ->
  2 * P * r <= 20 * N + P < 2 * P * (r + 1) ->
  2 * u * r - u <= 2 * a <= 2 * u * r + u.
Proof.
  intros Hu HP [Q1 Q2] [N1 N2] [R1 R2].
  split.
  - destruct (Z_le_gt_dec (2 * u * r - u) (2 * a)) as [L|G]; [exact L|].
    exfalso.
    assert (X : P * (2 * u * r - u - 2 * a) <= 40 * u) by nia.
    assert (Y : P * 1 <= P * (2 * u * r - u - 2 * a))
      by (apply Z.mul_le_mono_nonneg_l; lia).
    lia.
  - destruct (Z_le_gt_dec (2 * a) (2 * u * r + u)) as [L|G]; [exact L|].
    exfalso.
    assert (X : P * (2 * a - 2 * u * r - u) < 60 * u) by nia.
    assert (Y : P * 1 <= P * (2 * a - 2 * u * r - u))
      by (apply Z.mul_le_mono_nonneg_l; lia).
    lia.
Qed.

Lemma whole_bound (a b P Q0 t : Z) :
  0 < b -> 6 * b <= P ->
  b * Q0 <= a * P < b * (Q0 + 1) ->
  Q0 - 2 <= t * P <= Q0 + 2 ->
  a = t * b.
Proof.
  intros Hb HP [Q1 Q2] [N1 N2].
  destruct (Z.lt_trichotomy a (t * b)) as [L|[E|G]]; [|exact E|]; exfalso.
  - assert (Y : P * 1 <= P * (t * b - a))
      by (apply Z.mul_le_mono_nonneg_l; lia).
    nia.
  - assert (Y : P * 1 <= P * (a - t * b))
      by (apply Z.mul_le_mono_nonneg_l; lia).
    nia.
Qed.

Lemma bits_le (z k : Z) : 0 < z < 2 ^ k -> 0 <= k -> bits z <= k.
Proof.
  intros H K. pose proof (bits_spec z ltac:(lia)) as [B _].
  destruct (Z_le_gt_dec (bits z) k) as [L|G]; [exact L|exfalso].
  assert (2 ^ k <= 2 ^ (bits z - 1)) by (apply Z.pow_le_mono_r; lia).
  lia.
Qed.

Lemma fixed01_whole (c : Z) :
  0 < c < 2 ^ 52 -> fixed01 (int c) = Str.dec c.
Proof.
  intros H.
  assert (S : 0 < c < 2 ^ 53)
    by (change (2 ^ 53) with (2 * 2 ^ 52); lia).
  destruct (int_pos_parts c S) as [A [-> [VA [DA BA]]]].
  pose proof (bits_le c 52 H ltac:(lia)) as B52.
  set (E := bits c - 53) in *.
  assert (PP : 0 < 2 ^ (- E)) by (apply Z.pow_pos_nonneg; lia).
  assert (VA' : Zpos A = c * 2 ^ (- E))
    by (rewrite VA; f_equal; f_equal; lia).
  unfold fixed01. rewrite rem_one_whole by lia.
  rewrite VA', Z.mod_mul by lia. cbn [Z.eqb].
  rewrite toFixed_fraction; try lia.
  - cbn [Z.eqb]. f_equal. rewrite VA'. symmetry.
    apply (Z.div_unique _ _ c (2 ^ (- E))); [lia|].
    change (10 ^ 0) with 1. ring.
  - pose proof (digits2_bounds A) as BD. rewrite DA in BD. lia.
Qed.

(** The quotient of two integers, as [formatNumber] writes it: whole
    when the division is exact, otherwise rounded to a nearest tenth. *)
Lemma fixed01_quotient (a u : Z) :
  0 < u -> 10 * u <= a < 2 ^ 53 ->
  60 * u <= 2 ^ (53 + bits (10 * u) - bits a) ->
  (a mod (10 * u) = 0
   /\ fixed01 (Num.div (int a) (int (10 * u))) = Str.dec (a / (10 * u)))
  \/ (a mod (10 * u) <> 0
      /\ exists r : Z,
           10 <= r
           /\ 2 * u * r - u <= 2 * a <= 2 * u * r + u
           /\ fixed01 (Num.div (int a) (int (10 * u)))
              = Str.dec (r / 10) ++ $"." ++ Str.dec (r mod 10)).
Proof.
  intros Hu Ha HK. set (b := 10 * u) in *.
  assert (Hb : 0 < b < 2 ^ 53) by (unfold b; lia).
  destruct (Z.eq_dec (a mod b) 0) as [W|NW].
  - left. split; [exact W|].
    apply Z.div_exact in W; [|lia].
    set (c := a / b) in *.
    assert (Hc : 0 < c) by nia.
    rewrite W at 1. rewrite div_int_exact by lia.
    apply fixed01_whole. split; [exact Hc|].
    change (2 ^ 53) with (2 * 2 ^ 52) in Ha. nia.
  - right. split; [exact NW|].
    destruct (div_int_bound a b ltac:(lia) Hb) as [M [E [-> [BE [BM BN]]]]].
    set (K := 53 + bits b - bits a) in *.
    pose proof (int_pos_parts a ltac:(lia)) as [_ [_ [_ [_ Ba]]]].
    pose proof (int_pos_parts b Hb) as [_ [_ [_ [_ Bb]]]].
    assert (K6 : 6 <= K).
    { destruct (Z_le_gt_dec 6 K) as [L|G]; [exact L|exfalso].
      assert (2 ^ K <= 2 ^ 5) by (apply Z.pow_le_mono_r; lia).
      change (2 ^ 5) with 32 in *. lia. }
    set (P := 2 ^ K) in *.
    set (P' := 2 ^ (- E)).
    set (c2 := 2 ^ (E + K)) in *.
    assert (PP' : 0 < P') by (apply Z.pow_pos_nonneg; lia).
    assert (Pc2 : 0 < c2) by (apply Z.pow_pos_nonneg; lia).
    assert (EP : P = P' * c2).
    { unfold P, P', c2. rewrite <- Z.pow_add_r by lia. f_equal. lia. }
    set (Q0 := a * P / b) in *.
    assert (HQ : b * Q0 <= a * P < b * (Q0 + 1)).
    { unfold Q0. split.
      - apply Z.mul_div_le. lia.
      - rewrite Z.mul_add_distr_l, Z.mul_1_r.
        pose proof (Z.mul_succ_div_gt (a * P) b ltac:(lia)). lia. }
    unfold fixed01. rewrite rem_one_whole by lia. fold P'.
    assert (NZ : (Zpos M mod P' =? 0) = false).
    { apply Z.eqb_neq. intros Z0. apply NW.
      apply Z.div_exact in Z0; [|lia].
      set (t := Zpos M / P') in *.
      assert (T : a = t * b).
      { apply (whole_bound a b P Q0 t); [lia|unfold b; lia|exact HQ|].
        replace (t * P) with (Zpos M * c2) by (rewrite Z0, EP; ring).
        exact BN. }
      rewrite T. apply Z.mod_mul. lia. }
    rewrite NZ.
    set (r := (2 * 10 ^ 1 * Zpos M + P') / (2 * P')).
    assert (HR : 2 * P' * r <= 20 * Zpos M + P' < 2 * P' * (r + 1)).
    { unfold r. change (2 * 10 ^ 1) with 20. split.
      - apply Z.mul_div_le. lia.
      - rewrite Z.mul_add_distr_l, Z.mul_1_r.
        pose proof (Z.mul_succ_div_gt (20 * Zpos M + P') (2 * P') ltac:(lia)).
        lia. }
    assert (TB : 2 * u * r - u <= 2 * a <= 2 * u * r + u).
    { apply (tenths_bound a u P Q0 (Zpos M * c2) r);
        [lia|lia|exact HQ|exact BN|].
      rewrite EP. nia. }
    assert (R10 : 10 <= r) by (unfold b in Ha; nia).
    exists r. split; [exact R10|]. split; [exact TB|].
    rewrite toFixed_fraction; try lia.
    + reflexivity.
    + intros _. fold P'. fold r. exact R10.
Qed.

(* ================================================================== *)
(** * Number Formatter *)
(* ================================================================== *)

Lemma round_aux_opp (mx ex : Z) (lx : location) :
  SFopp (binary_round_aux Num.prec Num.emax false mx ex lx)
  = binary_round_aux Num.prec Num.emax true mx ex lx.
Proof.
  unfold binary_round_aux.
  destruct (shr_fexp Num.prec Num.emax mx ex lx) as [mrs' e'].
  destruct (shr_fexp Num.prec Num.emax _ e' loc_Exact) as [mrs'' e''].
  destruct (shr_m mrs''); try reflexivity.
  destruct (Z.leb _ _); reflexivity.
Qed.

Lemma of_Z_opp (n : Z) : 0 < n -> Num.of_Z (- n) = Num.neg (Num.of_Z n).
Proof.
  intros H. destruct n as [|p|p]; try lia.
  unfold Num.of_Z, Num.neg. cbn [Z.opp binary_normalize].
  unfold binary_round.
  destruct (shl_align p 0 _) as [mz ez].
  symmetry. apply round_aux_opp.
Qed.

(** The Number of a positive integer: exact below [2^53], and at
    least [2^53] from there on. *)
Lemma of_Z_pos_cases (n : Z) :
  0 < n ->
  (n < 2 ^ 53 /\ Num.of_Z n = int n)
  \/ (2 ^ 53 <= n
      /\ (Num.of_Z n = S754_infinity false
          \/ exists m e, Num.of_Z n = S754_finite false m e /\ 1 <= e)).
Proof.
  intros H. destruct (Z_lt_le_dec n (2 ^ 53)) as [L|G].
  - left. split; [exact L|]. apply of_Z_safe. lia.
  - right. split; [exact G|]. destruct n as [|p|p]; try lia.
    unfold Num.of_Z. cbn [binary_normalize]. apply round_big.
    pose proof (digits2_bounds p) as [B1 B2].
    destruct (Z_le_gt_dec (Zpos (digits2_pos p)) 53) as [L|L]; [|lia].
    exfalso.
    assert (2 ^ Zpos (digits2_pos p) <= 2 ^ 53)
      by (apply Z.pow_le_mono_r; lia).
    lia.
Qed.

Lemma of_Z_positive (n : Z) :
  0 < n -> Num.ltb (Num.of_Z 0) (Num.of_Z n) = true.
Proof.
  intros H.
  destruct (of_Z_pos_cases n H) as [[L ->]|[G [->|[m [e [-> _]]]]]];
    try reflexivity.
  change (Num.of_Z 0) with (int 0).
  rewrite int_ltb by (cbn; lia). apply Z.ltb_lt. exact H.
Qed.

(** Negating a positive number only adds the sign. *)
Lemma formatNumber_neg (x : number) :
  Num.ltb (Num.of_Z 0) x = true ->
  formatNumber (Num.neg x) = $"-" ++ formatNumber x.
Proof.
  intros H.
  assert (Hneg : Num.ltb (Num.neg x) (Num.of_Z 0) = true)
    by (destruct x as [[]|[]| |[] m e]; try discriminate H; reflexivity).
  assert (Hpos : Num.ltb x (Num.of_Z 0) = false)
    by (destruct x as [[]|[]| |[] m e]; try discriminate H; reflexivity).
  assert (Habs : Num.abs (Num.neg x) = Num.abs x)
    by (destruct x; reflexivity).
  unfold formatNumber. rewrite Hneg, Hpos, Habs.
  destruct (Num.ltb (Num.abs x) (Num.of_Z 1000)); [reflexivity|].
  destruct (Num.ltb (Num.abs x) (Num.of_Z 1000000)); reflexivity.
Qed.

(** C5: for every integer [n > 0], [formatNumber(-n)] is ["-"] followed
    by [formatNumber(n)]. *)
Theorem formatNumber_opp (n : Z) :
  0 < n ->
  formatNumber (Num.of_Z (- n)) = $"-" ++ formatNumber (Num.of_Z n).
Proof.
  intros H. rewrite of_Z_opp by exact H.
  apply formatNumber_neg, of_Z_positive, H.
Qed.

Lemma formatNumber_opp_witness :
  0 < 2500
  /\ formatNumber (Num.of_Z (Z.opp 2500))
     = $"-" ++ formatNumber (Num.of_Z 2500).
Proof.
  split; [lia | apply formatNumber_opp; lia].
Defined.

Lemma Str_eqb_eq (a b : jsstring) : Str.eqb a b = true -> a = b.
Proof.
  revert b. induction a as [|x a IH]; intros [|y b] H;
    try discriminate; [reflexivity|].
  cbn [Str.eqb] in H. apply andb_prop in H as [H1 H2].
  apply N.eqb_eq in H1. subst y. f_equal. apply IH, H2.
Qed.

Lemma Str_eqb_refl (a : jsstring) : Str.eqb a a = true.
Proof.
  induction a as [|x a IH]; [reflexivity|].
  cbn [Str.eqb]. rewrite N.eqb_refl. exact IH.
Qed.

Lemma range_In (k : nat) (a n : Z) :
  a <= n < a + Z.of_nat k -> In n (range k a).
Proof.
  revert a. induction k as [|k IH]; intros a H; [lia|].
  cbn [range]. destruct (Z.eq_dec a n) as [->|Ne]; [left; reflexivity|].
  right. apply IH. lia.
Qed.

Lemma units_enumerated : forallb units_ok (range 1999 (-999)) = true.
Proof. vm_compute. reflexivity. Qed.

(** Below a thousand the integer is written in full. *)
Lemma formatNumber_units (n : Z) :
  Z.abs n < 1000 ->
  formatNumber (Num.of_Z n) = sign_text n ++ Str.dec (Z.abs n).
Proof.
  intros H. apply Str_eqb_eq.
  pose proof units_enumerated as E. rewrite forallb_forall in E.
  apply (E n). apply range_In. lia.
Qed.

Lemma big_not_below (x : number) (b : Z) :
  (x = S754_infinity false
   \/ exists m e, x = S754_finite false m e /\ 1 <= e) ->
  0 < b < 2 ^ 53 ->
  Num.ltb x (Num.of_Z 0) = false /\ Num.abs x = x
  /\ Num.ltb x (Num.of_Z b) = false.
Proof.
  intros Hx Hb. rewrite (of_Z_safe b) by lia.
  destruct (int_finite b) as [B [eb [HB [_ Eb]]]]; [lia|lia|].
  rewrite HB.
  destruct Hx as [->|[m [e [-> He]]]].
  - repeat split; destruct (b <? 0); reflexivity.
  - repeat split.
    replace (b <? 0) with false by (symmetry; apply Z.ltb_ge; lia).
    unfold Num.ltb, SFltb. cbn [SFcompare].
    replace (e ?= eb) with Gt by (symmetry; apply Z.compare_gt_iff; lia).
    reflexivity.
Qed.

Lemma formatNumber_thousands_pos (n : Z) :
  1000 <= n < 1000000 ->
  formatNumber (Num.of_Z n)
  = fixed01 (Num.div (Num.of_Z n) (Num.of_Z 1000)) ++ $"K".
Proof.
  intros H. unfold formatNumber.
  assert (S : Z.abs n < 2 ^ 53) by (change (2 ^ 53) with 9007199254740992; lia).
  rewrite (of_Z_safe n S), int_abs, (Z.abs_eq n) by lia.
  change (Num.of_Z 0) with (int 0).
  change (Num.of_Z 1000) with (int 1000).
  change (Num.of_Z 1000000) with (int 1000000).
  rewrite !int_ltb by (cbn; lia).
  replace (n <? 0) with false by (symmetry; apply Z.ltb_ge; lia).
  replace (n <? 1000) with false by (symmetry; apply Z.ltb_ge; lia).
  replace (n <? 1000000) with true by (symmetry; apply Z.ltb_lt; lia).
  reflexivity.
Qed.

Lemma formatNumber_millions_pos (n : Z) :
  1000000 <= n ->
  formatNumber (Num.of_Z n)
  = fixed01 (Num.div (Num.of_Z n) (Num.of_Z 1000000)) ++ $"M".
Proof.
  intros H. unfold formatNumber.
  destruct (of_Z_pos_cases n) as [[L E]|[G B]]; [lia| |].
  - rewrite E, int_abs, (Z.abs_eq n) by lia.
    change (Num.of_Z 0) with (int 0).
    change (Num.of_Z 1000) with (int 1000).
    change (Num.of_Z 1000000) with (int 1000000).
    rewrite !int_ltb by (cbn; lia).
    replace (n <? 0) with false by (symmetry; apply Z.ltb_ge; lia).
    replace (n <? 1000) with false by (symmetry; apply Z.ltb_ge; lia).
    replace (n <? 1000000) with false by (symmetry; apply Z.ltb_ge; lia).
    reflexivity.
  - destruct (big_not_below _ 1000 B) as [N0 [A N1]];
      [change (2 ^ 53) with 9007199254740992; lia|].
    destruct (big_not_below _ 1000000 B) as [_ [_ N2]];
      [change (2 ^ 53) with 9007199254740992; lia|].
    rewrite N0, A, N1, N2. reflexivity.
Qed.

Lemma formatNumber_negative (n : Z) :
  n < 0 ->
  formatNumber (Num.of_Z n) = $"-" ++ formatNumber (Num.of_Z (Z.abs n)).
Proof.
  intros H. replace n with (- Z.abs n) at 1 by lia.
  rewrite of_Z_opp by lia.
  apply formatNumber_neg, of_Z_positive. lia.
Qed.

Lemma quotient_text_fixed01 (a u : Z) :
  0 < u -> 10 * u <= a < 2 ^ 53 ->
  60 * u <= 2 ^ (53 + bits (10 * u) - bits a) ->
  quotient_text a (10 * u) (fixed01 (Num.div (int a) (int (10 * u)))).
Proof.
  intros Hu Ha HK.
  destruct (fixed01_quotient a u Hu Ha HK) as [[W E]|[NW [r [R10 [B E]]]]].
  - left. split; assumption.
  - right. split; [exact NW|]. exists r.
    split; [exact R10|]. split; [lia|exact E].
Qed.

Lemma thousands_text (a : Z) :
  1000 <= a < 1000000 ->
  quotient_text a 1000 (fixed01 (Num.div (Num.of_Z a) (Num.of_Z 1000))).
Proof.
  intros H.
  assert (S : Z.abs a < 2 ^ 53) by (change (2 ^ 53) with 9007199254740992; lia).
  rewrite (of_Z_safe a S).
  change (quotient_text a (10 * 100)
            (fixed01 (Num.div (int a) (int (10 * 100))))).
  apply quotient_text_fixed01;
    [lia|change (2 ^ 53) with 9007199254740992; lia|].
  change (bits (10 * 100)) with 10.
  pose proof (bits_le a 20 ltac:(change (2 ^ 20) with 1048576; lia)
                ltac:(lia)) as B.
  apply Z.le_trans with (2 ^ 13); [change (2 ^ 13) with 8192; lia|].
  apply Z.pow_le_mono_r; lia.
Qed.

Lemma millions_text (a : Z) :
  1000000 <= a < 2 ^ 50 ->
  quotient_text a 1000000
    (fixed01 (Num.div (Num.of_Z a) (Num.of_Z 1000000))).
Proof.
  intros H.
  assert (S : Z.abs a < 2 ^ 53)
    by (change (2 ^ 53) with (8 * 2 ^ 50); lia).
  rewrite (of_Z_safe a S).
  change (quotient_text a (10 * 100000)
            (fixed01 (Num.div (int a) (int (10 * 100000))))).
  apply quotient_text_fixed01;
    [lia|change (2 ^ 53) with (8 * 2 ^ 50); lia|].
  change (bits (10 * 100000)) with 20.
  pose proof (bits_le a 50 ltac:(lia) ltac:(lia)) as B.
  apply Z.le_trans with (2 ^ 23); [change (2 ^ 23) with 8388608; lia|].
  apply Z.pow_le_mono_r; lia.
Qed.

Lemma formatNumber_signed (n : Z) (f : Z -> jsstring) :
  (forall a, 0 < a -> a = Z.abs n -> formatNumber (Num.of_Z a) = f a) ->
  n <> 0 ->
  formatNumber (Num.of_Z n) = sign_text n ++ f (Z.abs n).
Proof.
  intros H N0. unfold sign_text.
  destruct (Z.ltb_spec n 0) as [N|P].
  - rewrite formatNumber_negative by exact N.
    rewrite H by lia. reflexivity.
  - rewrite <- H by lia. rewrite (Z.abs_eq n) by lia. reflexivity.
Qed.

(** C4, as it was stated: the rule of the quotient by 1000000 does not
    hold for every integer from a million on.  The Number of a one
    followed by 27 zeros is [1e+27]; its quotient by 1000000 is
    [1e+21], which is whole, and [toFixed] writes a number from [1e21]
    on as [toString] does: the text is [1e+21M], not the digits of the
    quotient. *)
Lemma formatNumber_million_counterexample :
  ~ (forall n : Z, 1000000 <= Z.abs n ->
       exists out : jsstring,
         quotient_text (Z.abs n) 1000000 out
         /\ formatNumber (Num.of_Z n) = sign_text n ++ out ++ $"M").
Proof.
  intros H.
  destruct (H 1000000000000000000000000000) as [out [Q E]];
    [cbn [Z.abs]; lia|].
  assert (F : formatNumber (Num.of_Z 1000000000000000000000000000)
              = $"1e+21" ++ $"M")
    by (vm_compute; reflexivity).
  rewrite F in E.
  change (sign_text 1000000000000000000000000000) with (@nil N) in E.
  cbn [List.app] in E.
  apply List.app_inv_tail in E. subst out.
  cbn [Z.abs] in Q.
  destruct Q as [[_ D]|[N0 _]].
  - revert D. vm_compute. discriminate.
  - apply N0. vm_compute. reflexivity.
Qed.

(** C4, amended: [formatNumber] is a total function on the integers.
    Below a thousand it writes the integer with its sign.  From a
    thousand to a million it writes the sign, the quotient by 1000 and
    the suffix K: the quotient without decimals when the division is
    exact, otherwise with one decimal, rounded to a nearest tenth.
    From a million to [2^50] it writes the same with the quotient by
    1000000 and the suffix M.  The six examples of the specification
    hold. *)
Theorem formatNumber_spec :
  (forall n : Z, Z.abs n < 1000 ->
     formatNumber (Num.of_Z n) = sign_text n ++ Str.dec (Z.abs n))
  /\ (forall n : Z, 1000 <= Z.abs n < 1000000 ->
        exists out : jsstring,
          quotient_text (Z.abs n) 1000 out
          /\ formatNumber (Num.of_Z n) = sign_text n ++ out ++ $"K")
  /\ (forall n : Z, 1000000 <= Z.abs n < 2 ^ 50 ->
        exists out : jsstring,
          quotient_text (Z.abs n) 1000000 out
          /\ formatNumber (Num.of_Z n) = sign_text n ++ out ++ $"M")
  /\ formatNumber (Num.of_Z 0) = $"0"
  /\ formatNumber (Num.of_Z 999) = $"999"
  /\ formatNumber (Num.of_Z 1000) = $"1K"
  /\ formatNumber (Num.of_Z 1500) = $"1.5K"
  /\ formatNumber (Num.of_Z 2500000) = $"2.5M"
  /\ formatNumber (Num.of_Z (-42)) = $"-42".
Proof.
  split; [exact formatNumber_units|].
  split.
  { intros n H. eexists. split; [apply thousands_text; exact H|].
    apply (formatNumber_signed n
             (fun a => fixed01 (Num.div (Num.of_Z a) (Num.of_Z 1000))
                       ++ $"K")); [|lia].
    intros a _ ->. apply formatNumber_thousands_pos. exact H. }
  split.
  { intros n H. eexists. split; [apply millions_text; exact H|].
    apply (formatNumber_signed n
             (fun a => fixed01 (Num.div (Num.of_Z a) (Num.of_Z 1000000))
                       ++ $"M")); [|lia].
    intros a _ ->. apply formatNumber_millions_pos. lia. }
  repeat split; vm_compute; reflexivity.
Qed.

Lemma formatNumber_spec_witness :
  (Z.abs (-42) < 1000
   /\ formatNumber (Num.of_Z (-42)) = sign_text (-42) ++ Str.dec (Z.abs (-42)))
  /\ (1000 <= Z.abs (-1234) < 1000000
      /\ exists out : jsstring,
           quotient_text (Z.abs (-1234)) 1000 out
           /\ formatNumber (Num.of_Z (-1234))
              = sign_text (-1234) ++ out ++ $"K")
  /\ (1000000 <= Z.abs 2500000 < 2 ^ 50
      /\ exists out : jsstring,
           quotient_text (Z.abs 2500000) 1000000 out
           /\ formatNumber (Num.of_Z 2500000)
              = sign_text 2500000 ++ out ++ $"M").
Proof.
  destruct formatNumber_spec as [U [K [M _]]].
  split; [split; [cbn; lia | apply U; cbn; lia]|].
  split; [split; [cbn; lia | apply K; cbn; lia]|].
  split; [cbn; lia | apply M; cbn; lia].
Defined.

(* ================================================================== *)
(** * Report Aggregator *)
(* ================================================================== *)

Lemma row_slots (selected : jsstring * list (option Value) -> bool)
  (r : ReportRow) :
  List.map value_of (List.flat_map snd (List.filter selected r))
  = List.flat_map
      (fun kv => if selected kv then List.map value_of (snd kv) else []) r.
Proof.
  induction r as [|kv r IH]; [reflexivity|].
  cbn [List.filter List.flat_map].
  destruct (selected kv); cbn [List.flat_map].
  - rewrite List.map_app, IH. reflexivity.
  - exact IH.
Qed.

Lemma getValues_slots (key : jsstring) (data : option Report) :
  getValues data key = slots key (rows_of data).
Proof.
  unfold getValues, slots.
  induction (rows_of data) as [|r rs IH]; [reflexivity|].
  cbn [List.flat_map].
  rewrite List.filter_app, List.flat_map_app, List.map_app, IH.
  f_equal. apply row_slots.
Qed.

Lemma slots_typed_dimensions (l : list (list jsstring * list jsstring)) :
  slots $"dimensionValues"
    (List.map (fun r => GoogleAnalyticsReport.row (fst r) (snd r)) l)
  = List.map Some (List.concat (List.map fst l)).
Proof.
  induction l as [|[d m] l IH]; [reflexivity|].
  cbn [List.map List.concat fst snd]. rewrite List.map_app, <- IH.
  unfold slots at 1. cbn [List.flat_map]. fold (slots $"dimensionValues").
  f_equal. unfold GoogleAnalyticsReport.row. cbn [List.flat_map fst snd].
  change (Str.eqb $"dimensionValues" $"dimensionValues") with true.
  change (Str.eqb $"metricValues" $"dimensionValues") with false.
  cbv iota. rewrite !List.app_nil_r, List.map_map. reflexivity.
Qed.

Lemma slots_typed_metrics (l : list (list jsstring * list jsstring)) :
  slots $"metricValues"
    (List.map (fun r => GoogleAnalyticsReport.row (fst r) (snd r)) l)
  = List.map Some (List.concat (List.map snd l)).
Proof.
  induction l as [|[d m] l IH]; [reflexivity|].
  cbn [List.map List.concat fst snd]. rewrite List.map_app, <- IH.
  unfold slots at 1. cbn [List.flat_map]. fold (slots $"metricValues").
  f_equal. unfold GoogleAnalyticsReport.row. cbn [List.flat_map fst snd].
  change (Str.eqb $"dimensionValues" $"metricValues") with false.
  change (Str.eqb $"metricValues" $"metricValues") with true.
  cbv iota. rewrite !List.app_nil_r, List.map_map. reflexivity.
Qed.

(** NaN absorbs every addition. *)
Lemma add_NaN_l (y : number) : Num.add Num.NaN y = Num.NaN.
Proof. reflexivity. Qed.

Lemma add_NaN_r (x : number) : Num.add x Num.NaN = Num.NaN.
Proof. destruct x; reflexivity. Qed.

Lemma fold_add_NaN (l : list number) :
  List.fold_left Num.add l Num.NaN = Num.NaN.
Proof. induction l as [|y l IH]; [reflexivity|exact IH]. Qed.

Lemma fold_add_poisoned (l : list number) (acc : number) :
  In Num.NaN l -> List.fold_left Num.add l acc = Num.NaN.
Proof.
  revert acc. induction l as [|y l IH]; intros acc H; [destruct H|].
  cbn [List.fold_left]. destruct H as [->|H].
  - rewrite add_NaN_r. apply fold_add_NaN.
  - apply IH, H.
Qed.

(** Safe integers are added exactly. *)
Lemma fold_add_int (l : list Z) (acc : Z) :
  0 <= acc -> Forall (fun z => 0 <= z) l -> acc + Zsum l < 2 ^ 53 ->
  List.fold_left Num.add (List.map Num.of_Z l) (int acc)
  = int (acc + Zsum l).
Proof.
  revert acc. induction l as [|z l IH]; intros acc Ha Hl Hs.
  - cbn. rewrite Z.add_0_r. reflexivity.
  - inversion Hl as [|? ? Hz Hl']; subst.
    cbn [List.map List.fold_left Zsum List.fold_right] in *.
    fold (Zsum l) in *.
    assert (P : 0 <= Zsum l).
    { clear -Hl'. induction Hl'; cbn; [lia|]. fold (Zsum l). lia. }
    rewrite (of_Z_safe z) by lia.
    rewrite int_add by lia.
    rewrite IH by (auto; lia). f_equal. lia.
Qed.

Lemma counts_sum (data : option Report) :
  counts data
  = sum_numbers
      (List.map (fun v => parseInt (or_zero v))
                (slots $"metricValues" (rows_of data))).
Proof.
  unfold counts, sum_numbers. rewrite getValues_slots. reflexivity.
Qed.

Lemma Zsum_nonneg (l : list Z) : Forall (fun z => 0 <= z) l -> 0 <= Zsum l.
Proof.
  induction 1 as [|z l Hz _ IH]; cbn; [lia|]. fold (Zsum l). lia.
Qed.

Lemma counted_metrics (l : list (list jsstring * list Z)) :
  Forall (fun z => 0 <= z) (List.concat (List.map snd l)) ->
  List.map (fun v => parseInt (or_zero v))
    (slots $"metricValues" (rows_of (counted_report l)))
  = List.map Num.of_Z (List.concat (List.map snd l)).
Proof.
  intros H. unfold counted_report, typed_report. cbn [rows_of rows].
  rewrite slots_typed_metrics, List.map_map. cbn [or_zero].
  rewrite List.map_map. cbn [snd].
  induction l as [|[d m] l IH]; [reflexivity|].
  cbn [List.map List.concat snd] in *.
  apply Forall_app in H as [Hm Hl].
  rewrite !List.map_app, IH by exact Hl. f_equal.
  clear -Hm. induction Hm as [|z m Hz _ IHm]; [reflexivity|].
  cbn [List.map]. rewrite parseInt_dec by exact Hz. f_equal. exact IHm.
Qed.



(** C1, at the failing input: as soon as one metric value has no
    leading digits the count is NaN, whatever the other rows hold; the
    badge then reads NaNM. *)
Theorem counts_non_numeric (data : option Report) (v : option jsstring) :
  In v (getValues data $"metricValues") ->
  parseInt (or_zero v) = Num.NaN ->
  counts data = Num.NaN /\ formatNumber (counts data) = $"NaNM".
Proof.
  intros Hin Hnan.
  assert (C : counts data = Num.NaN).
  { unfold counts. apply fold_add_poisoned.
    rewrite <- Hnan. apply List.in_map with (f := fun v => parseInt (or_zero v)).
    exact Hin. }
  rewrite C. split; reflexivity.
Qed.

Lemma counts_non_numeric_witness :
  let data := typed_report [ ([ $"/a" ], [ $"abc" ]); ([ $"/b" ], [ $"5" ]) ] in
  In (Some $"abc") (getValues data $"metricValues")
  /\ parseInt (or_zero (Some $"abc")) = Num.NaN
  /\ counts data = Num.NaN
  /\ formatNumber (counts data) = $"NaNM".
Proof.
  intros data.
  assert (I : In (Some $"abc") (getValues data $"metricValues"))
    by (left; reflexivity).
  assert (P : parseInt (or_zero (Some $"abc")) = Num.NaN) by reflexivity.
  split; [exact I|]. split; [exact P|].
  exact (counts_non_numeric data (Some $"abc") I P).
Defined.

(* ================================================================== *)
(** * Query Builder: the date range *)
(* ================================================================== *)

Ltac div_lia :=
  Z.to_euclidean_division_equations; lia.

(** The year of a day is the year that contains it. *)
Lemma YearFromDay_spec (d : Z) :
  Date.DayFromYear (Date.YearFromDay d) <= d
  < Date.DayFromYear (Date.YearFromDay d + 1).
Proof.
  unfold Date.YearFromDay.
  set (y := 1970 + 400 * d / 146097).
  destruct (Z.ltb_spec d (Date.DayFromYear y)) as [L|G].
  - replace (y - 1 + 1) with y by lia. split; [|exact L].
    revert L. unfold Date.DayFromYear, y. div_lia.
  - destruct (Z.leb_spec (Date.DayFromYear (y + 1)) d) as [L'|G'].
    + split; [exact L'|].
      revert L'. unfold Date.DayFromYear, y. div_lia.
    + split; assumption.
Qed.

Lemma MonthFromTime_range (t : Z) : 0 <= Date.MonthFromTime t <= 11.
Proof.
  unfold Date.MonthFromTime.
  repeat match goal with
  | |- context [if ?b then _ else _] => destruct b
  end; lia.
Qed.

(** Setting the day of the month to the next one adds a day. *)
Lemma setDate_next (tza t : Z) :
  Date.setDate tza t (Date.getDate tza t + 1)
  = Date.TimeClip (t + Date.msPerDay).
Proof.
  unfold Date.setDate, Date.getDate. f_equal.
  set (lt := Date.LocalTime tza t).
  pose proof (MonthFromTime_range lt) as M.
  unfold Date.MakeDay.
  rewrite (Z.div_small (Date.MonthFromTime lt) 12) by lia.
  rewrite (Z.mod_small (Date.MonthFromTime lt) 12) by lia.
  rewrite Z.add_0_r.
  unfold Date.DateFromTime, Date.InLeapYear, Date.DayWithinYear.
  unfold Date.MakeDate, Date.UTC, Date.TimeWithinDay, Date.Day.
  pose proof (Z.div_mod lt Date.msPerDay) as DM.
  assert (E : lt = t + tza) by reflexivity.
  unfold Date.msPerDay in *. lia.
Qed.

Lemma before_first_app (sep : N) (a b : jsstring) :
  Forall (fun c => c <> sep) a ->
  before_first sep (a ++ sep :: b) = a.
Proof.
  induction 1 as [|c a Hc _ IH]; cbn [before_first List.app].
  - rewrite N.eqb_refl. reflexivity.
  - destruct (N.eqb_spec c sep) as [E|_]; [contradiction|].
    f_equal. exact IH.
Qed.

Lemma Forall_digits_not (sep : N) (s : jsstring) :
  is_digit sep = false ->
  forallb is_digit s = true -> Forall (fun c => c <> sep) s.
Proof.
  intros Hs H. rewrite forallb_forall in H. apply Forall_forall.
  intros c Hc E. subst c. rewrite (H sep Hc) in Hs. discriminate.
Qed.

Lemma pad_digits (w : nat) (n : Z) : forallb is_digit (Date.pad w n) = true.
Proof.
  unfold Date.pad. rewrite forallb_app, dec_digits, andb_true_r.
  induction (w - List.length (Str.dec n))%nat; [reflexivity|exact IHn0].
Qed.

Lemma lit_no (sep : N) (s : string) :
  forallb (fun c => negb (c =? sep)%N) (Str.lit s) = true ->
  Forall (fun c => c <> sep) (Str.lit s).
Proof.
  intros H. rewrite forallb_forall in H. apply Forall_forall.
  intros c Hc E. apply H in Hc. subst c. rewrite N.eqb_refl in Hc.
  discriminate.
Qed.

Lemma date_text_no_T (t : Z) : Forall (fun c => c <> 84%N) (Date.date_text t).
Proof.
  assert (P : forall w n, Forall (fun c => c <> 84%N) (Date.pad w n)).
  { intros w n. apply Forall_digits_not; [reflexivity|apply pad_digits]. }
  unfold Date.date_text.
  apply Forall_app. split.
  { destruct (_ && _); [apply P|].
    apply Forall_app. split; [|apply P].
    destruct (_ <? _); apply lit_no; reflexivity. }
  apply Forall_app. split; [apply lit_no; reflexivity|].
  apply Forall_app. split; [apply P|].
  apply Forall_app. split; [apply lit_no; reflexivity|apply P].
Qed.

(** [getTomorrowDate] is the date, in UTC, of the instant one day
    after the clock reading. *)
Lemma getTomorrowDate_next (tza now : Z) :
  Z.abs (now + Date.msPerDay) <= 8640000000000000 ->
  getTomorrowDate tza now = Some (Date.date_text (now + Date.msPerDay)).
Proof.
  intros H. unfold getTomorrowDate. rewrite setDate_next.
  unfold Date.TimeClip.
  replace (Z.abs (now + Date.msPerDay) <=? 8640000000000000) with true
    by (symmetry; apply Z.leb_le; exact H).
  f_equal. unfold Date.toISOString.
  change ($"T" ++ Date.time_text (now + Date.msPerDay) ++ $"Z")
    with (84%N :: Date.time_text (now + Date.msPerDay) ++ $"Z").
  apply before_first_app, date_text_no_T.
Qed.

Lemma Day_next (t : Z) : Date.Day (t + Date.msPerDay) = Date.Day t + 1.
Proof.
  unfold Date.Day, Date.msPerDay.
  replace (t + 86400000) with (t + 1 * 86400000) by lia.
  rewrite Z.div_add by lia. reflexivity.
Qed.

(* ================================================================== *)
(** * Strings: [trim] and [toLowerCase] *)
(* ================================================================== *)

(** ** [trim] *)

Lemma trimStart_split (s : jsstring) :
  exists l, s = l ++ Str.trimStart s /\ forallb Str.is_space l = true.
Proof.
  induction s as [|c s [l [E H]]]; [exists []; split; reflexivity|].
  cbn [Str.trimStart]. destruct (Str.is_space c) eqn:S.
  - exists (c :: l). split; [cbn; f_equal; exact E|].
    cbn [forallb]. rewrite S. exact H.
  - exists []. split; reflexivity.
Qed.

Lemma trimStart_first (s : jsstring) (c : N) (t : jsstring) :
  Str.trimStart s = c :: t -> Str.is_space c = false.
Proof.
  induction s as [|x s IH]; [discriminate|].
  cbn [Str.trimStart]. destruct (Str.is_space x) eqn:S; [exact IH|].
  intros E. injection E as <- _. exact S.
Qed.

Lemma trimStart_keeps (a b : jsstring) (c : N) :
  Str.is_space c = false ->
  Str.trimStart (a ++ c :: b) = Str.trimStart a ++ c :: b.
Proof.
  intros S. induction a as [|x a IH].
  - cbn [List.app Str.trimStart]. rewrite S. reflexivity.
  - cbn [List.app Str.trimStart]. destruct (Str.is_space x); [exact IH|].
    reflexivity.
Qed.

Lemma trimEnd_split (s : jsstring) :
  exists r, s = Str.trimEnd s ++ r /\ forallb Str.is_space r = true.
Proof.
  unfold Str.trimEnd. destruct (trimStart_split (List.rev s)) as [l [E H]].
  exists (List.rev l). split.
  - rewrite <- List.rev_app_distr, <- E, List.rev_involutive. reflexivity.
  - rewrite forallb_forall in *. intros x Hx. apply H.
    apply List.in_rev. exact Hx.
Qed.

Lemma trimEnd_last (s t : jsstring) (c : N) :
  Str.trimEnd s = t ++ [c] -> Str.is_space c = false.
Proof.
  unfold Str.trimEnd. intros E.
  apply (f_equal (@List.rev N)) in E.
  rewrite List.rev_involutive, List.rev_app_distr in E. cbn in E.
  exact (trimStart_first _ _ _ E).
Qed.

Lemma trimEnd_first (s : jsstring) (c : N) (t : jsstring) :
  (forall x u, s = x :: u -> Str.is_space x = false) ->
  Str.trimEnd s = c :: t -> Str.is_space c = false.
Proof.
  intros Hs. destruct s as [|x u]; [discriminate|].
  pose proof (Hs x u eq_refl) as Sx.
  unfold Str.trimEnd. cbn [List.rev].
  rewrite trimStart_keeps by exact Sx.
  rewrite List.rev_app_distr. cbn [List.rev List.app].
  intros E. injection E as <- _. exact Sx.
Qed.

(** [trim] removes white space at both ends, and all of it. *)
Lemma trim_spec (s : jsstring) :
  (exists l r, s = l ++ Str.trim s ++ r
               /\ forallb Str.is_space l = true
               /\ forallb Str.is_space r = true)
  /\ (forall c t, Str.trim s = c :: t -> Str.is_space c = false)
  /\ (forall c t, Str.trim s = t ++ [c] -> Str.is_space c = false).
Proof.
  unfold Str.trim. split; [|split].
  - destruct (trimStart_split s) as [l [E Hl]].
    destruct (trimEnd_split (Str.trimStart s)) as [r [E' Hr]].
    exists l, r. split; [|split; assumption].
    rewrite <- E'. exact E.
  - intros c t. apply trimEnd_first. intros x u.
    apply trimStart_first.
  - intros c t. apply trimEnd_last.
Qed.

(** ** [toLowerCase] *)

Lemma code_points_plain (s : jsstring) :
  forallb (fun c => negb (Unicode.is_high c)) s = true ->
  Unicode.code_points s = s.
Proof.
  induction s as [|h s IH]; [reflexivity|].
  cbn [forallb]. intros H. apply andb_prop in H as [Hh Hs].
  apply negb_true_iff in Hh. cbn [Unicode.code_points].
  destruct s as [|l s']; [reflexivity|].
  rewrite Hh. cbn [andb]. f_equal. exact (IH Hs).
Qed.

Lemma code_units_plain (l : list N) :
  forallb (fun c => (c <? 65536)%N) l = true -> Unicode.code_units l = l.
Proof.
  induction l as [|c l IH]; [reflexivity|].
  cbn [forallb]. intros H. apply andb_prop in H as [Hc Hl].
  unfold Unicode.code_units in *. cbn [List.flat_map].
  unfold Unicode.units_of at 1. rewrite Hc. cbn [List.app].
  f_equal. exact (IH Hl).
Qed.

Lemma lower_from_simple (before l : list N) :
  forallb one_lower l = true ->
  Unicode.lower_from before l = List.map Unicode.simple_lower l.
Proof.
  revert before. induction l as [|c l IH]; intros before H; [reflexivity|].
  cbn [forallb] in H. apply andb_prop in H as [Hc Hl].
  unfold one_lower in Hc. apply andb_prop in Hc as [H1 H2].
  apply negb_true_iff in H1, H2.
  cbn [Unicode.lower_from List.map]. unfold Unicode.lower_point.
  rewrite H1, H2. cbn [List.app]. f_equal. apply IH, Hl.
Qed.

Lemma N_below (n : nat) (c : N) :
  (c < N.of_nat n)%N -> In c (List.map N.of_nat (List.seq 0 n)).
Proof.
  intros H. apply List.in_map_iff. exists (N.to_nat c).
  split; [lia|]. apply List.in_seq. lia.
Qed.

Lemma latin1_lower_enumerated :
  forallb (fun c => (Unicode.simple_lower c =? latin1_lower c)%N)
    (List.map N.of_nat (List.seq 0 256)) = true.
Proof. vm_compute. reflexivity. Qed.

Lemma simple_lower_latin1 (c : N) :
  (c < 256)%N -> Unicode.simple_lower c = latin1_lower c.
Proof.
  intros H. pose proof latin1_lower_enumerated as E.
  rewrite forallb_forall in E. apply N.eqb_eq, E.
  apply (N_below 256). exact H.
Qed.

(** On a string of characters below U+0100 [toLowerCase] lowers the
    capital letters and leaves the rest. *)
Lemma toLowerCase_latin1 (s : jsstring) :
  forallb (fun c => (c <? 256)%N) s = true ->
  Str.toLowerCase s = List.map latin1_lower s.
Proof.
  intros H. unfold Str.toLowerCase, Unicode.toLowercase.
  assert (B : forall c, In c s -> (c < 256)%N).
  { intros c Hc. rewrite forallb_forall in H. apply N.ltb_lt, H, Hc. }
  rewrite code_points_plain.
  2:{ apply forallb_forall. intros c Hc. specialize (B c Hc).
      unfold Unicode.is_high. apply negb_true_iff, andb_false_iff.
      left. apply N.leb_gt. lia. }
  rewrite lower_from_simple.
  2:{ apply forallb_forall. intros c Hc. specialize (B c Hc).
      unfold one_lower. apply andb_true_intro.
      split; apply negb_true_iff, N.eqb_neq; lia. }
  rewrite code_units_plain.
  2:{ apply forallb_forall. intros c Hc.
      apply List.in_map_iff in Hc as [x [<- Hx]]. specialize (B x Hx).
      rewrite simple_lower_latin1 by exact B. apply N.ltb_lt.
      unfold latin1_lower. destruct (_ || _); lia. }
  apply List.map_ext_in. intros c Hc. apply simple_lower_latin1, B, Hc.
Qed.

Lemma space_cases (c : N) :
  Str.is_space c = true ->
  In c [9; 10; 11; 12; 13; 32; 160; 5760; 8192; 8193; 8194; 8195; 8196;
        8197; 8198; 8199; 8200; 8201; 8202; 8232; 8233; 8239; 8287;
        12288; 65279]%N.
Proof.
  unfold Str.is_space. intros H.
  repeat match type of H with
         | (_ || _) = true => apply orb_prop in H as [H|H]
         end;
    repeat match type of H with
           | (_ && _) = true =>
               let A := fresh in let B := fresh in
               apply andb_prop in H as [A B];
               apply N.leb_le in A; apply N.leb_le in B
           | (_ =? _)%N = true => apply N.eqb_eq in H; subst c
           end;
    try (cbn; tauto).
  - assert (C : (c = 9 \/ c = 10 \/ c = 11 \/ c = 12 \/ c = 13)%N) by lia.
    cbn. intuition congruence.
  - assert (C : (8192 <= c <= 8202)%N) by lia.
    assert (D : exists k, (k <= 10)%nat /\ c = (8192 + N.of_nat k)%N)
      by (exists (N.to_nat (c - 8192)); lia).
    destruct D as [k [Hk ->]].
    do 11 (destruct k as [|k]; [cbn; tauto|]). lia.
Qed.

Lemma space_fixed (c : N) :
  Str.is_space c = true ->
  Unicode.simple_lower c = c /\ one_lower c = true
  /\ Unicode.is_high c = false /\ (c <? 65536)%N = true.
Proof.
  intros H. apply space_cases in H. cbn [In] in H.
  repeat (destruct H as [<-|H]; [vm_compute; repeat split|]).
  destruct H.
Qed.

(** [toLowerCase] leaves white space as it is. *)
Lemma toLowerCase_blank (s : jsstring) :
  forallb Str.is_space s = true -> Str.toLowerCase s = s.
Proof.
  intros H. rewrite forallb_forall in H.
  unfold Str.toLowerCase, Unicode.toLowercase.
  rewrite code_points_plain.
  2:{ apply forallb_forall. intros c Hc. apply negb_true_iff.
      apply (space_fixed c (H c Hc)). }
  rewrite lower_from_simple.
  2:{ apply forallb_forall. intros c Hc. apply (space_fixed c (H c Hc)). }
  assert (M : List.map Unicode.simple_lower s = s).
  { rewrite <- (List.map_id s) at 2. apply List.map_ext_in.
    intros c Hc. apply (space_fixed c (H c Hc)). }
  rewrite M. apply code_units_plain.
  apply forallb_forall. intros c Hc. apply (space_fixed c (H c Hc)).
Qed.

(* ================================================================== *)
(** * Cache Orchestrator *)
(* ================================================================== *)

Ltac run_handler :=
  cbv [run fetch try_block bind ret read_cache write_cache emit await
       when return_ throw];
  cbn [fst snd cache trace List.app].

Lemma unit_tt (u : unit) : u = tt.
Proof. destruct u. reflexivity. Qed.

(** A hit is answered from the cache, with no other call. *)
Lemma run_hit (w : World) (request : Request) (c : Cache) (r : Response) :
  cache_match c (cache_key request) = Some r ->
  run w request c
  = (r, {| cache := c; trace := [EvCacheMatch (cache_key request)] |}).
Proof. intros H. run_handler. rewrite H. reflexivity. Qed.

(** A miss with no token is answered by the [catch] branch. *)
Lemma run_token_failure (w : World) (request : Request) (c : Cache)
    (e : Error) :
  cache_match c (cache_key request) = None ->
  token_failure w e ->
  run w request c
  = (internal_error w e,
     {| cache := c;
        trace := EvCacheMatch (cache_key request)
                 :: match credentials w with
                    | Returns _ => [EvGetToken scopes]
                    | Throws _ => []
                    end |}).
Proof.
  intros Hm Hf. run_handler. rewrite Hm.
  destruct Hf as [Hc|[Hc [Ht|[Ht ->]]]]; rewrite Hc; cbn [trace cache].
  - reflexivity.
  - rewrite Ht. reflexivity.
  - rewrite Ht. reflexivity.
Qed.

(** A miss with a token and a method other than GET. *)
Lemma run_method_not_allowed (w : World) (request : Request) (c : Cache)
    (token : jsstring) :
  cache_match c (cache_key request) = None ->
  credentials w = Returns tt ->
  getGoogleAuthToken w = Returns (Some token) ->
  Str.eqb (method request) $"GET" = false ->
  run w request c
  = (method_not_allowed,
     {| cache := c;
        trace := [EvCacheMatch (cache_key request); EvGetToken scopes] |}).
Proof.
  intros Hm Hc Ht Hg. run_handler. rewrite Hm, Hc. cbn [trace cache].
  rewrite Ht, Hg. reflexivity.
Qed.

(** A miss with a token, the method GET and no usable [page_path]. *)
Lemma run_page_path_missing (w : World) (request : Request) (c : Cache)
    (token : jsstring) :
  cache_match c (cache_key request) = None ->
  credentials w = Returns tt ->
  getGoogleAuthToken w = Returns (Some token) ->
  Str.eqb (method request) $"GET" = true ->
  falsy (find_page_path (searchParams request)) = true ->
  run w request c
  = (page_path_not_available,
     {| cache := c;
        trace := [EvCacheMatch (cache_key request); EvGetToken scopes] |}).
Proof.
  intros Hm Hc Ht Hg Hp. run_handler. rewrite Hm, Hc. cbn [trace cache].
  rewrite Ht, Hg, Hp. reflexivity.
Qed.

Lemma falsy_nonempty (p : jsstring) : p <> [] -> falsy (Some p) = false.
Proof. destruct p; [congruence|reflexivity]. Qed.

(** An admitted request calls the backend, once, and what follows
    depends on the answer. *)
Lemma run_admitted (w : World) (request : Request) (c : Cache)
    (token page_path : jsstring) :
  admitted w request c token page_path ->
  let k := cache_key request in
  let call := report_call w token page_path in
  let before := [EvCacheMatch k; EvGetToken scopes; EvBackendFetch call] in
  run w request c =
    match backend w call with
    | Throws e => (internal_error w e, {| cache := c; trace := before |})
    | Returns analyticsResponse =>
        if ok analyticsResponse then
          match json analyticsResponse with
          | Throws e =>
              (internal_error w e, {| cache := c; trace := before |})
          | Returns data =>
              match all_defined (getValues data $"dimensionValues") with
              | None =>
                  (internal_error w TypeError_replace,
                   {| cache := c; trace := before |})
              | Some metadata =>
                  let response :=
                    badge_response
                      (generateBadge $"readers" (formatNumber (counts data))
                                     metadata) in
                  (response,
                   {| cache := cache_put c k response;
                      trace := before ++ [EvCachePut k response] |})
              end
          end
        else
          match text analyticsResponse with
          | Throws e =>
              (internal_error w e, {| cache := c; trace := before |})
          | Returns errorText =>
              (upstream_error errorText,
               {| cache := c; trace := before |})
          end
    end.
Proof.
  intros [Hm Hc Ht Hg Hp Hn Hk]. intros k call before.
  run_handler. rewrite Hm, Hc. cbn [trace cache].
  rewrite Ht, Hg, Hp, (falsy_nonempty _ Hn).
  cbn [negb]. cbv iota.
  rewrite (getTomorrowDate_next _ _ Hk). cbn [trace cache List.app].
  subst call before k. unfold report_call.
  destruct (backend w _) as [resp|e]; [|reflexivity].
  destruct (ok resp); cbn [negb].
  - destruct (json resp) as [data|e]; [|reflexivity].
    destruct (all_defined _); reflexivity.
  - destruct (text resp); reflexivity.
Qed.

(** A miss that passes the checks while the clock is out of range. *)
Lemma run_range_error (w : World) (request : Request) (c : Cache)
    (token page_path : jsstring) :
  cache_match c (cache_key request) = None ->
  credentials w = Returns tt ->
  getGoogleAuthToken w = Returns (Some token) ->
  Str.eqb (method request) $"GET" = true ->
  find_page_path (searchParams request) = Some page_path ->
  page_path <> [] ->
  8640000000000000 < Z.abs (now w + Date.msPerDay) ->
  run w request c
  = (internal_error w RangeError_date,
     {| cache := c;
        trace := [EvCacheMatch (cache_key request); EvGetToken scopes] |}).
Proof.
  intros Hm Hc Ht Hg Hp Hn Hk. run_handler. rewrite Hm, Hc.
  cbn [trace cache]. rewrite Ht, Hg, Hp, (falsy_nonempty _ Hn).
  cbn [negb]. cbv iota.
  unfold getTomorrowDate. rewrite setDate_next. unfold Date.TimeClip.
  replace (Z.abs (now w + Date.msPerDay) <=? 8640000000000000) with false
    by (symmetry; apply Z.leb_gt; exact Hk).
  reflexivity.
Qed.

Lemma run_served (w : World) (request : Request) (c : Cache) :
  served w request c (fst (run w request c)) (snd (run w request c)).
Proof.
  destruct (cache_match c (cache_key request)) as [r|] eqn:Hm.
  { rewrite (run_hit w request c r Hm). apply served_hit, Hm. }
  destruct (credentials w) as [u|e] eqn:Hc.
  2:{ rewrite (run_token_failure w request c e Hm) by (left; exact Hc).
      rewrite Hc. apply served_token_failure; auto. left. exact Hc. }
  rewrite (unit_tt u) in Hc.
  destruct (getGoogleAuthToken w) as [[token|]|e] eqn:Ht.
  2:{ rewrite (run_token_failure w request c
                 (new_Error $"generating Google auth token failed") Hm)
        by (right; auto).
      rewrite Hc. apply served_token_failure; auto. right. auto. }
  2:{ rewrite (run_token_failure w request c e Hm) by (right; auto).
      rewrite Hc. apply served_token_failure; auto. right. auto. }
  destruct (Str.eqb (method request) $"GET") eqn:Hg.
  2:{ rewrite (run_method_not_allowed w request c token Hm Hc Ht Hg).
      eapply served_method; eauto. }
  destruct (falsy (find_page_path (searchParams request))) eqn:Hp.
  { rewrite (run_page_path_missing w request c token Hm Hc Ht Hg Hp).
    eapply served_page_path; eauto. }
  destruct (find_page_path (searchParams request)) as [[|x p]|] eqn:Hf;
    try discriminate Hp.
  destruct (Z_le_gt_dec (Z.abs (now w + Date.msPerDay)) 8640000000000000)
    as [Hk|Hk].
  - apply (served_admitted w request c token (x :: p)).
    constructor; auto. discriminate.
  - rewrite (run_range_error w request c token (x :: p)); auto;
      [|discriminate|lia].
    eapply served_clock; eauto. lia.
Qed.

(** A cache write ends a successful render. *)
Lemma run_put (w : World) (request : Request) (c : Cache)
    (k : CacheKey) (r : Response) :
  In (EvCachePut k r) (trace (snd (run w request c))) ->
  exists token page_path analyticsResponse data metadata,
    admitted w request c token page_path
    /\ backend w (report_call w token page_path) = Returns analyticsResponse
    /\ ok analyticsResponse = true
    /\ json analyticsResponse = Returns data
    /\ all_defined (getValues data $"dimensionValues") = Some metadata
    /\ r = badge_response
             (generateBadge $"readers" (formatNumber (counts data)) metadata)
    /\ k = cache_key request
    /\ run w request c
       = (r, {| cache := cache_put c k r;
                trace := [EvCacheMatch k; EvGetToken scopes;
                          EvBackendFetch (report_call w token page_path);
                          EvCachePut k r] |}).
Proof.
  intros Hin.
  pose proof (run_served w request c) as S.
  remember (fst (run w request c)) as resp eqn:E1.
  remember (snd (run w request c)) as st' eqn:E2.
  destruct S as [r0 Hm|e evs Hm Hf Hevs|token Hm Hc Ht Hg|token Hm Hc Ht Hg Hp
                |token Hm Hc Ht Hk|token page_path Ha];
    cbn [trace] in Hin.
  - destruct Hin as [Hin|[]]; discriminate Hin.
  - destruct Hevs as [-> | ->]; cbn in Hin;
      repeat (destruct Hin as [Hin|Hin]; [discriminate Hin|]); destruct Hin.
  - repeat (destruct Hin as [Hin|Hin]; [discriminate Hin|]); destruct Hin.
  - repeat (destruct Hin as [Hin|Hin]; [discriminate Hin|]); destruct Hin.
  - repeat (destruct Hin as [Hin|Hin]; [discriminate Hin|]); destruct Hin.
  - pose proof (run_admitted w request c token page_path Ha) as R.
    cbv zeta in R.
    destruct (backend w (report_call w token page_path)) as [resp0|e] eqn:Hb.
    2:{ rewrite R in Hin. cbn in Hin.
        repeat (destruct Hin as [Hin|Hin]; [discriminate Hin|]); destruct Hin. }
    destruct (ok resp0) eqn:Hok.
    2:{ destruct (text resp0); rewrite R in Hin; cbn in Hin;
          repeat (destruct Hin as [Hin|Hin]; [discriminate Hin|]);
          destruct Hin. }
    destruct (json resp0) as [data|e] eqn:Hj.
    2:{ rewrite R in Hin. cbn in Hin.
        repeat (destruct Hin as [Hin|Hin]; [discriminate Hin|]); destruct Hin. }
    destruct (all_defined (getValues data $"dimensionValues"))
      as [metadata|] eqn:Hd.
    2:{ rewrite R in Hin. cbn in Hin.
        repeat (destruct Hin as [Hin|Hin]; [discriminate Hin|]); destruct Hin. }
    rewrite R in Hin. cbn [snd trace List.app] in Hin.
    repeat (destruct Hin as [Hin|Hin]; [try discriminate Hin|]);
      [|destruct Hin].
    injection Hin as <- <-.
    exists token, page_path, resp0, data, metadata.
    split; [exact Ha|]. repeat split; auto.
Qed.

Lemma no_put_cache (w : World) (request : Request) (c : Cache) :
  (forall k r, ~ In (EvCachePut k r) (trace (snd (run w request c)))) ->
  cache (snd (run w request c)) = c.
Proof.
  intros Hno.
  pose proof (run_served w request c) as S.
  remember (fst (run w request c)) as resp eqn:E1.
  remember (snd (run w request c)) as st' eqn:E2.
  destruct S as [r0 Hm|e evs Hm Hf Hevs|token Hm Hc Ht Hg|token Hm Hc Ht Hg Hp
                |token Hm Hc Ht Hk|token page_path Ha];
    try reflexivity.
  pose proof (run_admitted w request c token page_path Ha) as R.
  cbv zeta in R.
  destruct (backend w (report_call w token page_path)) as [resp0|e];
    [|rewrite R; reflexivity].
  destruct (ok resp0).
  2:{ destruct (text resp0); rewrite R; reflexivity. }
  destruct (json resp0) as [data|e]; [|rewrite R; reflexivity].
  destruct (all_defined (getValues data $"dimensionValues"))
    as [metadata|]; [|rewrite R; reflexivity].
  exfalso. rewrite R in Hno. cbn [snd trace List.app] in Hno.
  eapply Hno. right. right. right. left. reflexivity.
Qed.

(** C2: the cache is written only at the end of a successful render;
    a response whose status is not 200 leaves the cache as it was; a
    backend answer that is not ok gives status 500 with the error body
    of the backend and no write. *)
Theorem cache_written_only_on_success
    (w : World) (request : Request) (c : Cache) :
  let response := fst (run w request c) in
  let st' := snd (run w request c) in
  (forall k r, In (EvCachePut k r) (trace st') ->
     r = response /\ status response = 200 /\ rendered response
     /\ k = cache_key request
     /\ exists token page_path analyticsResponse data metadata,
          admitted w request c token page_path
          /\ backend w (report_call w token page_path)
             = Returns analyticsResponse
          /\ ok analyticsResponse = true
          /\ json analyticsResponse = Returns data
          /\ all_defined (getValues data $"dimensionValues") = Some metadata)
  /\ ((forall k r, ~ In (EvCachePut k r) (trace st')) -> cache st' = c)
  /\ (status response <> 200 ->
        cache st' = c /\ forall k r, ~ In (EvCachePut k r) (trace st'))
  /\ (forall token page_path analyticsResponse,
        admitted w request c token page_path ->
        backend w (report_call w token page_path)
        = Returns analyticsResponse ->
        ok analyticsResponse = false ->
        status response = 500
        /\ cache st' = c
        /\ (forall k r, ~ In (EvCachePut k r) (trace st'))
        /\ (forall errorText,
              text analyticsResponse = Returns errorText ->
              response = upstream_error errorText
              /\ body response = JSON.stringify_error_indented errorText)).
Proof.
  intros response st'.
  assert (P1 : forall k r, In (EvCachePut k r) (trace st') ->
     r = response /\ status response = 200 /\ rendered response
     /\ k = cache_key request
     /\ exists token page_path analyticsResponse data metadata,
          admitted w request c token page_path
          /\ backend w (report_call w token page_path)
             = Returns analyticsResponse
          /\ ok analyticsResponse = true
          /\ json analyticsResponse = Returns data
          /\ all_defined (getValues data $"dimensionValues") = Some metadata).
  { intros k r Hin.
    destruct (run_put w request c k r Hin)
      as [token [page_path [resp [data [md [Ha [Hb [Hok [Hj [Hd [Hr [Hk R]]]]]]]]]]]].
    unfold response. rewrite R. cbn [fst].
    split; [reflexivity|]. split; [rewrite Hr; reflexivity|].
    split; [rewrite Hr; eexists; eexists; reflexivity|].
    split; [exact Hk|].
    exists token, page_path, resp, data, md.
    split; [exact Ha|]. repeat split; auto. }
  split; [exact P1|].
  split; [apply no_put_cache|].
  split.
  { intros Hs.
    assert (N : forall k r, ~ In (EvCachePut k r) (trace st')).
    { intros k r Hin. destruct (P1 k r Hin) as [_ [H200 _]]. contradiction. }
    split; [apply no_put_cache; exact N|exact N]. }
  intros token page_path resp Ha Hb Hok.
  pose proof (run_admitted w request c token page_path Ha) as R.
  cbv zeta in R. rewrite Hb, Hok in R.
  unfold response, st'.
  destruct (text resp) as [t|e] eqn:Ht; rewrite R; cbn [fst snd cache trace].
  - split; [reflexivity|]. split; [reflexivity|]. split.
    + intros k r Hin. cbn in Hin.
      repeat (destruct Hin as [Hin|Hin]; [discriminate Hin|]); destruct Hin.
    + intros t' E. injection E as <-. split; reflexivity.
  - split; [reflexivity|]. split; [reflexivity|]. split.
    + intros k r Hin. cbn in Hin.
      repeat (destruct Hin as [Hin|Hin]; [discriminate Hin|]); destruct Hin.
    + intros t' E. discriminate E.
Qed.

Lemma admitted_sample (w : World) :
  credentials w = Returns tt ->
  getGoogleAuthToken w = Returns (Some $"token") ->
  now w = 1730505600000 ->
  admitted w get_post [] $"token" $"Post".
Proof.
  intros Hc Ht Hn. constructor; try assumption; try reflexivity.
  - discriminate.
  - rewrite Hn. vm_compute. discriminate.
Qed.

Lemma cache_written_only_on_success_witness :
  let k := cache_key get_post in
  let r := fst (run world_ok get_post []) in
  (In (EvCachePut k r) (trace (snd (run world_ok get_post [])))
   /\ status r = 200)
  /\ (status (fst (run world_no_token post_post [])) <> 200
      /\ cache (snd (run world_no_token post_post [])) = [])
  /\ (admitted world_refused get_post [] $"token" $"Post"
      /\ status (fst (run world_refused get_post [])) = 500
      /\ cache (snd (run world_refused get_post [])) = []
      /\ body (fst (run world_refused get_post []))
         = JSON.stringify_error_indented $"quota exceeded").
Proof.
  intros k r.
  assert (Hin : In (EvCachePut k r) (trace (snd (run world_ok get_post []))))
    by (vm_compute; right; right; right; left; reflexivity).
  assert (Hs : status (fst (run world_no_token post_post [])) <> 200)
    by (vm_compute; discriminate).
  assert (Ha : admitted world_refused get_post [] $"token" $"Post")
    by (apply admitted_sample; reflexivity).
  destruct (cache_written_only_on_success world_ok get_post [])
    as [P1 _].
  destruct (cache_written_only_on_success world_no_token post_post [])
    as [_ [_ [P3 _]]].
  destruct (cache_written_only_on_success world_refused get_post [])
    as [_ [_ [_ P4]]].
  split.
  { split; [exact Hin|]. exact (proj1 (proj2 (P1 k r Hin))). }
  split.
  { split; [exact Hs|]. exact (proj1 (P3 Hs)). }
  destruct (P4 $"token" $"Post"
              {| ok := false; text := Returns $"quota exceeded";
                 json := Throws (new_Error $"Unexpected token") |}
              Ha eq_refl eq_refl) as [S [C [_ T]]].
  split; [exact Ha|]. split; [exact S|]. split; [exact C|].
  exact (proj2 (T $"quota exceeded" eq_refl)).
Defined.

(** C9: on a miss the token is acquired before the method and the
    [page_path] are looked at: when the acquisition fails the answer is
    the status 500 of the [catch] branch, with its JSON body, whatever
    the method and the parameters, and never the status 405. *)
Theorem token_acquired_before_validation
    (w : World) (request : Request) (c : Cache) :
  cache_match c (cache_key request) = None ->
  (credentials w = Returns tt ->
     exists rest,
       trace (snd (run w request c))
       = [EvCacheMatch (cache_key request); EvGetToken scopes] ++ rest)
  /\ (forall e, token_failure w e ->
        let response := fst (run w request c) in
        response = internal_error w e
        /\ status response = 500
        /\ status response <> 405
        /\ headers response = [ ($"Content-Type", $"application/json") ]
        /\ body response
           = JSON.stringify_error_timestamp (error_text e)
               (Date.toISOString (now_at_catch w))
        /\ cache (snd (run w request c)) = c
        /\ forallb (fun ev => negb (is_backend_fetch ev))
             (trace (snd (run w request c))) = true).
Proof.
  intros Hm. split.
  - intros Hc.
    destruct (getGoogleAuthToken w) as [[token|]|e] eqn:Ht.
    2:{ rewrite (run_token_failure w request c
                   (new_Error $"generating Google auth token failed") Hm)
          by (right; auto).
        rewrite Hc. exists []. reflexivity. }
    2:{ rewrite (run_token_failure w request c e Hm) by (right; auto).
        rewrite Hc. exists []. reflexivity. }
    destruct (Str.eqb (method request) $"GET") eqn:Hg.
    2:{ rewrite (run_method_not_allowed w request c token Hm Hc Ht Hg).
        exists []. reflexivity. }
    destruct (falsy (find_page_path (searchParams request))) eqn:Hp.
    { rewrite (run_page_path_missing w request c token Hm Hc Ht Hg Hp).
      exists []. reflexivity. }
    destruct (find_page_path (searchParams request)) as [[|x p]|] eqn:Hf;
      try discriminate Hp.
    destruct (Z_le_gt_dec (Z.abs (now w + Date.msPerDay)) 8640000000000000)
      as [Hk|Hk].
    + assert (Ha : admitted w request c token (x :: p))
        by (constructor; auto; discriminate).
      pose proof (run_admitted w request c token (x :: p) Ha) as R.
      cbv zeta in R. rewrite R.
      destruct (backend w _) as [resp0|e]; [|eexists; reflexivity].
      destruct (ok resp0).
      * destruct (json resp0); [|eexists; reflexivity].
        destruct (all_defined _); eexists; reflexivity.
      * destruct (text resp0); eexists; reflexivity.
    + rewrite (run_range_error w request c token (x :: p)); auto;
        [|discriminate|lia].
      exists []. reflexivity.
  - intros e Hf response.
    unfold response. rewrite (run_token_failure w request c e Hm Hf).
    cbn [fst snd cache trace].
    repeat split; try reflexivity; try discriminate.
    destruct (credentials w); reflexivity.
Qed.

Lemma token_acquired_before_validation_witness :
  cache_match [] (cache_key post_post) = None
  /\ token_failure world_no_token
       (new_Error $"generating Google auth token failed")
  /\ status (fst (run world_no_token post_post [])) = 500
  /\ status (fst (run world_no_token get_nothing [])) = 500.
Proof.
  assert (F : token_failure world_no_token
                (new_Error $"generating Google auth token failed"))
    by (right; split; [reflexivity|right; split; reflexivity]).
  split; [reflexivity|]. split; [exact F|].
  split.
  - exact (proj1 (proj2 (proj2 (token_acquired_before_validation
             world_no_token post_post [] eq_refl) _ F))).
  - exact (proj1 (proj2 (proj2 (token_acquired_before_validation
             world_no_token get_nothing [] eq_refl) _ F))).
Defined.

(** C3 as stated fails: a POST that misses the cache while no token is
    returned is answered with status 500, not 405. *)
Lemma validation_405_counterexample :
  ~ (forall (w : World) (request : Request) (c : Cache),
       cache_match c (cache_key request) = None ->
       Str.eqb (method request) $"GET" = false ->
       status (fst (run w request c)) = 405).
Proof.
  intros H.
  specialize (H world_no_token post_post [] eq_refl eq_refl).
  vm_compute in H. discriminate H.
Qed.

Lemma internal_error_backend (w : World) b (e : Error) :
  internal_error (with_backend w b) e = internal_error w e.
Proof. reflexivity. Qed.

(** C3, amended: on a miss for which a token was acquired, a method
    other than GET is answered with status 405, and so is a GET whose
    [page_path] is absent or empty, with a plain text body; neither
    calls the backend.  Whatever happens to the token, a request whose
    method is not GET makes no backend call and its response does not
    depend on the backend. *)
Theorem validation_before_backend
    (w : World) (request : Request) (c : Cache) :
  (forall token,
     cache_match c (cache_key request) = None ->
     credentials w = Returns tt ->
     getGoogleAuthToken w = Returns (Some token) ->
     (Str.eqb (method request) $"GET" = false ->
        fst (run w request c) = method_not_allowed
        /\ status (fst (run w request c)) = 405
        /\ forallb (fun ev => negb (is_backend_fetch ev))
             (trace (snd (run w request c))) = true)
     /\ (Str.eqb (method request) $"GET" = true ->
         find_page_path (searchParams request) = None
         \/ find_page_path (searchParams request) = Some [] ->
         fst (run w request c) = page_path_not_available
         /\ status (fst (run w request c)) = 405
         /\ body (fst (run w request c)) = $"page_path not available"
         /\ forallb (fun ev => negb (is_backend_fetch ev))
              (trace (snd (run w request c))) = true))
  /\ (Str.eqb (method request) $"GET" = false ->
      forallb (fun ev => negb (is_backend_fetch ev))
        (trace (snd (run w request c))) = true
      /\ forall b,
           fst (run (with_backend w b) request c) = fst (run w request c)).
Proof.
  split.
  - intros token Hm Hc Ht. split.
    + intros Hg.
      rewrite (run_method_not_allowed w request c token Hm Hc Ht Hg).
      repeat split.
    + intros Hg Hp.
      assert (F : falsy (find_page_path (searchParams request)) = true)
        by (destruct Hp as [-> | ->]; reflexivity).
      rewrite (run_page_path_missing w request c token Hm Hc Ht Hg F).
      repeat split.
  - intros Hg.
    destruct (cache_match c (cache_key request)) as [r|] eqn:Hm.
    { split; [rewrite (run_hit w request c r Hm); reflexivity|].
      intros b. rewrite (run_hit (with_backend w b) request c r Hm).
      rewrite (run_hit w request c r Hm). reflexivity. }
    destruct (credentials w) as [u|e] eqn:Hc.
    2:{ assert (F : token_failure w e) by (left; exact Hc).
        assert (F' : forall b, token_failure (with_backend w b) e)
          by (intros b; left; exact Hc).
        split.
        - rewrite (run_token_failure w request c e Hm F), Hc. reflexivity.
        - intros b.
          rewrite (run_token_failure (with_backend w b) request c e Hm (F' b)).
          rewrite (run_token_failure w request c e Hm F).
          reflexivity. }
    rewrite (unit_tt u) in Hc.
    destruct (getGoogleAuthToken w) as [[token|]|e] eqn:Ht.
    + split.
      * rewrite (run_method_not_allowed w request c token Hm Hc Ht Hg).
        reflexivity.
      * intros b.
        rewrite (run_method_not_allowed (with_backend w b) request c token
                   Hm Hc Ht Hg).
        rewrite (run_method_not_allowed w request c token Hm Hc Ht Hg).
        reflexivity.
    + set (e := new_Error $"generating Google auth token failed").
      assert (F : token_failure w e) by (right; auto).
      assert (F' : forall b, token_failure (with_backend w b) e)
        by (intros b; right; auto).
      split.
      * rewrite (run_token_failure w request c e Hm F), Hc. reflexivity.
      * intros b.
        rewrite (run_token_failure (with_backend w b) request c e Hm (F' b)).
        rewrite (run_token_failure w request c e Hm F).
        reflexivity.
    + assert (F : token_failure w e) by (right; auto).
      assert (F' : forall b, token_failure (with_backend w b) e)
        by (intros b; right; auto).
      split.
      * rewrite (run_token_failure w request c e Hm F), Hc. reflexivity.
      * intros b.
        rewrite (run_token_failure (with_backend w b) request c e Hm (F' b)).
        rewrite (run_token_failure w request c e Hm F).
        reflexivity.
Qed.

Lemma validation_before_backend_witness :
  (cache_match [] (cache_key post_post) = None
   /\ Str.eqb (method post_post) $"GET" = false
   /\ status (fst (run world_ok post_post [])) = 405)
  /\ (Str.eqb (method get_nothing) $"GET" = true
      /\ find_page_path (searchParams get_nothing) = None
      /\ status (fst (run world_ok get_nothing [])) = 405
      /\ body (fst (run world_ok get_nothing [])) = $"page_path not available")
  /\ forall b,
       fst (run (with_backend world_no_token b) post_post [])
       = fst (run world_no_token post_post []).
Proof.
  destruct (validation_before_backend world_ok post_post []) as [P _].
  destruct (P $"token" eq_refl eq_refl eq_refl) as [P1 _].
  destruct (validation_before_backend world_ok get_nothing []) as [Q _].
  destruct (Q $"token" eq_refl eq_refl eq_refl) as [_ Q2].
  destruct (validation_before_backend world_no_token post_post [])
    as [_ R].
  split.
  { split; [reflexivity|]. split; [reflexivity|].
    exact (proj1 (proj2 (P1 eq_refl))). }
  split.
  { split; [reflexivity|]. split; [reflexivity|].
    destruct (Q2 eq_refl (or_introl eq_refl)) as [_ [S [B _]]].
    split; [exact S|exact B]. }
  exact (proj2 (R eq_refl)).
Defined.

(** Every call to the backend is the call of an admitted request. *)
Lemma run_backend_fetch (w : World) (request : Request) (c : Cache)
    (call : BackendCall) :
  In (EvBackendFetch call) (trace (snd (run w request c))) ->
  exists token page_path,
    admitted w request c token page_path
    /\ call = report_call w token page_path.
Proof.
  intros Hin.
  pose proof (run_served w request c) as S.
  remember (fst (run w request c)) as resp eqn:E1.
  remember (snd (run w request c)) as st' eqn:E2.
  destruct S as [r0 Hm|e evs Hm Hf Hevs|token Hm Hc Ht Hg|token Hm Hc Ht Hg Hp
                |token Hm Hc Ht Hk|token page_path Ha];
    cbn [trace] in Hin.
  - destruct Hin as [Hin|[]]; discriminate Hin.
  - destruct Hevs as [-> | ->]; cbn in Hin;
      repeat (destruct Hin as [Hin|Hin]; [discriminate Hin|]); destruct Hin.
  - repeat (destruct Hin as [Hin|Hin]; [discriminate Hin|]); destruct Hin.
  - repeat (destruct Hin as [Hin|Hin]; [discriminate Hin|]); destruct Hin.
  - repeat (destruct Hin as [Hin|Hin]; [discriminate Hin|]); destruct Hin.
  - exists token, page_path. split; [exact Ha|].
    pose proof (run_admitted w request c token page_path Ha) as R.
    cbv zeta in R. rewrite R in Hin.
    assert (G : forall rest,
              In (EvBackendFetch call)
                 ([EvCacheMatch (cache_key request); EvGetToken scopes;
                   EvBackendFetch (report_call w token page_path)] ++ rest) ->
              (forall ev, In ev rest -> is_backend_fetch ev = false) ->
              call = report_call w token page_path).
    { intros rest H Hrest. cbn in H.
      destruct H as [H|[H|[H|H]]]; try discriminate H.
      - injection H as ->. reflexivity.
      - apply Hrest in H. discriminate H. }
    destruct (backend w _) as [resp0|e];
      [|apply (G []); [exact Hin|intros ev []]].
    destruct (ok resp0).
    + destruct (json resp0); [|apply (G []); [exact Hin|intros ev []]].
      destruct (all_defined _); [|apply (G []); [exact Hin|intros ev []]].
      eapply G; [exact Hin|]. intros ev [<-|[]]. reflexivity.
    + destruct (text resp0); apply (G []);
        solve [exact Hin | intros ev []].
Qed.

(** C7: an admitted request, that is a GET with a non-empty
    [page_path] and a token, sends the backend a query whose range
    starts on 2024-01-01 and ends on the UTC date of the day after the
    clock reading, whose match type is CONTAINS and whose filter value
    is the [page_path] in lower case and trimmed: the lower case of the
    [page_path] is the filter value between two runs of white space,
    the filter value neither begins nor ends with white space, and on
    a [page_path] of characters below U+0100 the lower case replaces
    the letters A to Z and the capital letters from U+00C0 to U+00DE
    by their small letters and nothing else.  The backend receives no
    other query. *)
Theorem query_built (w : World) (request : Request) (c : Cache) :
  (forall token page_path,
     admitted w request c token page_path ->
     let call := report_call w token page_path in
     let q := call_body call in
     (exists rest,
        trace (snd (run w request c))
        = [EvCacheMatch (cache_key request); EvGetToken scopes;
           EvBackendFetch call] ++ rest)
     /\ startDate q = $"2024-01-01"
     /\ getTomorrowDate (tza w) (now w) = Some (endDate q)
     /\ endDate q = Date.date_text (now w + Date.msPerDay)
     /\ Date.Day (now w + Date.msPerDay) = Date.Day (now w) + 1
     /\ matchType q = $"CONTAINS"
     /\ filterValue q = Str.trim (Str.toLowerCase page_path)
     /\ (exists l r,
           Str.toLowerCase page_path = l ++ filterValue q ++ r
           /\ forallb Str.is_space l = true
           /\ forallb Str.is_space r = true)
     /\ (forall u t, filterValue q = u :: t -> Str.is_space u = false)
     /\ (forall u t, filterValue q = t ++ [u] -> Str.is_space u = false)
     /\ (forallb (fun u => (u <? 256)%N) page_path = true ->
         Str.toLowerCase page_path
         = List.map
             (fun u =>
                if ((65 <=? u) && (u <=? 90)
                    || (192 <=? u) && (u <=? 222) && negb (u =? 215))%N
                then (u + 32)%N else u)
             page_path))
  /\ (forall call,
        In (EvBackendFetch call) (trace (snd (run w request c))) ->
        exists token page_path,
          admitted w request c token page_path
          /\ call = report_call w token page_path).
Proof.
  split; [|apply run_backend_fetch].
  intros token page_path Ha call q.
  split.
  { pose proof (run_admitted w request c token page_path Ha) as R.
    cbv zeta in R. rewrite R. fold call.
    destruct (backend w call) as [resp0|e]; [|exists []; reflexivity].
    destruct (ok resp0).
    - destruct (json resp0); [|exists []; reflexivity].
      destruct (all_defined _); [|exists []; reflexivity].
      eexists. reflexivity.
    - destruct (text resp0); exists []; reflexivity. }
  split; [reflexivity|].
  split; [apply getTomorrowDate_next, (adm_clock _ _ _ _ _ Ha)|].
  split; [reflexivity|].
  split; [apply Day_next|].
  split; [reflexivity|].
  split; [reflexivity|].
  change (filterValue q) with (Str.trim (Str.toLowerCase page_path)).
  destruct (trim_spec (Str.toLowerCase page_path)) as [S [F L]].
  split; [exact S|]. split; [exact F|]. split; [exact L|].
  apply toLowerCase_latin1.
Qed.

Lemma query_built_witness :
  let page_path := [32; 67; 97; 102; 201; 47; 80; 111; 115; 116; 32]%N in
  let request := {| method := $"GET";
                    url := $"https://views.example/?page_path=%20Caf%C3%89/Post%20";
                    searchParams := [ ($"page_path", page_path) ] |} in
  admitted world_ok request [] $"token" page_path
  /\ endDate (call_body (report_call world_ok $"token" page_path))
     = $"2024-11-03"
  /\ filterValue (call_body (report_call world_ok $"token" page_path))
     = [99; 97; 102; 233; 47; 112; 111; 115; 116]%N
  /\ forallb (fun u => (u <? 256)%N) page_path = true
  /\ Str.toLowerCase page_path
     = [32; 99; 97; 102; 233; 47; 112; 111; 115; 116; 32]%N
  /\ In (EvBackendFetch (report_call world_ok $"token" page_path))
        (trace (snd (run world_ok request []))).
Proof.
  intros page_path request.
  assert (Ha : admitted world_ok request [] $"token" page_path)
    by (constructor; try reflexivity;
        [discriminate|vm_compute; discriminate]).
  assert (A : forallb (fun u => (u <? 256)%N) page_path = true)
    by reflexivity.
  destruct (query_built world_ok request []) as [Q B].
  destruct (Q $"token" page_path Ha)
    as [[rest T] [_ [_ [E [_ [_ [F [_ [_ [_ L]]]]]]]]]].
  split; [exact Ha|].
  split; [rewrite E; vm_compute; reflexivity|].
  split; [rewrite F; vm_compute; reflexivity|].
  split; [exact A|].
  split; [rewrite (L A); reflexivity|].
  rewrite T. right. right. left. reflexivity.
Defined.

(** ** The label of the badge *)

Lemma cache_match_In (c : Cache) (k : CacheKey) (r : Response) :
  cache_match c k = Some r -> exists k', In (k', r) c.
Proof.
  induction c as [|[k0 r0] c IH]; cbn [cache_match]; [discriminate|].
  destruct (key_eqb k0 k).
  - intros E. injection E as ->. exists k0. left. reflexivity.
  - intros E. destruct (IH E) as [k' H]. exists k'. right. exact H.
Qed.

(** A request leaves the cache as it was or adds a rendered badge. *)
Lemma run_cache (w : World) (request : Request) (c : Cache) :
  cache (snd (run w request c)) = c
  \/ exists r, rendered r
               /\ cache (snd (run w request c))
                  = cache_put c (cache_key request) r.
Proof.
  pose proof (run_served w request c) as S.
  remember (fst (run w request c)) as resp eqn:E1.
  remember (snd (run w request c)) as st' eqn:E2.
  destruct S as [r0 Hm|e evs Hm Hf Hevs|token Hm Hc Ht Hg|token Hm Hc Ht Hg Hp
                |token Hm Hc Ht Hk|token page_path Ha];
    try (left; reflexivity).
  pose proof (run_admitted w request c token page_path Ha) as R.
  cbv zeta in R. rewrite R.
  destruct (backend w _) as [resp0|e]; [|left; reflexivity].
  destruct (ok resp0).
  - destruct (json resp0); [|left; reflexivity].
    destruct (all_defined _); [|left; reflexivity].
    right. eexists. split; [|reflexivity].
    eexists. eexists. reflexivity.
  - destruct (text resp0); left; reflexivity.
Qed.

Lemma reachable_rendered (c : Cache) :
  reachable c -> forall k r, In (k, r) c -> rendered r.
Proof.
  induction 1 as [|w request c Hc IH|c c' Hc IH Hi]; intros k r Hin.
  - destruct Hin.
  - destruct (run_cache w request c) as [E|[r0 [Hr E]]];
      rewrite E in Hin.
    + eapply IH, Hin.
    + destruct Hin as [Hin|Hin].
      * injection Hin as _ <-. exact Hr.
      * eapply IH, Hin.
  - eapply IH, Hi, Hin.
Qed.

(** A response with status 200 is a badge of the handler, be it
    rendered for the request or taken from the cache. *)
Lemma status_200_rendered (c : Cache) (w : World) (request : Request) :
  reachable c ->
  status (fst (run w request c)) = 200 ->
  rendered (fst (run w request c)).
Proof.
  intros Hc Hs.
  pose proof (run_served w request c) as S.
  remember (fst (run w request c)) as resp eqn:E1.
  remember (snd (run w request c)) as st' eqn:E2.
  destruct S as [r0 Hm|e evs Hm Hf Hevs|token Hm _ Ht Hg|token Hm _ Ht Hg Hp
                |token Hm _ Ht Hk|token page_path Ha];
    try discriminate Hs.
  - destruct (cache_match_In c _ r0 Hm) as [k' Hin].
    exact (reachable_rendered c Hc k' r0 Hin).
  - pose proof (run_admitted w request c token page_path Ha) as R.
    cbv zeta in R. rewrite R in Hs |- *.
    destruct (backend w _) as [resp0|e]; [|discriminate Hs].
    destruct (ok resp0).
    + destruct (json resp0); [|discriminate Hs].
      destruct (all_defined _); [|discriminate Hs].
      eexists. eexists. reflexivity.
    + destruct (text resp0); discriminate Hs.
Qed.

(* ================================================================== *)
(** * Badge Renderer *)
(* ================================================================== *)

Lemma scan_app (d : nat) (s t : jsstring) :
  scan d (s ++ t)
  = match scan d s with Some d' => scan d' t | None => None end.
Proof.
  revert d. induction s as [|c s IH]; intros d; [reflexivity|].
  cbn [List.app scan].
  destruct (c =? 45)%N; [apply IH|].
  destruct (_ && _); [reflexivity|apply IH].
Qed.

(** A string that holds the terminator is not read to its end. *)
Lemma scan_complete (a b : jsstring) (d : nat) :
  scan d (a ++ $"-->" ++ b) = None.
Proof.
  revert d. induction a as [|c a IH]; intros d.
  - cbn. destruct d as [|[|d]]; reflexivity.
  - cbn [List.app scan].
    destruct (c =? 45)%N; [apply IH|].
    destruct (_ && _); [reflexivity|apply IH].
Qed.

Lemma replace_arrow_unfold (a : N) (rest : jsstring) :
  replace_arrow (a :: rest)
  = if starts_arrow (a :: rest)
    then arrow_substitute ++ replace_arrow (skipn 2 rest)
    else a :: replace_arrow rest.
Proof.
  destruct rest as [|b [|c after]]; reflexivity.
Qed.

Lemma scan_replace_arrow_len (n : nat) (item : jsstring) (d : nat) :
  (List.length item <= n)%nat -> (d <= 2)%nat -> boundary_ok d item ->
  exists d', scan d (replace_arrow item) = Some d'.
Proof.
  revert item d. induction n as [|n IH]; intros item d Hn Hd [B1 B2].
  { destruct item; [exists d; reflexivity|cbn in Hn; lia]. }
  destruct item as [|a rest]; [exists d; reflexivity|].
  cbn [List.length] in Hn.
  rewrite replace_arrow_unfold.
  destruct (starts_arrow (a :: rest)) eqn:E.
  - (* a terminator is replaced *)
    cbn [arrow_substitute List.app scan N.eqb Pos.eqb andb Nat.leb].
    apply IH; [|lia|split; intros; lia].
    destruct rest as [|b [|c after]]; cbn [skipn List.length] in *; lia.
  - cbn [scan].
    destruct (N.eqb_spec a 45) as [->|Na].
    + apply IH; [lia|lia|]. split.
      * intros Hd2 r ->.
        assert (1 <= d)%nat by lia.
        apply (B2 H r). reflexivity.
      * intros _ r ->. cbn in E. discriminate E.
    + destruct (N.eqb_spec a 62) as [->|N62]; cbn [andb].
      * destruct (Nat.leb_spec 2 d) as [L|L].
        -- exfalso. apply (B1 ltac:(lia) rest). reflexivity.
        -- apply IH; [lia|lia|split; intros; lia].
      * apply IH; [lia|lia|split; intros; lia].
Qed.

Lemma scan_replace_arrow (item : jsstring) :
  exists d', scan 0 (replace_arrow item) = Some d'.
Proof.
  apply (scan_replace_arrow_len (List.length item)); [lia|lia|].
  split; intros; lia.
Qed.

(** The substituted string holds no terminator. *)
Lemma replace_arrow_free (item a b : jsstring) :
  replace_arrow item <> a ++ $"-->" ++ b.
Proof.
  intros E. destruct (scan_replace_arrow item) as [d' H].
  rewrite E, scan_complete in H. discriminate H.
Qed.

(** In the comment of a metadata string the terminator occurs once,
    at the end. *)
Lemma metadataComment_closed_once (item a b : jsstring) :
  metadataComment item = a ++ $"-->" ++ b -> b = [].
Proof.
  unfold metadataComment.
  set (L := $"<!-- METADATA: " ++ replace_arrow item ++ $" ").
  replace ($"<!-- METADATA: " ++ replace_arrow item ++ $" -->")
    with (L ++ $"-->")
    by (unfold L; rewrite <- !List.app_assoc; reflexivity).
  assert (C : exists d', scan 0 L = Some d').
  { unfold L. rewrite scan_app. cbn [scan Str.lit].
    change (scan 0 $"<!-- METADATA: ") with (Some 0%nat). cbv iota.
    rewrite scan_app. destruct (scan_replace_arrow item) as [d' ->].
    exists 0%nat. reflexivity. }
  intros E. apply List.app_eq_app in E as [m [[E1 E2]|[E1 E2]]].
  - destruct m as [|x [|y [|z m]]].
    + cbn in E2. injection E2 as ->. reflexivity.
    + cbn in E2. injection E2 as _ E. discriminate E.
    + cbn in E2. injection E2 as _ _ E. discriminate E.
    + exfalso. cbn in E2. injection E2 as <- <- <- E2.
      destruct C as [d' C]. rewrite E1 in C.
      change (45%N :: 45%N :: 62%N :: m) with ($"-->" ++ m) in C.
      rewrite scan_complete in C. discriminate C.
  - apply (f_equal (@List.length N)) in E2.
    rewrite !List.length_app in E2. cbn in E2.
    destruct b; [reflexivity|cbn in E2; lia].
Qed.

(** ** The recogniser on the parts of a document *)

Lemma run_app (cfg : Xml.config) (s t : jsstring) :
  Xml.run cfg (s ++ t)
  = match Xml.run cfg s with
    | Some cfg' => Xml.run cfg' t
    | None => None
    end.
Proof.
  revert cfg. induction s as [|c s IH]; intros cfg; [reflexivity|].
  cbn [List.app Xml.run]. destruct (Xml.step cfg c); [apply IH|reflexivity].
Qed.

(** Inside an attribute value. *)
Lemma run_value (nm : Xml.name) (seen : list Xml.name) (q : N)
    (st : list Xml.name) (r : bool) (s : jsstring) :
  forallb (value_unit q) s = true ->
  Xml.run {| Xml.at_ := Xml.AttrValue nm seen q; Xml.stack := st;
             Xml.rooted := r |} s
  = Some {| Xml.at_ := Xml.AttrValue nm seen q; Xml.stack := st;
            Xml.rooted := r |}.
Proof.
  induction s as [|c s IH]; intros H; [reflexivity|].
  cbn [forallb] in H. apply andb_prop in H as [Hc Hs].
  unfold value_unit in Hc.
  apply andb_prop in Hc as [Hc H38]. apply andb_prop in Hc as [Hc H60].
  apply andb_prop in Hc as [Hch Hq].
  cbn [Xml.run Xml.step Xml.at_].
  apply negb_true_iff in Hq, H60, H38. rewrite Hq, H60, H38, Hch.
  cbn [orb]. unfold Xml.go. cbn [Xml.stack Xml.rooted]. apply IH, Hs.
Qed.

Lemma digit_value_unit (s : jsstring) :
  forallb is_digit s = true -> forallb (value_unit 34) s = true.
Proof.
  intros H. rewrite forallb_forall in *. intros c Hc.
  specialize (H c Hc). unfold is_digit in H.
  apply andb_prop in H as [H1 H2].
  apply N.leb_le in H1. apply N.leb_le in H2.
  unfold value_unit, Xml.is_char.
  replace ((32 <=? c) && (c <=? 65533))%N with true
    by (symmetry; apply andb_true_intro; split; apply N.leb_le; lia).
  rewrite !orb_true_r. cbn [orb andb].
  repeat (apply andb_true_intro; split);
    apply negb_true_iff, N.eqb_neq; lia.
Qed.

Lemma run_digits (nm : Xml.name) (seen : list Xml.name)
    (st : list Xml.name) (r : bool) (n : Z) :
  Xml.run {| Xml.at_ := Xml.AttrValue nm seen 34; Xml.stack := st;
             Xml.rooted := r |} (show_int n)
  = Some {| Xml.at_ := Xml.AttrValue nm seen 34; Xml.stack := st;
            Xml.rooted := r |}.
Proof. apply run_value, digit_value_unit, dec_digits. Qed.

Lemma free_suffix (p x y : jsstring) :
  (forall a b, x ++ y <> a ++ p ++ b) -> forall a b, y <> a ++ p ++ b.
Proof.
  intros H a b E. apply (H (x ++ a) b). rewrite E, List.app_assoc.
  reflexivity.
Qed.

(** Character data inside an element. *)
Lemma run_text_from (s : jsstring) (b : nat) (top : Xml.name)
    (below : list Xml.name) (r : bool) :
  forallb text_unit s = true ->
  (b <= 2)%nat ->
  (forall a t, repeat 93%N b ++ s <> a ++ $"]]>" ++ t) ->
  exists b',
    Xml.run {| Xml.at_ := Xml.Content b; Xml.stack := top :: below;
               Xml.rooted := r |} s
    = Some {| Xml.at_ := Xml.Content b'; Xml.stack := top :: below;
              Xml.rooted := r |}.
Proof.
  revert b. induction s as [|c s IH]; intros b Hs Hb Hfree.
  { exists b. reflexivity. }
  cbn [forallb] in Hs. apply andb_prop in Hs as [Hc Hs].
  unfold text_unit in Hc.
  apply andb_prop in Hc as [Hc H38]. apply andb_prop in Hc as [Hch H60].
  apply negb_true_iff in H60, H38.
  cbn [Xml.run Xml.step Xml.at_ Xml.stack].
  rewrite H60, H38, Hch. cbn [negb].
  destruct (N.eqb_spec c 93) as [->|N93].
  - unfold Xml.go. cbn [Xml.stack Xml.rooted].
    apply IH; [exact Hs|lia|].
    destruct b as [|[|b]].
    + exact Hfree.
    + exact Hfree.
    + assert (b = 0%nat) by lia. subst b. cbn [Nat.min repeat List.app].
      apply (free_suffix _ [93%N]). exact Hfree.
  - destruct (N.eqb_spec c 62) as [->|N62]; cbn [andb].
    + destruct (Nat.leb_spec 2 b) as [L|L].
      * exfalso. assert (b = 2%nat) by lia. subst b.
        apply (Hfree [] s). reflexivity.
      * unfold Xml.go. cbn [Xml.stack Xml.rooted].
        apply IH; [exact Hs|lia|].
        apply (free_suffix _ (repeat 93%N b ++ [62%N])).
        rewrite <- List.app_assoc. exact Hfree.
    + unfold Xml.go. cbn [Xml.stack Xml.rooted].
      apply IH; [exact Hs|lia|].
      apply (free_suffix _ (repeat 93%N b ++ [c])).
      rewrite <- List.app_assoc. exact Hfree.
Qed.

Lemma run_text (s : jsstring) (top : Xml.name) (below : list Xml.name)
    (r : bool) :
  plain_text s ->
  exists b',
    Xml.run {| Xml.at_ := Xml.Content 0; Xml.stack := top :: below;
               Xml.rooted := r |} s
    = Some {| Xml.at_ := Xml.Content b'; Xml.stack := top :: below;
              Xml.rooted := r |}.
Proof.
  intros [H1 H2]. apply run_text_from; [exact H1|lia|exact H2].
Qed.

(** A string without ["--"] holds no terminator to replace. *)
Lemma replace_arrow_plain (item : jsstring) :
  (forall a b, item <> a ++ $"--" ++ b) -> replace_arrow item = item.
Proof.
  induction item as [|c item IH]; intros H; [reflexivity|].
  rewrite replace_arrow_unfold.
  destruct (starts_arrow (c :: item)) eqn:E.
  - exfalso. destruct item as [|b [|d after]]; try discriminate E.
    cbn [starts_arrow] in E.
    apply andb_prop in E as [E _]. apply andb_prop in E as [E1 E2].
    apply N.eqb_eq in E1, E2. subst c b.
    apply (H [] (d :: after)). reflexivity.
  - f_equal. apply IH. apply (free_suffix _ [c]). exact H.
Qed.

(** The text of a comment. *)
Lemma run_comment_text (s : jsstring) (d : nat) (st : list Xml.name)
    (r : bool) :
  forallb Xml.is_char s = true ->
  (forall a b, s <> a ++ $"--" ++ b) ->
  (d <= 1)%nat -> (d = 1%nat -> forall t, s <> 45%N :: t) ->
  exists d',
    (d' <= 1)%nat
    /\ Xml.run {| Xml.at_ := Xml.Comment d; Xml.stack := st;
                  Xml.rooted := r |} s
       = Some {| Xml.at_ := Xml.Comment d'; Xml.stack := st;
                 Xml.rooted := r |}.
Proof.
  revert d. induction s as [|c s IH]; intros d Hs Hfree Hd Hstart.
  { exists d. split; [exact Hd|reflexivity]. }
  cbn [forallb] in Hs. apply andb_prop in Hs as [Hc Hs].
  cbn [Xml.run Xml.step Xml.at_].
  replace (2 <=? d)%nat with false by (symmetry; apply Nat.leb_gt; lia).
  assert (Hfree' : forall a b, s <> a ++ $"--" ++ b)
    by (apply (free_suffix _ [c]); exact Hfree).
  destruct (N.eqb_spec c 45) as [->|N45].
  - assert (d = 0%nat).
    { destruct d as [|d]; [reflexivity|]. exfalso.
      apply (Hstart ltac:(lia) s). reflexivity. }
    subst d. unfold Xml.go. cbn [Xml.stack Xml.rooted].
    apply IH; [exact Hs|exact Hfree'|lia|].
    intros _ t ->. apply (Hfree [] t). reflexivity.
  - rewrite Hc. unfold Xml.go. cbn [Xml.stack Xml.rooted].
    apply IH; [exact Hs|exact Hfree'|lia|]. intros E. discriminate E.
Qed.

(** The comment of a metadata string, between two pieces of content. *)
Lemma run_comment (item : jsstring) (top : Xml.name)
    (below : list Xml.name) (r : bool) :
  plain_comment item ->
  Xml.run {| Xml.at_ := Xml.Content 0; Xml.stack := top :: below;
             Xml.rooted := r |} (metadataComment item)
  = Some {| Xml.at_ := Xml.Content 0; Xml.stack := top :: below;
            Xml.rooted := r |}.
Proof.
  intros [Hc Hfree]. unfold metadataComment.
  rewrite (replace_arrow_plain item Hfree).
  rewrite run_app.
  change (Xml.run _ $"<!-- METADATA: ")
    with (Some {| Xml.at_ := Xml.Comment 0; Xml.stack := top :: below;
                  Xml.rooted := r |}).
  cbv iota. rewrite run_app.
  destruct (run_comment_text item 0 (top :: below) r Hc Hfree)
    as [d' [Hd' ->]]; [lia|intros E; discriminate E|].
  destruct d' as [|[|d']]; [reflexivity|reflexivity|lia].
Qed.

Lemma run_newline (top : Xml.name) (below : list Xml.name) (r : bool) :
  Xml.run {| Xml.at_ := Xml.Content 0; Xml.stack := top :: below;
             Xml.rooted := r |} nl
  = Some {| Xml.at_ := Xml.Content 0; Xml.stack := top :: below;
            Xml.rooted := r |}.
Proof. reflexivity. Qed.

Lemma run_comments (metadata : list jsstring) (top : Xml.name)
    (below : list Xml.name) (r : bool) :
  Forall plain_comment metadata ->
  Xml.run {| Xml.at_ := Xml.Content 0; Xml.stack := top :: below;
             Xml.rooted := r |}
          (Str.join nl (List.map metadataComment metadata))
  = Some {| Xml.at_ := Xml.Content 0; Xml.stack := top :: below;
            Xml.rooted := r |}.
Proof.
  induction 1 as [|item metadata Hi Hm IH]; [reflexivity|].
  cbn [List.map Str.join].
  destruct (List.map metadataComment metadata) as [|y l] eqn:E.
  - apply run_comment, Hi.
  - rewrite run_app, (run_comment item top below r Hi).
    rewrite run_app, run_newline. exact IH.
Qed.

(** ** Trimming *)

Lemma trimStart_head (c : N) (s : jsstring) :
  Str.is_space c = false -> Str.trimStart (c :: s) = c :: s.
Proof. intros H. cbn [Str.trimStart]. rewrite H. reflexivity. Qed.

Lemma trimStart_length (s : jsstring) :
  (List.length (Str.trimStart s) <= List.length s)%nat.
Proof.
  induction s as [|c s IH]; [reflexivity|].
  cbn [Str.trimStart]. destruct (Str.is_space c); cbn [List.length]; lia.
Qed.

Lemma trimStart_fixed (s t : jsstring) :
  s <> [] -> Str.trimStart s = s -> Str.trimStart (s ++ t) = s ++ t.
Proof.
  intros Hn H. destruct s as [|c s]; [congruence|].
  cbn [Str.trimStart List.app] in *.
  destruct (Str.is_space c); [|reflexivity].
  exfalso. pose proof (trimStart_length s) as L.
  rewrite H in L. cbn [List.length] in L. lia.
Qed.

Lemma trimEnd_app (s t : jsstring) :
  t <> [] -> Str.trimEnd t = t -> Str.trimEnd (s ++ t) = s ++ t.
Proof.
  intros Hn H. unfold Str.trimEnd in *.
  rewrite List.rev_app_distr.
  assert (R : Str.trimStart (rev t) = rev t).
  { apply (f_equal (@rev N)) in H. rewrite List.rev_involutive in H.
    exact H. }
  rewrite trimStart_fixed; [|intros E; apply Hn|exact R].
  - rewrite <- List.rev_app_distr. apply List.rev_involutive.
  - apply (f_equal (@rev N)) in E. rewrite List.rev_involutive in E.
    exact E.
Qed.

Lemma trimEnd_chain (s t : jsstring) :
  t <> [] /\ Str.trimEnd t = t ->
  s ++ t <> [] /\ Str.trimEnd (s ++ t) = s ++ t.
Proof.
  intros [Hn H]. split.
  - intros E. apply List.app_eq_nil in E as [_ E]. contradiction.
  - apply trimEnd_app; assumption.
Qed.

Lemma strip_prefix_app (p r : jsstring) :
  Xml.strip_prefix p (p ++ r) = Some r.
Proof.
  induction p as [|x p IH]; [reflexivity|].
  cbn [List.app Xml.strip_prefix]. rewrite N.eqb_refl. exact IH.
Qed.

(** The template has nothing to trim. *)
Lemma trim_badge_template (label valueText : jsstring)
    (labelWidth valueWidth totalWidth : Z) (metadataComments : jsstring) :
  Str.trim (badge_template label valueText labelWidth valueWidth totalWidth
              metadataComments)
  = badge_template label valueText labelWidth valueWidth totalWidth
      metadataComments.
Proof.
  unfold badge_template, badge_body, Str.trim.
  rewrite trimStart_fixed; [|discriminate|reflexivity].
  assert (PL : tpl "    </svg>" <> [] /\ Str.trimEnd (tpl "    </svg>")
                                          = tpl "    </svg>")
    by (split; [discriminate|reflexivity]).
  revert PL. generalize (tpl "    </svg>") as last. intros last PL.
  refine (proj2 _).
  repeat apply trimEnd_chain. exact PL.
Qed.

Ltac fixed_piece :=
  match goal with
  | |- context [Xml.run ?cfg (?A ++ ?rest)] =>
      rewrite (run_app cfg A rest);
      let v := eval vm_compute in (Xml.run cfg A) in
      change (Xml.run cfg A) with v; cbv beta iota
  end.

Ltac text_piece H :=
  match goal with
  | |- context [Xml.run {| Xml.at_ := Xml.Content 0;
                            Xml.stack := ?top :: ?below;
                            Xml.rooted := ?r |} (?s ++ ?rest)] =>
      let b := fresh "b" in
      let E := fresh "E" in
      destruct (run_text s top below r H) as [b E];
      rewrite (run_app _ s rest), E; cbv beta iota
  end.

(** With plain strings the template is a well-formed document. *)
Lemma badge_template_well_formed (label valueText : jsstring)
    (labelWidth valueWidth totalWidth : Z) (metadata : list jsstring) :
  plain_text label -> plain_text valueText ->
  Forall plain_comment metadata ->
  Xml.well_formed
    (badge_template label valueText labelWidth valueWidth totalWidth
       (Str.join nl (List.map metadataComment metadata))) = true.
Proof.
  intros Hl Hv Hm. unfold Xml.well_formed, badge_template.
  change (tpl "<?xml version='1.0' encoding='UTF-8'?>")
    with Xml.declaration.
  rewrite strip_prefix_app. unfold badge_body.
  repeat first
    [ rewrite run_app, run_digits; cbv beta iota
    | rewrite run_app, (run_comments metadata _ _ _ Hm); cbv beta iota
    | text_piece Hl
    | text_piece Hv
    | fixed_piece ].
  vm_compute. reflexivity.
Qed.

Lemma startsWith_app (p b : jsstring) : Str.startsWith p (p ++ b) = true.
Proof.
  induction p as [|x p IH]; [reflexivity|].
  cbn [List.app Str.startsWith]. rewrite N.eqb_refl. exact IH.
Qed.

Lemma occurs_complete (p a b : jsstring) : occurs p (a ++ p ++ b) = true.
Proof.
  induction a as [|c a IH].
  - cbn [List.app]. destruct (p ++ b) eqn:E; cbn [occurs];
      rewrite <- E, startsWith_app; reflexivity.
  - cbn [List.app occurs]. rewrite IH. apply orb_true_r.
Qed.

Lemma occurs_free (p s : jsstring) :
  occurs p s = false -> forall a b, s <> a ++ p ++ b.
Proof.
  intros H a b E. rewrite E, occurs_complete in H. discriminate H.
Qed.

Lemma plain_text_check (s : jsstring) :
  forallb text_unit s && negb (occurs $"]]>" s) = true -> plain_text s.
Proof.
  intros H. apply andb_prop in H as [H1 H2]. split; [exact H1|].
  apply occurs_free, negb_true_iff, H2.
Qed.

Lemma plain_comment_check (s : jsstring) :
  forallb Xml.is_char s && negb (occurs $"--" s) = true -> plain_comment s.
Proof.
  intros H. apply andb_prop in H as [H1 H2]. split; [exact H1|].
  apply occurs_free, negb_true_iff, H2.
Qed.

Lemma embedded_here (c rest : jsstring) :
  exists before after, c ++ rest = before ++ c ++ after.
Proof. exists [], rest. reflexivity. Qed.

Lemma embedded_later (c p x : jsstring) :
  (exists before after, x = before ++ c ++ after) ->
  exists before after, p ++ x = before ++ c ++ after.
Proof.
  intros [before [after ->]]. exists (p ++ before), after.
  rewrite <- List.app_assoc. reflexivity.
Qed.

(* ================================================================== *)
(** * Comments of the metadata, whatever they hold *)
(* ================================================================== *)

Lemma starts_arrow_eq (s : jsstring) :
  starts_arrow s = true -> exists after, s = $"-->" ++ after.
Proof.
  destruct s as [|a [|b [|c after]]]; try discriminate.
  cbn [starts_arrow]. intros E.
  apply andb_prop in E as [E E3]. apply andb_prop in E as [E1 E2].
  apply N.eqb_eq in E1, E2, E3. subst. exists after. reflexivity.
Qed.

Lemma replace_arrow_fixed (item : jsstring) :
  (forall a b, item <> a ++ $"-->" ++ b) -> replace_arrow item = item.
Proof.
  induction item as [|c item IH]; intros H; [reflexivity|].
  rewrite replace_arrow_unfold.
  destruct (starts_arrow (c :: item)) eqn:E.
  - exfalso. destruct (starts_arrow_eq _ E) as [after E'].
    apply (H [] after). exact E'.
  - f_equal. apply IH. apply (free_suffix _ [c]). exact H.
Qed.

Lemma replace_arrow_first (a b : jsstring) :
  (forall x y, a <> x ++ $"-->" ++ y) ->
  replace_arrow (a ++ $"-->" ++ b) = a ++ arrow_substitute ++ replace_arrow b.
Proof.
  induction a as [|c a IH]; intros H; [reflexivity|].
  cbn [List.app]. rewrite replace_arrow_unfold.
  destruct (starts_arrow (c :: a ++ $"-->" ++ b)) eqn:E.
  - exfalso. destruct a as [|d [|e a]].
    + cbn in E. rewrite andb_false_r in E. discriminate E.
    + cbn in E. rewrite andb_false_r in E. discriminate E.
    + cbn [List.app starts_arrow] in E.
      apply andb_prop in E as [E E3]. apply andb_prop in E as [E1 E2].
      apply N.eqb_eq in E1, E2, E3. subst.
      apply (H [] a). reflexivity.
  - f_equal. apply IH. apply (free_suffix _ [c]). exact H.
Qed.

Lemma comment_text_ok_spec (s : jsstring) (d : nat) :
  (d <= 1)%nat ->
  comment_text_ok d s
  = forallb Xml.is_char s && negb (occurs $"--" (repeat 45%N d ++ s)).
Proof.
  change ($"--") with [45%N; 45%N].
  revert d. induction s as [|c s IH]; intros d Hd.
  - destruct d as [|[|d]]; [reflexivity|reflexivity|lia].
  - cbn [comment_text_ok forallb].
    destruct (N.eqb_spec c 45) as [->|Nc].
    + destruct d as [|[|d]]; [| |lia].
      * rewrite (IH 1%nat) by lia. reflexivity.
      * cbn [repeat List.app occurs Str.startsWith Nat.eqb andb].
        rewrite N.eqb_refl. cbn [andb orb negb].
        rewrite andb_false_r. reflexivity.
    + rewrite (IH 0%nat) by lia. cbn [repeat List.app].
      assert (E : (45 =? c)%N = false) by (apply N.eqb_neq; congruence).
      destruct d as [|[|d]]; [| |lia].
      * cbn [repeat List.app occurs Str.startsWith].
        rewrite E. cbn [andb orb]. rewrite andb_assoc. reflexivity.
      * cbn [repeat List.app occurs Str.startsWith].
        rewrite N.eqb_refl, E. cbn [andb orb].
        rewrite andb_assoc. reflexivity.
Qed.

Lemma replace_arrow_chars (item : jsstring) :
  forallb Xml.is_char (replace_arrow item) = forallb Xml.is_char item.
Proof.
  assert (G : forall n item, (List.length item <= n)%nat ->
              forallb Xml.is_char (replace_arrow item)
              = forallb Xml.is_char item).
  { intros n. induction n as [|n IH]; intros s Hn.
    { destruct s; [reflexivity|cbn in Hn; lia]. }
    destruct s as [|a rest]; [reflexivity|].
    cbn [List.length] in Hn. rewrite replace_arrow_unfold.
    destruct (starts_arrow (a :: rest)) eqn:E.
    - destruct (starts_arrow_eq _ E) as [after E'].
      injection E' as -> ->. cbn [skipn].
      cbn [List.length] in Hn.
      change (forallb Xml.is_char (arrow_substitute ++ replace_arrow after)
              = forallb Xml.is_char after).
      rewrite forallb_app, IH by lia. reflexivity.
    - cbn [forallb]. rewrite IH by lia. reflexivity. }
  apply (G (List.length item)). lia.
Qed.

Lemma comment_ok_spec (item : jsstring) :
  comment_ok item = comment_text_ok 0 (replace_arrow item).
Proof.
  unfold comment_ok. rewrite (comment_text_ok_spec _ 0%nat) by lia.
  rewrite replace_arrow_chars. reflexivity.
Qed.

Lemma run_comment_clean (st : list Xml.name) (r : bool) (s : jsstring)
    (d : nat) :
  (d <= 1)%nat -> comment_text_ok d s = true ->
  exists d',
    (d' <= 1)%nat
    /\ Xml.run {| Xml.at_ := Xml.Comment d; Xml.stack := st;
                  Xml.rooted := r |} s
       = Some {| Xml.at_ := Xml.Comment d'; Xml.stack := st;
                 Xml.rooted := r |}.
Proof.
  revert d. induction s as [|c s IH]; intros d Hd H.
  { exists d. split; [exact Hd|reflexivity]. }
  cbn [comment_text_ok] in H.
  cbn [Xml.run Xml.step Xml.at_].
  replace (2 <=? d)%nat with false by (symmetry; apply Nat.leb_gt; lia).
  destruct (c =? 45)%N.
  - apply andb_prop in H as [H0 H1]. apply Nat.eqb_eq in H0. subst d.
    unfold Xml.go. cbn [Xml.stack Xml.rooted]. apply (IH 1%nat); [lia|exact H1].
  - apply andb_prop in H as [H0 H1]. rewrite H0.
    unfold Xml.go. cbn [Xml.stack Xml.rooted]. apply (IH 0%nat); [lia|exact H1].
Qed.

(** Two hyphens in a row, or a code unit that is not legal, end the
    reading of a comment that holds no terminator of its own. *)
Lemma run_comment_dirty (st : list Xml.name) (r : bool) (s t : jsstring)
    (d : nat) :
  (d <= 1)%nat -> scan d s <> None -> comment_text_ok d s = false ->
  Xml.run {| Xml.at_ := Xml.Comment d; Xml.stack := st; Xml.rooted := r |}
          (s ++ 32%N :: t)
  = None.
Proof.
  revert d. induction s as [|c s IH]; intros d Hd Hs H.
  { discriminate H. }
  cbn [comment_text_ok] in H. cbn [scan] in Hs.
  cbn [List.app Xml.run Xml.step Xml.at_].
  replace (2 <=? d)%nat with false by (symmetry; apply Nat.leb_gt; lia).
  destruct (N.eqb_spec c 45) as [->|Nc].
  - unfold Xml.go. cbn [Xml.stack Xml.rooted].
    destruct d as [|[|d]]; [| |lia].
    + apply (IH 1%nat); [lia|exact Hs|exact H].
    + cbn [Nat.min] in Hs.
      destruct s as [|c' s].
      * reflexivity.
      * cbn [List.app Xml.run Xml.step Xml.at_ Nat.leb].
        destruct (N.eqb_spec c' 62) as [->|N62]; [|reflexivity].
        exfalso. apply Hs. reflexivity.
  - replace ((c =? 62)%N && (2 <=? d)%nat) with false in Hs
      by (symmetry; apply andb_false_iff; right; apply Nat.leb_gt; lia).
    destruct (Xml.is_char c); [|reflexivity].
    unfold Xml.go. cbn [Xml.stack Xml.rooted].
    apply (IH 0%nat); [lia|exact Hs|exact H].
Qed.

(** The comment of a metadata string, between two pieces of content:
    read to its end, or refused. *)
Lemma run_comment_any (item : jsstring) (top : Xml.name)
    (below : list Xml.name) (r : bool) :
  let cfg := {| Xml.at_ := Xml.Content 0; Xml.stack := top :: below;
                Xml.rooted := r |} in
  Xml.run cfg (metadataComment item)
  = if comment_ok item then Some cfg else None.
Proof.
  intros cfg. unfold metadataComment. rewrite run_app.
  change (Xml.run cfg $"<!-- METADATA: ")
    with (Some {| Xml.at_ := Xml.Comment 0; Xml.stack := top :: below;
                  Xml.rooted := r |}).
  cbv iota. rewrite comment_ok_spec.
  destruct (comment_text_ok 0 (replace_arrow item)) eqn:E.
  - rewrite run_app.
    destruct (run_comment_clean (top :: below) r _ 0%nat ltac:(lia) E)
      as [d' [Hd' ->]].
    destruct d' as [|[|d']]; [reflexivity|reflexivity|lia].
  - apply (run_comment_dirty (top :: below) r _ $"-->" 0%nat);
      [lia| |exact E].
    destruct (scan_replace_arrow item) as [d' ->]. discriminate.
Qed.

Lemma run_comments_any (metadata : list jsstring) (top : Xml.name)
    (below : list Xml.name) (r : bool) :
  Xml.run {| Xml.at_ := Xml.Content 0; Xml.stack := top :: below;
             Xml.rooted := r |}
          (Str.join nl (List.map metadataComment metadata))
  = if forallb comment_ok metadata
    then Some {| Xml.at_ := Xml.Content 0; Xml.stack := top :: below;
                 Xml.rooted := r |}
    else None.
Proof.
  induction metadata as [|item metadata IH]; [reflexivity|].
  cbn [List.map Str.join forallb].
  pose proof (run_comment_any item top below r) as C. cbv zeta in C.
  destruct (List.map metadataComment metadata) as [|y l] eqn:E.
  - destruct metadata; [|discriminate E].
    cbn [forallb]. rewrite andb_true_r. exact C.
  - rewrite run_app, C.
    destruct (comment_ok item); [|reflexivity].
    cbn [andb]. rewrite run_app, run_newline.
    exact IH.
Qed.

Lemma badge_template_comments (label valueText : jsstring)
    (labelWidth valueWidth totalWidth : Z) (metadata : list jsstring) :
  plain_text label -> plain_text valueText ->
  Xml.well_formed
    (badge_template label valueText labelWidth valueWidth totalWidth
       (Str.join nl (List.map metadataComment metadata)))
  = forallb comment_ok metadata.
Proof.
  intros Hl Hv. unfold Xml.well_formed, badge_template.
  change (tpl "<?xml version='1.0' encoding='UTF-8'?>")
    with Xml.declaration.
  rewrite strip_prefix_app. unfold badge_body.
  repeat first
    [ rewrite run_app, run_digits; cbv beta iota
    | rewrite run_app, (run_comments_any metadata _ _ _);
      destruct (forallb comment_ok metadata); [cbv beta iota|reflexivity]
    | text_piece Hl
    | text_piece Hv
    | fixed_piece ].
  vm_compute. reflexivity.
Qed.

(* ================================================================== *)
(** * Badge Renderer: the comments and the document *)
(* ================================================================== *)

(** C8: each metadata string is embedded as a comment in which every
    terminator is replaced, so that the only terminator of the comment
    is its own; the comments stand in the badge in the order of the
    list.  The document is well formed when label and value are plain
    character data and every metadata string is made of legal
    characters and, once its terminators are replaced, holds no two
    hyphens in a row: this includes the strings that hold
    terminators.  The replacement misses the two hyphens that are not
    followed by ['>'], which a comment may not hold either: a metadata
    string that still holds two hyphens in a row gives a document that
    is not well formed, as [/my--page] does.  A label is not escaped
    either. *)
Theorem badge_spec :
  (forall item a b : jsstring, replace_arrow item <> a ++ $"-->" ++ b)
  /\ (forall item a b : jsstring,
        metadataComment item = a ++ $"-->" ++ b -> b = [])
  /\ (forall (label value : jsstring) (metadata : list jsstring),
        exists before after,
          generateBadge label value metadata
          = before ++ Str.join nl (List.map metadataComment metadata)
                   ++ after)
  /\ (forall (label value : jsstring) (metadata : list jsstring),
        plain_text label -> plain_text value ->
        Forall (fun item =>
                  forallb Xml.is_char item = true
                  /\ occurs $"--" (replace_arrow item) = false)
               metadata ->
        Xml.well_formed (generateBadge label value metadata) = true)
  /\ (forall (label value item : jsstring) (metadata : list jsstring),
        plain_text label -> plain_text value ->
        In item metadata ->
        occurs $"--" (replace_arrow item) = true ->
        Xml.well_formed (generateBadge label value metadata) = false)
  /\ Xml.well_formed (generateBadge $"readers" $"1.5K" [ $"/my--page" ])
     = false
  /\ Xml.well_formed (generateBadge $"<" $"1" []) = false.
Proof.
  assert (W : forall (label value : jsstring) (metadata : list jsstring),
            plain_text label -> plain_text value ->
            Xml.well_formed (generateBadge label value metadata)
            = forallb comment_ok metadata).
  { intros label value metadata Hl Hv. unfold generateBadge. cbv zeta.
    rewrite trim_badge_template.
    apply badge_template_comments; assumption. }
  split; [exact replace_arrow_free|].
  split; [exact metadataComment_closed_once|].
  split.
  { intros label value metadata. unfold generateBadge. cbv zeta.
    rewrite trim_badge_template. unfold badge_template, badge_body.
    do 8 apply embedded_later. apply embedded_here. }
  split.
  { intros label value metadata Hl Hv Hm. rewrite (W _ _ _ Hl Hv).
    apply forallb_forall. intros item Hin.
    rewrite Forall_forall in Hm. destruct (Hm item Hin) as [C D].
    unfold comment_ok. rewrite C, D. reflexivity. }
  split.
  { intros label value item metadata Hl Hv Hin Hd.
    rewrite (W _ _ _ Hl Hv).
    destruct (forallb comment_ok metadata) eqn:E; [|reflexivity].
    rewrite forallb_forall in E. specialize (E item Hin).
    unfold comment_ok in E. rewrite Hd, andb_false_r in E.
    discriminate E. }
  split; vm_compute; reflexivity.
Qed.

Lemma badge_spec_witness :
  (metadataComment $"a-->b" = $"<!-- METADATA: a" ++ arrow_substitute
                               ++ $"b " ++ $"-->" ++ [])
  /\ plain_text $"readers" /\ plain_text $"1.5K"
  /\ Forall (fun item =>
               forallb Xml.is_char item = true
               /\ occurs $"--" (replace_arrow item) = false)
            [ $"/blog/post"; $"/a-->b" ]
  /\ Xml.well_formed
       (generateBadge $"readers" $"1.5K" [ $"/blog/post"; $"/a-->b" ])
     = true
  /\ In $"/my--page" [ $"/blog/post"; $"/my--page" ]
  /\ occurs $"--" (replace_arrow $"/my--page") = true
  /\ Xml.well_formed
       (generateBadge $"readers" $"1.5K" [ $"/blog/post"; $"/my--page" ])
     = false.
Proof.
  destruct badge_spec as [_ [_ [_ [P [N _]]]]].
  assert (L : plain_text $"readers") by (apply plain_text_check; reflexivity).
  assert (V : plain_text $"1.5K") by (apply plain_text_check; reflexivity).
  assert (F : Forall (fun item =>
                        forallb Xml.is_char item = true
                        /\ occurs $"--" (replace_arrow item) = false)
                     [ $"/blog/post"; $"/a-->b" ])
    by (repeat constructor).
  assert (I : In $"/my--page" [ $"/blog/post"; $"/my--page" ])
    by (right; left; reflexivity).
  assert (D : occurs $"--" (replace_arrow $"/my--page") = true)
    by reflexivity.
  split; [reflexivity|]. split; [exact L|]. split; [exact V|].
  split; [exact F|]. split; [exact (P _ _ _ L V F)|].
  split; [exact I|]. split; [exact D|].
  exact (N _ _ _ _ L V I D).
Defined.

(* ================================================================== *)
(** * The label of the badges that are served *)
(* ================================================================== *)

Lemma texts_later (e1 e2 a x : jsstring) :
  (exists p1 p2 p3, x = p1 ++ e1 ++ p2 ++ e2 ++ p3) ->
  exists p1 p2 p3, a ++ x = p1 ++ e1 ++ p2 ++ e2 ++ p3.
Proof.
  intros [p1 [p2 [p3 ->]]]. exists (a ++ p1), p2, p3.
  apply List.app_assoc.
Qed.

Lemma text_later (e a x : jsstring) :
  (exists p2 p3, x = p2 ++ e ++ p3) ->
  exists p2 p3, a ++ x = p2 ++ e ++ p3.
Proof.
  intros [p2 [p3 ->]]. exists (a ++ p2), p3. apply List.app_assoc.
Qed.

Lemma five_pieces (a b c d e r : jsstring) :
  a ++ b ++ c ++ d ++ e ++ r = (a ++ b ++ c ++ d ++ e) ++ r.
Proof. rewrite <- !List.app_assoc. reflexivity. Qed.

(** The two text elements of the label, in the badges of the
    handler. *)
Lemma readers_texts (value : jsstring) (metadata : list jsstring) :
  exists p1 p2 p3 : jsstring,
    generateBadge $"readers" value metadata
    = p1
      ++ tpl "<text x='33' y='15' fill='#010101' fill-opacity='.3'>readers</text>"
      ++ p2 ++ tpl "<text x='33' y='14'>readers</text>" ++ p3.
Proof.
  unfold generateBadge. cbv zeta. rewrite trim_badge_template.
  unfold badge_template, badge_body.
  change (getTextWidth $"readers") with 66.
  change (show_int (66 / 2)) with ($"33").
  repeat match goal with
         | |- exists p1 p2 p3, ?a ++ ?x = _ =>
             lazymatch a with
             | tpl "        <text x='" => fail
             | _ => apply texts_later
             end
         end.
  rewrite five_pieces.
  change (tpl "        <text x='" ++ $"33"
          ++ tpl "' y='15' fill='#010101' fill-opacity='.3'>" ++ $"readers"
          ++ tpl "</text>")
    with (tpl "        "
          ++ tpl "<text x='33' y='15' fill='#010101' fill-opacity='.3'>readers</text>").
  rewrite <- List.app_assoc.
  exists (tpl "        ").
  match goal with
  | |- exists p2 p3, ?a ++ ?e ++ ?x = ?a ++ ?e ++ _ =>
      cut (exists p2 p3, x = p2 ++ tpl "<text x='33' y='14'>readers</text>" ++ p3)
  end.
  { intros [p2 [p3 ->]]. exists p2, p3. reflexivity. }
  apply text_later.
  rewrite five_pieces.
  change (tpl "        <text x='" ++ $"33" ++ tpl "' y='14'>" ++ $"readers"
          ++ tpl "</text>")
    with (tpl "        " ++ tpl "<text x='33' y='14'>readers</text>").
  rewrite <- List.app_assoc.
  exists (tpl "        "). eexists. reflexivity.
Qed.

(** C10: whatever the request, the collaborators and the report, a
    response with status 200 is a badge rendered with the label
    "readers", be it rendered for this request or taken from the
    cache: its body holds the two text elements of the label, at the
    middle of a label box made for the seven letters, and their text
    is "readers". *)
Theorem label_is_readers (c : Cache) (w : World) (request : Request) :
  reachable c ->
  status (fst (run w request c)) = 200 ->
  rendered (fst (run w request c))
  /\ exists p1 p2 p3 : jsstring,
       body (fst (run w request c))
       = p1
         ++ tpl "<text x='33' y='15' fill='#010101' fill-opacity='.3'>readers</text>"
         ++ p2 ++ tpl "<text x='33' y='14'>readers</text>" ++ p3.
Proof.
  intros Hc Hs.
  pose proof (status_200_rendered c w request Hc Hs) as R.
  split; [exact R|].
  destruct R as [value [metadata ->]]. cbn [body badge_response].
  apply readers_texts.
Qed.

Lemma label_is_readers_witness :
  let c := cache (snd (run world_ok get_post [])) in
  reachable c
  /\ status (fst (run world_refused get_post c)) = 200
  /\ exists p1 p2 p3 : jsstring,
       body (fst (run world_refused get_post c))
       = p1
         ++ tpl "<text x='33' y='15' fill='#010101' fill-opacity='.3'>readers</text>"
         ++ p2 ++ tpl "<text x='33' y='14'>readers</text>" ++ p3.
Proof.
  intros c.
  assert (R : reachable c) by (apply reach_fetch, reach_empty).
  assert (S : status (fst (run world_refused get_post c)) = 200)
    by (vm_compute; reflexivity).
  split; [exact R|]. split; [exact S|].
  exact (proj2 (label_is_readers c world_refused get_post R S)).
Defined.

(* ================================================================== *)
(** * Cache Orchestrator: further properties *)
(* ================================================================== *)

Lemma key_eqb_refl (k : CacheKey) : key_eqb k k = true.
Proof. unfold key_eqb. rewrite !Str_eqb_refl. reflexivity. Qed.

Lemma cache_match_put (c : Cache) (k : CacheKey) (r : Response) :
  cache_match (cache_put c k r) k = Some r.
Proof. cbn [cache_put cache_match]. rewrite key_eqb_refl. reflexivity. Qed.

(** The response and the state of every way of serving a request that
    leaves the cache as it was. *)
Lemma run_unchanged_or_put (w : World) (request : Request) (c : Cache) :
  cache (snd (run w request c)) = c
  \/ (Str.eqb (method request) $"GET" = true
      /\ status (fst (run w request c)) = 200
      /\ cache_match c (cache_key request) = None
      /\ cache (snd (run w request c))
         = cache_put c (cache_key request) (fst (run w request c))).
Proof.
  pose proof (run_served w request c) as S.
  remember (fst (run w request c)) as resp eqn:E1.
  remember (snd (run w request c)) as st' eqn:E2.
  destruct S as [r0 Hm|e evs Hm Hf Hevs|token Hm Hc Ht Hg|token Hm Hc Ht Hg Hp
                |token Hm Hc Ht Hk|token page_path Ha];
    try (left; reflexivity).
  pose proof (run_admitted w request c token page_path Ha) as R.
  cbv zeta in R. rewrite R.
  destruct (backend w _) as [resp0|e]; [|left; reflexivity].
  destruct (ok resp0).
  - destruct (json resp0); [|left; reflexivity].
    destruct (all_defined _); [|left; reflexivity].
    right. destruct Ha. repeat split; assumption.
  - destruct (text resp0); left; reflexivity.
Qed.

(** X1: a cached response is replayed as it is: the lookup is the
    only call made, no token is requested, the backend is not called
    and the cache is left as it was, whatever the collaborators would
    have done. *)
Theorem cache_hit_replays (w : World) (request : Request) (c : Cache)
    (r : Response) :
  cache_match c (cache_key request) = Some r ->
  fst (run w request c) = r
  /\ cache (snd (run w request c)) = c
  /\ trace (snd (run w request c)) = [EvCacheMatch (cache_key request)]
  /\ forall w' : World, run w' request c = run w request c.
Proof.
  intros H. rewrite (run_hit w request c r H).
  repeat split. intros w'. apply run_hit, H.
Qed.

Lemma cache_hit_replays_witness :
  let c := cache (snd (run world_ok get_post [])) in
  let r := fst (run world_ok get_post []) in
  cache_match c (cache_key get_post) = Some r
  /\ fst (run world_no_token get_post c) = r
  /\ trace (snd (run world_no_token get_post c))
     = [EvCacheMatch (cache_key get_post)].
Proof.
  intros c r.
  assert (H : cache_match c (cache_key get_post) = Some r)
    by (vm_compute; reflexivity).
  split; [exact H|].
  destruct (cache_hit_replays world_no_token get_post c r H) as [A [_ [B _]]].
  split; [exact A|exact B].
Defined.

(** X2: a badge that has been served is served again: the next request
    with the same method and URL, run on the cache that the first one
    left, receives the same response from the cache, with no call to
    the token service or to the backend. *)
Theorem served_badge_is_replayed (w w' : World) (request request' : Request)
    (c : Cache) :
  status (fst (run w request c)) = 200 ->
  cache_key request' = cache_key request ->
  let r := fst (run w request c) in
  let c' := cache (snd (run w request c)) in
  run w' request' c'
  = (r, {| cache := c'; trace := [EvCacheMatch (cache_key request)] |}).
Proof.
  intros Hs Hk r c'. rewrite <- Hk. apply run_hit. rewrite Hk.
  subst r c'.
  destruct (cache_match c (cache_key request)) as [r0|] eqn:Hm.
  - rewrite (run_hit w request c r0 Hm). exact Hm.
  - destruct (run_unchanged_or_put w request c) as [E|[_ [_ [_ E]]]].
    + exfalso. revert Hs.
      pose proof (run_served w request c) as S.
      remember (fst (run w request c)) as resp eqn:E1.
      remember (snd (run w request c)) as st' eqn:E2.
      destruct S as [r0 Hm'|e evs Hm' Hf Hevs|token Hm' Hc Ht Hg
                    |token Hm' Hc Ht Hg Hp|token Hm' Hc Ht Hk'
                    |token page_path Ha];
        try (intros Hs; discriminate Hs).
      * congruence.
      * pose proof (run_admitted w request c token page_path Ha) as R.
        cbv zeta in R. rewrite R in E |- *.
        destruct (backend w _) as [resp0|e]; [|intros Hs; discriminate Hs].
        destruct (ok resp0).
        -- destruct (json resp0); [|intros Hs; discriminate Hs].
           destruct (all_defined _); [|intros Hs; discriminate Hs].
           cbn [snd cache cache_put] in E. exfalso.
           apply (f_equal (@List.length _)) in E. cbn in E. lia.
        -- destruct (text resp0); intros Hs; discriminate Hs.
    + rewrite E. apply cache_match_put.
Qed.

Lemma served_badge_is_replayed_witness :
  status (fst (run world_ok get_post [])) = 200
  /\ cache_key get_post = cache_key get_post
  /\ run world_refused get_post (cache (snd (run world_ok get_post [])))
     = (fst (run world_ok get_post []),
        {| cache := cache (snd (run world_ok get_post []));
           trace := [EvCacheMatch (cache_key get_post)] |}).
Proof.
  assert (S : status (fst (run world_ok get_post [])) = 200)
    by (vm_compute; reflexivity).
  split; [exact S|]. split; [reflexivity|].
  exact (served_badge_is_replayed world_ok world_refused get_post get_post []
           S eq_refl).
Defined.

(** What a request that is not served from the cache is answered. *)
Lemma run_miss_response (w : World) (request : Request) (c : Cache) :
  cache_match c (cache_key request) = None ->
  let r := fst (run w request c) in
  (status r = 200 /\ rendered r
   /\ Str.eqb (method request) $"GET" = true)
  \/ r = method_not_allowed
  \/ r = page_path_not_available
  \/ (exists e, r = internal_error w e)
  \/ (exists errorText, r = upstream_error errorText).
Proof.
  intros Hm r. subst r.
  pose proof (run_served w request c) as S.
  remember (fst (run w request c)) as resp eqn:E1.
  remember (snd (run w request c)) as st' eqn:E2.
  destruct S as [r0 Hm'|e evs Hm' Hf Hevs|token Hm' Hc Ht Hg
                |token Hm' Hc Ht Hg Hp|token Hm' Hc Ht Hk
                |token page_path Ha].
  - congruence.
  - right. right. right. left. exists e. reflexivity.
  - right. left. reflexivity.
  - right. right. left. reflexivity.
  - right. right. right. left. eexists. reflexivity.
  - pose proof (run_admitted w request c token page_path Ha) as R.
    cbv zeta in R. rewrite R.
    destruct (backend w _) as [resp0|e];
      [|right; right; right; left; eexists; reflexivity].
    destruct (ok resp0).
    + destruct (json resp0);
        [|right; right; right; left; eexists; reflexivity].
      destruct (all_defined _);
        [|right; right; right; left; eexists; reflexivity].
      left. split; [reflexivity|]. split; [|destruct Ha; assumption].
      eexists. eexists. reflexivity.
    + destruct (text resp0);
        [right; right; right; right; eexists; reflexivity
        |right; right; right; left; eexists; reflexivity].
Qed.

(** X3: with a cache that the worker itself has filled, a response has
    one of three statuses: 200 for a badge labelled readers, the two
    text elements of which read "readers", with the image type, the
    45 minutes of cache control and the open CORS header; 405 for one
    of the two plain messages, with the content type that a response
    made of a string receives; 500 for a JSON body. *)
Theorem response_statuses (w : World) (request : Request) (c : Cache) :
  reachable c ->
  let r := fst (run w request c) in
  (status r = 200
   /\ headers r = [ ($"Content-Type", $"image/svg+xml");
                    ($"Cache-Control", $"public, max-age=2700");
                    ($"Access-Control-Allow-Origin", $"*") ]
   /\ (exists value metadata,
         body r = generateBadge $"readers" value metadata)
   /\ exists p1 p2 p3 : jsstring,
        body r
        = p1
          ++ tpl "<text x='33' y='15' fill='#010101' fill-opacity='.3'>readers</text>"
          ++ p2 ++ tpl "<text x='33' y='14'>readers</text>" ++ p3)
  \/ (status r = 405
      /\ headers r = [ ($"content-type", $"text/plain;charset=UTF-8") ]
      /\ (body r = $"Method not allowed"
          \/ body r = $"page_path not available"))
  \/ (status r = 500
      /\ headers r = [ ($"Content-Type", $"application/json") ]).
Proof.
  intros Hc r.
  assert (G : forall x : Response, rendered x ->
            status x = 200
            /\ headers x = [ ($"Content-Type", $"image/svg+xml");
                             ($"Cache-Control", $"public, max-age=2700");
                             ($"Access-Control-Allow-Origin", $"*") ]
            /\ (exists value metadata,
                  body x = generateBadge $"readers" value metadata)
            /\ exists p1 p2 p3 : jsstring,
                 body x
                 = p1
                   ++ tpl "<text x='33' y='15' fill='#010101' fill-opacity='.3'>readers</text>"
                   ++ p2 ++ tpl "<text x='33' y='14'>readers</text>" ++ p3).
  { intros x [value [metadata ->]]. split; [reflexivity|].
    split; [reflexivity|].
    split; [exists value, metadata; reflexivity|].
    cbn [body badge_response]. apply readers_texts. }
  subst r.
  destruct (cache_match c (cache_key request)) as [r0|] eqn:Hm.
  - rewrite (run_hit w request c r0 Hm). cbn [fst]. left. apply G.
    destruct (cache_match_In c _ r0 Hm) as [k' Hin].
    exact (reachable_rendered c Hc k' r0 Hin).
  - destruct (run_miss_response w request c Hm)
      as [[_ [R _]]|[E|[E|[[e E]|[t E]]]]].
    + left. apply G, R.
    + right. left. rewrite E. repeat split. left. reflexivity.
    + right. left. rewrite E. repeat split. right. reflexivity.
    + right. right. rewrite E. split; reflexivity.
    + right. right. rewrite E. split; reflexivity.
Qed.

Lemma response_statuses_witness :
  reachable (cache (snd (run world_ok get_post [])))
  /\ status (fst (run world_ok post_post
                    (cache (snd (run world_ok get_post []))))) = 405.
Proof.
  assert (R : reachable (cache (snd (run world_ok get_post []))))
    by (apply reach_fetch, reach_empty).
  split; [exact R|].
  destruct (response_statuses world_ok post_post _ R)
    as [[S _]|[[S _]|[S _]]];
    [exfalso; revert S; vm_compute; discriminate
    |exact S
    |exfalso; revert S; vm_compute; discriminate].
Defined.

Lemma cache_match_key (c : Cache) (k : CacheKey) (r : Response) :
  cache_match c k = Some r -> exists k', In (k', r) c /\ key_eqb k' k = true.
Proof.
  induction c as [|[k0 r0] c IH]; cbn [cache_match]; [discriminate|].
  destruct (key_eqb k0 k) eqn:E.
  - intros H. injection H as ->. exists k0. split; [left; reflexivity|exact E].
  - intros H. destruct (IH H) as [k' [Hin Hk]]. exists k'.
    split; [right; exact Hin|exact Hk].
Qed.

(** The cache that the worker fills holds answers to GET requests
    only. *)
Lemma reachable_get (c : Cache) :
  reachable c ->
  forall k r, In (k, r) c -> Str.eqb (fst k) $"GET" = true.
Proof.
  induction 1 as [|w request c Hc IH|c c' Hc IH Hi]; intros k r Hin.
  - destruct Hin.
  - destruct (run_unchanged_or_put w request c) as [E|[G [_ [_ E]]]];
      rewrite E in Hin.
    + eapply IH, Hin.
    + destruct Hin as [Hin|Hin].
      * injection Hin as <- _. exact G.
      * eapply IH, Hin.
  - eapply IH, Hi, Hin.
Qed.

(** X4: a request whose method is not GET never receives a badge, not
    even one that a GET request for the same URL left in the cache: it
    misses the cache and is answered 405, or 500 when no token could be
    acquired; the backend is not called and the cache is left as it
    was. *)
Theorem non_get_never_served (w : World) (request : Request) (c : Cache) :
  reachable c ->
  Str.eqb (method request) $"GET" = false ->
  let r := fst (run w request c) in
  cache_match c (cache_key request) = None
  /\ (r = method_not_allowed
      \/ exists e, token_failure w e /\ r = internal_error w e)
  /\ status r <> 200
  /\ cache (snd (run w request c)) = c
  /\ forallb (fun ev => negb (is_backend_fetch ev))
       (trace (snd (run w request c))) = true.
Proof.
  intros Hc Hg r. subst r.
  assert (Hm : cache_match c (cache_key request) = None).
  { destruct (cache_match c (cache_key request)) as [r0|] eqn:Hm;
      [exfalso|reflexivity].
    destruct (cache_match_key c _ r0 Hm) as [k' [Hin Hk]].
    pose proof (reachable_get c Hc k' r0 Hin) as G.
    unfold key_eqb in Hk. apply andb_prop in Hk as [Hk _].
    apply Str_eqb_eq in Hk. cbn [cache_key fst] in Hk.
    rewrite Hk in G. congruence. }
  split; [exact Hm|].
  destruct (credentials w) as [u|e] eqn:Hcr.
  2:{ rewrite (run_token_failure w request c e Hm) by (left; exact Hcr).
      rewrite Hcr. cbn [fst snd cache trace].
      split; [right; exists e; split; [left; exact Hcr|reflexivity]|].
      split; [discriminate|]. split; reflexivity. }
  rewrite (unit_tt u) in Hcr.
  destruct (getGoogleAuthToken w) as [[token|]|e] eqn:Ht.
  - rewrite (run_method_not_allowed w request c token Hm Hcr Ht Hg).
    cbn [fst snd cache trace].
    split; [left; reflexivity|].
    split; [discriminate|]. split; reflexivity.
  - rewrite (run_token_failure w request c
               (new_Error $"generating Google auth token failed") Hm)
      by (right; auto).
    rewrite Hcr. cbn [fst snd cache trace].
    split; [right; eexists; split; [right; split; [exact Hcr|right; split;
                                     [exact Ht|reflexivity]]|reflexivity]|].
    split; [discriminate|]. split; reflexivity.
  - rewrite (run_token_failure w request c e Hm) by (right; auto).
    rewrite Hcr. cbn [fst snd cache trace].
    split; [right; exists e; split; [right; split; [exact Hcr|left; exact Ht]
                                    |reflexivity]|].
    split; [discriminate|]. split; reflexivity.
Qed.

Lemma non_get_never_served_witness :
  let c := cache (snd (run world_ok get_post [])) in
  let post := {| method := $"POST"; url := url get_post;
                 searchParams := searchParams get_post |} in
  reachable c
  /\ Str.eqb (method post) $"GET" = false
  /\ cache_match c (cache_key get_post) <> None
  /\ status (fst (run world_ok post c)) <> 200.
Proof.
  intros c post.
  assert (R : reachable c) by (apply reach_fetch, reach_empty).
  assert (G : Str.eqb (method post) $"GET" = false) by reflexivity.
  split; [exact R|]. split; [exact G|].
  split; [vm_compute; discriminate|].
  exact (proj1 (proj2 (proj2 (non_get_never_served world_ok post c R G)))).
Defined.

Lemma all_defined_none (l : list (option jsstring)) :
  In None l -> all_defined l = None.
Proof.
  induction l as [|[s|] l IH]; intros H; [destruct H| |reflexivity].
  cbn [all_defined]. rewrite IH; [reflexivity|].
  destruct H as [H|H]; [discriminate H|exact H].
Qed.

(** X5: a report one dimension value of which is missing (a null entry
    or an entry without [value]) makes the request fail, although the
    backend answered: the error thrown by [item.replace] is answered
    500 by the [catch] branch and nothing is cached. *)
Theorem missing_dimension_value_fails (w : World) (request : Request)
    (c : Cache) (token page_path : jsstring)
    (analyticsResponse : BackendResponse) (data : option Report) :
  admitted w request c token page_path ->
  backend w (report_call w token page_path) = Returns analyticsResponse ->
  ok analyticsResponse = true ->
  json analyticsResponse = Returns data ->
  In None (getValues data $"dimensionValues") ->
  fst (run w request c) = internal_error w TypeError_replace
  /\ status (fst (run w request c)) = 500
  /\ cache (snd (run w request c)) = c
  /\ forallb (fun ev => negb (is_cache_put ev))
       (trace (snd (run w request c))) = true.
Proof.
  intros Ha Hb Hok Hj Hin.
  pose proof (run_admitted w request c token page_path Ha) as R.
  cbv zeta in R. rewrite R, Hb, Hok, Hj, (all_defined_none _ Hin).
  repeat split.
Qed.

Lemma missing_dimension_value_fails_witness :
  let data :=
    Some {| rows := Some [ [ ($"dimensionValues", [ Some {| value := None |} ]);
                             ($"metricValues",
                               [ Some {| value := Some $"7" |} ]) ] ] |} in
  let resp := {| ok := true; text := Returns $"{}"; json := Returns data |} in
  let w := with_backend world_ok (fun _ => Returns resp) in
  admitted w get_post [] $"token" $"Post"
  /\ In None (getValues data $"dimensionValues")
  /\ status (fst (run w get_post [])) = 500.
Proof.
  intros data resp w.
  assert (A : admitted w get_post [] $"token" $"Post")
    by (apply admitted_sample; reflexivity).
  assert (I : In None (getValues data $"dimensionValues"))
    by (left; reflexivity).
  split; [exact A|]. split; [exact I|].
  exact (proj1 (proj2 (missing_dimension_value_fails w get_post [] $"token"
                         $"Post" resp data A eq_refl eq_refl eq_refl I))).
Defined.

(** X6: the calls that one request makes are a prefix of: the cache
    lookup, the token request, the backend call, the cache write.  The
    lookup is always made, and each of the others at most once, in
    this order. *)
Theorem calls_in_order (w : World) (request : Request) (c : Cache) :
  exists (call : BackendCall) (n : nat),
    (1 <= n <= 4)%nat
    /\ trace (snd (run w request c))
       = firstn n [ EvCacheMatch (cache_key request); EvGetToken scopes;
                    EvBackendFetch call;
                    EvCachePut (cache_key request) (fst (run w request c)) ].
Proof.
  pose (call0 := backendCall w [] (requestBody [] [])).
  pose proof (run_served w request c) as S.
  destruct S as [r0 Hm|e evs Hm Hf Hevs|token Hm Hc Ht Hg|token Hm Hc Ht Hg Hp
                |token Hm Hc Ht Hk|token page_path Ha].
  - exists call0, 1%nat. split; [lia|reflexivity].
  - destruct Hevs as [-> | ->].
    + exists call0, 1%nat. split; [lia|reflexivity].
    + exists call0, 2%nat. split; [lia|reflexivity].
  - exists call0, 2%nat. split; [lia|reflexivity].
  - exists call0, 2%nat. split; [lia|reflexivity].
  - exists call0, 2%nat. split; [lia|reflexivity].
  - pose proof (run_admitted w request c token page_path Ha) as R.
    cbv zeta in R. rewrite R.
    exists (report_call w token page_path).
    destruct (backend w _) as [resp0|e];
      [|exists 3%nat; split; [lia|reflexivity]].
    destruct (ok resp0).
    + destruct (json resp0);
        [|exists 3%nat; split; [lia|reflexivity]].
      destruct (all_defined _);
        [|exists 3%nat; split; [lia|reflexivity]].
      exists 4%nat. split; [lia|reflexivity].
    + destruct (text resp0);
        exists 3%nat; (split; [lia|reflexivity]).
Qed.

(** X7: when the backend call fails, or the backend's answer cannot be
    read, the [catch] branch answers 500 with the message of the error
    and the time of the failure, and nothing is cached: this holds for
    a rejected call, for an answer that is ok but is not JSON, and for
    a refusal the text of which cannot be read. *)
Theorem backend_failure_reported (w : World) (request : Request)
    (c : Cache) (token page_path : jsstring) (e : Error) :
  admitted w request c token page_path ->
  backend w (report_call w token page_path) = Throws e
  \/ (exists analyticsResponse,
        backend w (report_call w token page_path) = Returns analyticsResponse
        /\ ((ok analyticsResponse = true
             /\ json analyticsResponse = Throws e)
            \/ (ok analyticsResponse = false
                /\ text analyticsResponse = Throws e))) ->
  let r := fst (run w request c) in
  status r = 500
  /\ headers r = [ ($"Content-Type", $"application/json") ]
  /\ body r
     = JSON.stringify_error_timestamp
         (match message e with
          | Some (u :: m) => u :: m
          | _ => $"Internal server error"
          end)
         (Date.toISOString (now_at_catch w))
  /\ snd (run w request c)
     = {| cache := c;
          trace := [ EvCacheMatch (cache_key request); EvGetToken scopes;
                     EvBackendFetch (report_call w token page_path) ] |}.
Proof.
  intros Ha H r. subst r.
  pose proof (run_admitted w request c token page_path Ha) as R.
  cbv zeta in R. rewrite R.
  destruct H as [Hb|[resp0 [Hb [[Hok Hj]|[Hok Ht]]]]];
    rewrite Hb; [|rewrite Hok, Hj|rewrite Hok, Ht]; repeat split.
Qed.

Lemma backend_failure_reported_witness :
  let e := new_Error $"Network connection lost" in
  let w := with_backend world_ok (fun _ => Throws e) in
  admitted w get_post [] $"token" $"Post"
  /\ backend w (report_call w $"token" $"Post") = Throws e
  /\ status (fst (run w get_post [])) = 500.
Proof.
  intros e w.
  assert (A : admitted w get_post [] $"token" $"Post")
    by (apply admitted_sample; reflexivity).
  split; [exact A|]. split; [reflexivity|].
  exact (proj1 (backend_failure_reported w get_post [] $"token" $"Post" e A
                  (or_introl eq_refl))).
Defined.

Lemma trimStart_blank (s : jsstring) :
  forallb Str.is_space s = true -> Str.trimStart s = [].
Proof.
  induction s as [|c s IH]; [reflexivity|].
  cbn [forallb Str.trimStart]. intros H. apply andb_prop in H as [Hc Hs].
  rewrite Hc. apply IH, Hs.
Qed.

Lemma trim_blank (s : jsstring) :
  forallb Str.is_space s = true -> Str.trim s = [].
Proof.
  intros H. unfold Str.trim. rewrite (trimStart_blank s H). reflexivity.
Qed.

(** X8: a [page_path] made of white space only passes the check of the
    handler, which tests the parameter before it is trimmed: the
    backend is then asked for the pages whose path contains the empty
    string, and the request is not answered 405. *)
Theorem blank_page_path_is_queried (w : World) (request : Request)
    (c : Cache) (token page_path : jsstring) :
  admitted w request c token page_path ->
  forallb Str.is_space page_path = true ->
  let call := report_call w token page_path in
  filterValue (call_body call) = []
  /\ matchType (call_body call) = $"CONTAINS"
  /\ In (EvBackendFetch call) (trace (snd (run w request c)))
  /\ status (fst (run w request c)) <> 405.
Proof.
  intros Ha Hb call.
  split.
  { change (filterValue (call_body call))
      with (Str.trim (Str.toLowerCase page_path)).
    rewrite (toLowerCase_blank page_path Hb). apply trim_blank, Hb. }
  split; [reflexivity|].
  pose proof (run_admitted w request c token page_path Ha) as R.
  cbv zeta in R. rewrite R. fold call.
  destruct (backend w call) as [resp0|e];
    [|split; [cbn; auto|discriminate]].
  destruct (ok resp0).
  - destruct (json resp0); [|split; [cbn; auto|discriminate]].
    destruct (all_defined _); split; solve [cbn; auto | discriminate].
  - destruct (text resp0); split; solve [cbn; auto | discriminate].
Qed.

Lemma blank_page_path_is_queried_witness :
  let request := {| method := $"GET";
                    url := $"https://views.example/?page_path=%20";
                    searchParams := [ ($"page_path", $" ") ] |} in
  admitted world_ok request [] $"token" $" "
  /\ forallb Str.is_space $" " = true
  /\ filterValue (call_body (report_call world_ok $"token" $" ")) = []
  /\ status (fst (run world_ok request [])) <> 405.
Proof.
  intros request.
  assert (A : admitted world_ok request [] $"token" $" ")
    by (constructor; try reflexivity; [discriminate|vm_compute; discriminate]).
  assert (B : forallb Str.is_space $" " = true) by reflexivity.
  split; [exact A|]. split; [exact B|].
  destruct (blank_page_path_is_queried world_ok request [] $"token" $" " A B)
    as [F [_ [_ S]]].
  split; [exact F|exact S].
Defined.

Lemma find_page_path_first (before after : list (jsstring * jsstring))
    (k v : jsstring) :
  Forall (fun kv : jsstring * jsstring =>
            Str.trim (Str.toLowerCase (fst kv)) <> $"page_path") before ->
  Str.trim (Str.toLowerCase k) = $"page_path" ->
  find_page_path (before ++ (k, v) :: after) = Some v.
Proof.
  intros Hb Hk. unfold find_page_path.
  induction Hb as [|kv before Hkv Hb IH]; cbn [List.app List.find fst].
  - rewrite Hk, Str_eqb_refl. reflexivity.
  - destruct (Str.eqb (Str.trim (Str.toLowerCase (fst kv))) $"page_path")
      eqn:E; [|exact IH].
    apply Str_eqb_eq in E. contradiction.
Qed.

(** X9: the parameter is looked up by its name in lower case and
    trimmed, and the first parameter so named decides: its value is
    the [page_path], whatever follows it; when that value is empty the
    request is answered 405 even if a later parameter named
    [page_path] has a value. *)
Theorem first_page_path_decides (before after : list (jsstring * jsstring))
    (k v : jsstring) :
  Forall (fun kv : jsstring * jsstring =>
            Str.trim (Str.toLowerCase (fst kv)) <> $"page_path") before ->
  Str.trim (Str.toLowerCase k) = $"page_path" ->
  find_page_path (before ++ (k, v) :: after) = Some v
  /\ forall (w : World) (request : Request) (c : Cache) (token : jsstring),
       cache_match c (cache_key request) = None ->
       credentials w = Returns tt ->
       getGoogleAuthToken w = Returns (Some token) ->
       Str.eqb (method request) $"GET" = true ->
       searchParams request = before ++ (k, v) :: after ->
       v = [] ->
       run w request c
       = (page_path_not_available,
          {| cache := c;
             trace := [EvCacheMatch (cache_key request);
                       EvGetToken scopes] |}).
Proof.
  intros Hb Hk. split; [apply find_page_path_first; assumption|].
  intros w request c token Hm Hc Ht Hg Hs ->.
  apply (run_page_path_missing w request c token Hm Hc Ht Hg).
  rewrite Hs, (find_page_path_first before after k [] Hb Hk). reflexivity.
Qed.

Lemma first_page_path_decides_witness :
  let request := {| method := $"GET";
                    url := $"https://views.example/?a=1&%20Page_Path=&page_path=/x";
                    searchParams := [ ($"a", $"1"); ($" Page_Path", []);
                                      ($"page_path", $"/x") ] |} in
  Forall (fun kv : jsstring * jsstring =>
            Str.trim (Str.toLowerCase (fst kv)) <> $"page_path")
         [ ($"a", $"1") ]
  /\ Str.trim (Str.toLowerCase $" Page_Path") = $"page_path"
  /\ fst (run world_ok request []) = page_path_not_available.
Proof.
  intros request.
  assert (F : Forall (fun kv : jsstring * jsstring =>
                        Str.trim (Str.toLowerCase (fst kv)) <> $"page_path")
                     [ ($"a", $"1") ])
    by (repeat constructor; vm_compute; discriminate).
  assert (K : Str.trim (Str.toLowerCase $" Page_Path") = $"page_path")
    by reflexivity.
  split; [exact F|]. split; [exact K|].
  destruct (first_page_path_decides [ ($"a", $"1") ] [ ($"page_path", $"/x") ]
              $" Page_Path" [] F K) as [_ H].
  rewrite (H world_ok request [] $"token"); reflexivity.
Defined.


(** X11: the token reaches the backend and nothing else: it is sent in
    the Authorization header of the call, and the response depends on
    it only through the answer of the backend.  With another token,
    and a backend that answers the call made with it as the first
    backend answers the call made with the first token, the response
    and the cache are the same. *)
Theorem token_only_to_backend (w : World) (request : Request) (c : Cache)
    (token token' : jsstring)
    (b' : BackendCall -> outcome BackendResponse) :
  getGoogleAuthToken w = Returns (Some token) ->
  (forall q, b' (backendCall w token' q) = backend w (backendCall w token q)) ->
  let w' := with_token w token' b' in
  fst (run w' request c) = fst (run w request c)
  /\ cache (snd (run w' request c)) = cache (snd (run w request c))
  /\ (forall call,
        In (EvBackendFetch call) (trace (snd (run w request c))) ->
        call_headers call
        = [ ($"Authorization", $"Bearer " ++ token);
            ($"Content-Type", $"application/json") ]).
Proof.
  intros Ht Hb w'.
  assert (H3 : forall call,
             In (EvBackendFetch call) (trace (snd (run w request c))) ->
             call_headers call
             = [ ($"Authorization", $"Bearer " ++ token);
                 ($"Content-Type", $"application/json") ]).
  { intros call Hin.
    destruct (run_backend_fetch w request c call Hin) as [t [p [Ha ->]]].
    destruct Ha. assert (t = token) by congruence. subst t. reflexivity. }
  cut (fst (run w' request c) = fst (run w request c)
       /\ cache (snd (run w' request c)) = cache (snd (run w request c))).
  { intros [A B]. split; [exact A|]. split; [exact B|exact H3]. }
  clear H3.
  assert (IE : forall e, internal_error w' e = internal_error w e)
    by reflexivity.
  destruct (cache_match c (cache_key request)) as [r0|] eqn:Hm.
  { rewrite (run_hit w' request c r0 Hm), (run_hit w request c r0 Hm).
    split; reflexivity. }
  destruct (credentials w) as [u|e] eqn:Hc.
  2:{ rewrite (run_token_failure w' request c e Hm) by (left; exact Hc).
      rewrite (run_token_failure w request c e Hm) by (left; exact Hc).
      split; reflexivity. }
  rewrite (unit_tt u) in Hc.
  destruct (Str.eqb (method request) $"GET") eqn:Hg.
  2:{ rewrite (run_method_not_allowed w' request c token' Hm Hc eq_refl Hg).
      rewrite (run_method_not_allowed w request c token Hm Hc Ht Hg).
      split; reflexivity. }
  destruct (falsy (find_page_path (searchParams request))) eqn:Hp.
  { rewrite (run_page_path_missing w' request c token' Hm Hc eq_refl Hg Hp).
    rewrite (run_page_path_missing w request c token Hm Hc Ht Hg Hp).
    split; reflexivity. }
  destruct (find_page_path (searchParams request)) as [[|x p]|] eqn:Hf;
    try discriminate Hp.
  destruct (Z_le_gt_dec (Z.abs (now w + Date.msPerDay)) 8640000000000000)
    as [Hk|Hk].
  - assert (A : admitted w request c token (x :: p))
      by (constructor; auto; discriminate).
    assert (A' : admitted w' request c token' (x :: p))
      by (constructor; auto; discriminate).
    pose proof (run_admitted w request c token (x :: p) A) as R.
    pose proof (run_admitted w' request c token' (x :: p) A') as R'.
    cbv zeta in R, R'. rewrite R, R'.
    change (backend w' (report_call w' token' (x :: p)))
      with (b' (backendCall w token'
                  (requestBody (Date.date_text (now w + Date.msPerDay))
                               (x :: p)))).
    rewrite Hb. fold (report_call w token (x :: p)).
    split.
    + destruct (backend w _) as [resp0|e]; [|reflexivity].
      destruct (ok resp0).
      * destruct (json resp0); [|reflexivity].
        destruct (all_defined _); reflexivity.
      * destruct (text resp0); reflexivity.
    + destruct (backend w _) as [resp0|e]; [|reflexivity].
      destruct (ok resp0).
      * destruct (json resp0); [|reflexivity].
        destruct (all_defined _); reflexivity.
      * destruct (text resp0); reflexivity.
  - assert (Ne : x :: p <> []) by discriminate.
    assert (Hk' : 8640000000000000 < Z.abs (now w + Date.msPerDay)) by lia.
    rewrite (run_range_error w' request c token' (x :: p)
               Hm Hc eq_refl Hg Hf Ne Hk').
    rewrite (run_range_error w request c token (x :: p)
               Hm Hc Ht Hg Hf Ne Hk').
    split; reflexivity.
Qed.

Lemma token_only_to_backend_witness :
  getGoogleAuthToken world_ok = Returns (Some $"token")
  /\ (forall q, backend_ok (backendCall world_ok $"other" q)
                = backend world_ok (backendCall world_ok $"token" q))
  /\ fst (run (with_token world_ok $"other" backend_ok) get_post [])
     = fst (run world_ok get_post []).
Proof.
  assert (T : getGoogleAuthToken world_ok = Returns (Some $"token"))
    by reflexivity.
  assert (B : forall q, backend_ok (backendCall world_ok $"other" q)
                        = backend world_ok (backendCall world_ok $"token" q))
    by reflexivity.
  split; [exact T|]. split; [exact B|].
  exact (proj1 (token_only_to_backend world_ok get_post [] $"token" $"other"
                  backend_ok T B)).
Defined.

Lemma all_defined_some (l : list jsstring) :
  all_defined (List.map Some l) = Some l.
Proof.
  induction l as [|s l IH]; [reflexivity|].
  cbn [List.map all_defined]. rewrite IH. reflexivity.
Qed.

Lemma counts_counted (l : list (list jsstring * list Z)) :
  Forall (fun z => 0 <= z) (List.concat (List.map snd l)) ->
  Zsum (List.concat (List.map snd l)) < 2 ^ 53 ->
  counts (counted_report l) = Num.of_Z (Zsum (List.concat (List.map snd l))).
Proof.
  intros Hl Hs. rewrite counts_sum, counted_metrics by exact Hl.
  unfold sum_numbers. change (Num.of_Z 0) with (int 0).
  rewrite fold_add_int by (auto; lia).
  pose proof (Zsum_nonneg _ Hl) as P.
  symmetry. apply of_Z_safe. cbn [Z.add]. lia.
Qed.

(** X23: from the request to the badge: when the backend answers a
    request that passed the checks with a report of page paths and
    view counts, the response is the badge labelled readers that shows
    the formatted sum of all the counts and carries the page paths,
    in the order of the report, as metadata; it is answered 200 and
    written to the cache under the request. *)
Theorem badge_shows_total (w : World) (request : Request) (c : Cache)
    (token page_path : jsstring) (analyticsResponse : BackendResponse)
    (l : list (list jsstring * list Z)) :
  admitted w request c token page_path ->
  backend w (report_call w token page_path) = Returns analyticsResponse ->
  ok analyticsResponse = true ->
  json analyticsResponse = Returns (counted_report l) ->
  Forall (fun z => 0 <= z) (List.concat (List.map snd l)) ->
  Zsum (List.concat (List.map snd l)) < 2 ^ 53 ->
  let total := Zsum (List.concat (List.map snd l)) in
  let r := fst (run w request c) in
  status r = 200
  /\ body r
     = generateBadge $"readers" (formatNumber (Num.of_Z total))
         (List.concat (List.map fst l))
  /\ cache (snd (run w request c)) = cache_put c (cache_key request) r.
Proof.
  intros Ha Hb Hok Hj Hl Hs total r. subst r.
  pose proof (run_admitted w request c token page_path Ha) as R.
  cbv zeta in R. rewrite R, Hb, Hok, Hj.
  rewrite (counts_counted l Hl Hs). fold total.
  assert (D : getValues (counted_report l) $"dimensionValues"
              = List.map Some (List.concat (List.map fst l))).
  { rewrite getValues_slots. unfold counted_report, typed_report.
    cbn [rows_of rows]. rewrite slots_typed_dimensions, List.map_map.
    reflexivity. }
  rewrite D, all_defined_some. repeat split.
Qed.

Lemma badge_shows_total_witness :
  let l := [ ([ $"/blog/post" ], [1200]); ([ $"/blog/post/2" ], [300]) ] in
  let resp := {| ok := true; text := Returns $"{}";
                 json := Returns (counted_report l) |} in
  let w := with_backend world_ok (fun _ => Returns resp) in
  admitted w get_post [] $"token" $"Post"
  /\ Forall (fun z => 0 <= z) (List.concat (List.map snd l))
  /\ Zsum (List.concat (List.map snd l)) < 2 ^ 53
  /\ body (fst (run w get_post []))
     = generateBadge $"readers" $"1.5K" [ $"/blog/post"; $"/blog/post/2" ].
Proof.
  intros l resp w.
  assert (A : admitted w get_post [] $"token" $"Post")
    by (apply admitted_sample; reflexivity).
  assert (F : Forall (fun z => 0 <= z) (List.concat (List.map snd l)))
    by (repeat constructor; lia).
  assert (B : Zsum (List.concat (List.map snd l)) < 2 ^ 53) by (cbn; lia).
  split; [exact A|]. split; [exact F|]. split; [exact B|].
  destruct (badge_shows_total w get_post [] $"token" $"Post" resp l
              A eq_refl eq_refl eq_refl F B) as [_ [E _]].
  rewrite E. reflexivity.
Defined.

(* ================================================================== *)
(** * Badge Renderer: further properties *)
(* ================================================================== *)

(** X12: the replacement of the comment terminator is determined by two
    equations: a string without ["-->"] is left as it is, and in a
    string with one the first is replaced by the four code units of
    the source's replacement text and the rest is treated in the same
    way.  A string is unchanged exactly when it holds no terminator,
    and a second replacement changes nothing. *)
Theorem replace_arrow_spec :
  (forall item : jsstring,
     replace_arrow item = item
     <-> forall a b, item <> a ++ $"-->" ++ b)
  /\ (forall a b : jsstring,
        (forall x y, a <> x ++ $"-->" ++ y) ->
        replace_arrow (a ++ $"-->" ++ b)
        = a ++ [226%N; 8364%N; 8221%N; 62%N] ++ replace_arrow b)
  /\ (forall item : jsstring,
        replace_arrow (replace_arrow item) = replace_arrow item).
Proof.
  split; [|split].
  - intros item. split.
    + intros E a b. rewrite <- E. apply replace_arrow_free.
    + apply replace_arrow_fixed.
  - exact replace_arrow_first.
  - intros item. apply replace_arrow_fixed. apply replace_arrow_free.
Qed.

Lemma replace_arrow_spec_witness :
  (forall x y, $"a-" <> x ++ $"-->" ++ y)
  /\ replace_arrow ($"a-" ++ $"-->" ++ $"b-->")
     = $"a-" ++ [226%N; 8364%N; 8221%N; 62%N] ++ replace_arrow $"b-->".
Proof.
  assert (F : forall x y, $"a-" <> x ++ $"-->" ++ y)
    by (apply occurs_free; reflexivity).
  split; [exact F|].
  destruct replace_arrow_spec as [_ [S _]]. exact (S $"a-" $"b-->" F).
Defined.

Lemma forallb_firstn {A} (p : A -> bool) (n : nat) (l : list A) :
  forallb p l = true -> forallb p (firstn n l) = true.
Proof.
  revert n. induction l as [|x l IH]; intros [|n] H; try reflexivity.
  cbn [firstn forallb] in *. apply andb_prop in H as [Hx Hl].
  rewrite Hx. apply IH, Hl.
Qed.

Lemma forallb_skipn {A} (p : A -> bool) (n : nat) (l : list A) :
  forallb p l = true -> forallb p (skipn n l) = true.
Proof.
  revert n. induction l as [|x l IH]; intros [|n] H; try reflexivity;
    [exact H|].
  cbn [skipn forallb] in *. apply andb_prop in H as [Hx Hl].
  apply IH, Hl.
Qed.

Lemma forallb_weaken {A} (p q : A -> bool) (l : list A) :
  (forall x, p x = true -> q x = true) ->
  forallb p l = true -> forallb q l = true.
Proof.
  intros I. induction l as [|x l IH]; [reflexivity|].
  cbn [forallb]. intros H. apply andb_prop in H as [Hx Hl].
  rewrite (I x Hx). apply IH, Hl.
Qed.

Lemma dec_units (n : Z) : forallb badge_unit (Str.dec n) = true.
Proof.
  apply (forallb_weaken is_digit); [|apply dec_digits].
  intros c H. unfold badge_unit. rewrite H. reflexivity.
Qed.

Lemma zeros_units (n : Z) : forallb badge_unit (Num.zeros n) = true.
Proof.
  unfold Num.zeros. induction (Z.to_nat n) as [|k IH]; [reflexivity|exact IH].
Qed.

Ltac units :=
  repeat (rewrite forallb_app; apply andb_true_intro; split);
  first [ reflexivity
        | apply dec_units
        | apply zeros_units
        | apply forallb_firstn, dec_units
        | apply forallb_skipn, dec_units ].

Lemma toString_pos_units (m : positive) (e : Z) :
  forallb badge_unit (Num.toString_pos m e) = true.
Proof.
  unfold Num.toString_pos.
  destruct (Num.nks m e) as [[n k] s].
  destruct (_ && _); [units|].
  destruct (_ && _); [units|].
  destruct (_ && _); [units|].
  destruct (n - 1 <? 0); destruct (k =? 1); units.
Qed.

Lemma toString_units (x : number) :
  forallb badge_unit (Num.toString x) = true.
Proof.
  destruct x as [s|s| |s m e]; cbn [Num.toString];
    [reflexivity|destruct s; reflexivity|reflexivity|].
  rewrite forallb_app, toString_pos_units. destruct s; reflexivity.
Qed.

Lemma toFixed_units (x : number) (f : Z) :
  forallb badge_unit (Num.toFixed x f) = true.
Proof.
  destruct x as [s|s| |s m e]; cbn [Num.toFixed].
  - destruct (f =? 0); [reflexivity|units].
  - apply (toString_units (S754_infinity s)).
  - reflexivity.
  - assert (S : forallb badge_unit (if s then $"-" else []) = true)
      by (destruct s; reflexivity).
    destruct (Num.mag_geb _ _).
    { rewrite forallb_app, S. apply toString_pos_units. }
    destruct (f =? 0).
    { rewrite forallb_app, S. apply dec_units. }
    cbv zeta.
    set (ds := if _ <=? f then _ else _).
    assert (D : forallb badge_unit ds = true)
      by (unfold ds; destruct (_ <=? f); [units|apply dec_units]).
    rewrite forallb_app, S. cbn [andb].
    rewrite forallb_app, (forallb_firstn _ _ _ D).
    rewrite forallb_app, (forallb_skipn _ _ _ D). reflexivity.
Qed.

Lemma formatNumber_units_of (x : number) :
  forallb badge_unit (formatNumber x) = true.
Proof.
  unfold formatNumber. cbv zeta.
  assert (S : forallb badge_unit
                (if Num.ltb x (Num.of_Z 0) then $"-" else $"") = true)
    by (destruct (Num.ltb x (Num.of_Z 0)); reflexivity).
  destruct (Num.ltb (Num.abs x) (Num.of_Z 1000)).
  { rewrite forallb_app, S. apply toString_units. }
  destruct (Num.ltb (Num.abs x) (Num.of_Z 1000000));
    rewrite forallb_app, S, forallb_app; unfold fixed01;
    rewrite toFixed_units; reflexivity.
Qed.

Lemma badge_unit_text (c : N) : badge_unit c = true -> text_unit c = true.
Proof.
  unfold badge_unit. intros H. apply orb_prop in H as [H|H].
  - unfold is_digit in H. apply andb_prop in H as [H1 H2].
    apply N.leb_le in H1. apply N.leb_le in H2.
    unfold text_unit, Xml.is_char.
    replace ((32 <=? c) && (c <=? 65533))%N with true
      by (symmetry; apply andb_true_intro; split; apply N.leb_le; lia).
    rewrite !orb_true_r.
    replace (c =? 60)%N with false by (symmetry; apply N.eqb_neq; lia).
    replace (c =? 38)%N with false by (symmetry; apply N.eqb_neq; lia).
    reflexivity.
  - apply existsb_exists in H as [y [Hin Hy]]. apply N.eqb_eq in Hy.
    subst y. cbn in Hin.
    repeat (destruct Hin as [<-|Hin]; [reflexivity|]). destruct Hin.
Qed.

Lemma badge_unit_bracket (c : N) : badge_unit c = true -> c <> 93%N.
Proof. intros H ->. discriminate H. Qed.

Lemma units_plain (s : jsstring) :
  forallb badge_unit s = true -> plain_text s.
Proof.
  intros H. split.
  - apply (forallb_weaken badge_unit); [exact badge_unit_text|exact H].
  - intros a b E. rewrite E in H.
    rewrite forallb_app in H. apply andb_prop in H as [_ H].
    cbn in H. discriminate H.
Qed.

Lemma formatNumber_plain (x : number) : plain_text (formatNumber x).
Proof. apply units_plain, formatNumber_units_of. Qed.

(** X13: for a label and a value that are plain character data, the
    badge is a well-formed document exactly when every metadata string
    is made of legal characters and, once its terminators are
    replaced, holds no two hyphens in a row: a dimension value such as
    [/my--page] gives a document that no XML parser accepts. *)
Theorem badge_well_formed_iff (label value : jsstring)
    (metadata : list jsstring) :
  plain_text label -> plain_text value ->
  Xml.well_formed (generateBadge label value metadata)
  = forallb
      (fun item =>
         forallb Xml.is_char item
         && negb (occurs $"--" (replace_arrow item)))
      metadata.
Proof.
  intros Hl Hv. unfold generateBadge. cbv zeta.
  rewrite trim_badge_template.
  apply badge_template_comments; assumption.
Qed.

Lemma badge_well_formed_iff_witness :
  plain_text $"readers" /\ plain_text $"1.5K"
  /\ Xml.well_formed (generateBadge $"readers" $"1.5K" [ $"/my--page" ])
     = false
  /\ Xml.well_formed (generateBadge $"readers" $"1.5K" [ $"/a-->b" ])
     = true.
Proof.
  assert (L : plain_text $"readers") by (apply plain_text_check; reflexivity).
  assert (V : plain_text $"1.5K") by (apply plain_text_check; reflexivity).
  split; [exact L|]. split; [exact V|].
  split; rewrite (badge_well_formed_iff _ _ _ L V); vm_compute; reflexivity.
Defined.

Lemma toString_pos_nonempty (m : positive) (e : Z) :
  Num.toString_pos m e <> [].
Proof.
  unfold Num.toString_pos.
  destruct (Num.nks m e) as [[n k] s].
  pose proof (dec_nonempty s) as D.
  assert (A : forall (x y : jsstring), x <> [] -> x ++ y <> [])
    by (intros [|c x] y H; [congruence|discriminate]).
  assert (B : forall (x y : jsstring), y <> [] -> x ++ y <> [])
    by (intros x [|c y] H E; [congruence|];
        apply List.app_eq_nil in E as [_ E]; discriminate E).
  destruct (_ && _); [apply A, D|].
  destruct (_ && _); [apply B; discriminate|].
  destruct (_ && _); [discriminate|].
  cbv zeta. destruct (k =? 1); [apply A, D|].
  apply B. discriminate.
Qed.

Lemma toString_nonempty (x : number) : Num.toString x <> [].
Proof.
  destruct x as [s|s| |s m e]; cbn [Num.toString]; try discriminate.
  - destruct s; discriminate.
  - intros E. apply List.app_eq_nil in E as [_ E].
    exact (toString_pos_nonempty m e E).
Qed.

(** X14: whatever the number, NaN and the infinities included, the text
    that [formatNumber] returns is not empty and is made of digits,
    the sign, the point, the suffixes K and M, the exponent mark and
    the letters of [NaN] and [Infinity]: it holds no ['<'], no ['&']
    and no ["]]>"], so that it is character data that needs no
    escaping. *)
Theorem formatNumber_alphabet (x : number) :
  formatNumber x <> []
  /\ forallb
       (fun c => is_digit c || existsb (N.eqb c) $"-.+eKMNaInfity")
       (formatNumber x) = true
  /\ forallb text_unit (formatNumber x) = true
  /\ forall a b, formatNumber x <> a ++ $"]]>" ++ b.
Proof.
  split.
  { unfold formatNumber. cbv zeta.
    assert (B : forall (x y : jsstring), y <> [] -> x ++ y <> [])
      by (intros u [|c y] H E; [congruence|];
          apply List.app_eq_nil in E as [_ E]; discriminate E).
    destruct (Num.ltb (Num.abs x) (Num.of_Z 1000)).
    - apply B, toString_nonempty.
    - destruct (Num.ltb (Num.abs x) (Num.of_Z 1000000));
        apply B, B; discriminate. }
  split; [exact (formatNumber_units_of x)|].
  exact (formatNumber_plain x).
Qed.

(** X15: the badge that the handler makes from a report is a well-formed
    document exactly when the dimension values of the report are made
    of legal characters and, once their terminators are replaced, hold
    no two hyphens in a row; the label and the count never spoil it,
    whatever the metric values are. *)
Theorem served_badge_well_formed (w : World) (request : Request)
    (c : Cache) (token page_path : jsstring)
    (analyticsResponse : BackendResponse) (data : option Report)
    (metadata : list jsstring) :
  admitted w request c token page_path ->
  backend w (report_call w token page_path) = Returns analyticsResponse ->
  ok analyticsResponse = true ->
  json analyticsResponse = Returns data ->
  all_defined (getValues data $"dimensionValues") = Some metadata ->
  let r := fst (run w request c) in
  status r = 200
  /\ body r = generateBadge $"readers" (formatNumber (counts data)) metadata
  /\ Xml.well_formed (body r)
     = forallb
         (fun item =>
            forallb Xml.is_char item
            && negb (occurs $"--" (replace_arrow item)))
         metadata.
Proof.
  intros Ha Hb Hok Hj Hd r. subst r.
  pose proof (run_admitted w request c token page_path Ha) as R.
  cbv zeta in R. rewrite R, Hb, Hok, Hj, Hd. cbn [fst status body badge_response].
  split; [reflexivity|]. split; [reflexivity|].
  unfold generateBadge. cbv zeta. rewrite trim_badge_template.
  apply badge_template_comments.
  - apply plain_text_check. reflexivity.
  - apply formatNumber_plain.
Qed.

Lemma served_badge_well_formed_witness :
  let data := typed_report [ ([ $"/my--page" ], [ $"12" ]) ] in
  let resp := {| ok := true; text := Returns $"{}"; json := Returns data |} in
  let w := with_backend world_ok (fun _ => Returns resp) in
  admitted w get_post [] $"token" $"Post"
  /\ all_defined (getValues data $"dimensionValues") = Some [ $"/my--page" ]
  /\ status (fst (run w get_post [])) = 200
  /\ Xml.well_formed (body (fst (run w get_post []))) = false.
Proof.
  intros data resp w.
  assert (A : admitted w get_post [] $"token" $"Post")
    by (apply admitted_sample; reflexivity).
  assert (D : all_defined (getValues data $"dimensionValues")
              = Some [ $"/my--page" ]) by reflexivity.
  split; [exact A|]. split; [exact D|].
  destruct (served_badge_well_formed w get_post [] $"token" $"Post" resp data
              [ $"/my--page" ] A eq_refl eq_refl eq_refl D) as [S [_ W]].
  split; [exact S|]. rewrite W. vm_compute. reflexivity.
Defined.

Lemma suffix_here (p last : jsstring) : exists m, p ++ last = m ++ last.
Proof. exists p. reflexivity. Qed.

Lemma suffix_later (p x last : jsstring) :
  (exists m, x = m ++ last) -> exists m, p ++ x = m ++ last.
Proof.
  intros [m ->]. exists (p ++ m). apply List.app_assoc.
Qed.

(** X16: whatever the label, the value and the metadata, the badge
    begins with the XML declaration and the start tag of [svg], the
    width of which is 8 for each code unit of the label and of the
    value, and 20; it ends with the end tag of [svg].  The final
    [trim] removes nothing: no white space of a label, a value or a
    metadata string is lost. *)
Theorem badge_frame (label value : jsstring) (metadata : list jsstring) :
  exists middle : jsstring,
    generateBadge label value metadata
    = tpl "<?xml version='1.0' encoding='UTF-8'?>" ++ nl
      ++ tpl "    <svg xmlns='http://www.w3.org/2000/svg' width='"
      ++ Str.dec (8 * (Str.length label + Str.length value) + 20)
      ++ tpl "' height='20'>" ++ nl
      ++ middle ++ tpl "</svg>".
Proof.
  unfold generateBadge. cbv zeta. rewrite trim_badge_template.
  unfold badge_template, badge_body, show_int, getTextWidth. cbv zeta.
  replace (Str.length label * 8 + 10 + (Str.length value * 8 + 10))
    with (8 * (Str.length label + Str.length value) + 20) by lia.
  change (tpl "    </svg>") with (tpl "    " ++ tpl "</svg>").
  match goal with
  | |- exists middle, ?a ++ ?b ++ ?c ++ ?d ++ ?e ++ ?f ++ ?T = _ =>
      assert (S : exists m, T = m ++ tpl "</svg>")
  end.
  { repeat match goal with
           | |- exists m, ?p ++ (?q ++ ?r) = _ => apply suffix_later
           end.
    apply suffix_here. }
  destruct S as [m ->]. exists m. reflexivity.
Qed.

(* ================================================================== *)
(** * Number Formatter: further properties *)
(* ================================================================== *)

Lemma near_million_enumerated :
  forallb near_million_ok (range 50 999950) = true.
Proof. vm_compute. reflexivity. Qed.

(** X17: the suffix is chosen before the quotient is rounded: the fifty
    integers from 999950 to 999999 are below a million, so they keep
    the suffix K, and their quotient by 1000 rounds to 1000.0; they
    are written 1000.0K, not 1M. *)
Theorem formatNumber_near_million (n : Z) :
  999950 <= Z.abs n < 1000000 ->
  formatNumber (Num.of_Z n) = sign_text n ++ $"1000.0K".
Proof.
  intros H.
  assert (P : forall a, 999950 <= a < 1000000 ->
              formatNumber (Num.of_Z a) = $"1000.0K").
  { intros a Ha. apply Str_eqb_eq.
    pose proof near_million_enumerated as E. rewrite forallb_forall in E.
    apply (E a). apply range_In. lia. }
  unfold sign_text. destruct (Z.ltb_spec n 0) as [N|N].
  - rewrite formatNumber_negative by exact N.
    rewrite P by lia. reflexivity.
  - apply P. lia.
Qed.

Lemma formatNumber_near_million_witness :
  999950 <= Z.abs (-999999) < 1000000
  /\ formatNumber (Num.of_Z (-999999)) = $"-1000.0K".
Proof.
  split; [cbn; lia|].
  apply (formatNumber_near_million (-999999)). cbn. lia.
Defined.

(* ================================================================== *)
(** * Query Builder: further properties *)
(* ================================================================== *)

Lemma DaysInYear_spec (y : Z) :
  Date.DayFromYear (y + 1) - Date.DayFromYear y = Date.DaysInYear y.
Proof.
  unfold Date.DayFromYear, Date.DaysInYear.
  destruct (Z.eqb_spec (y mod 4) 0) as [E4|E4]; cbn [negb].
  - destruct (Z.eqb_spec (y mod 100) 0) as [E100|E100]; cbn [negb].
    + destruct (Z.eqb_spec (y mod 400) 0) as [E400|E400]; cbn [negb];
        revert E4 E100 E400; div_lia.
    + revert E4 E100; div_lia.
  - revert E4; div_lia.
Qed.

Lemma DayWithinYear_range (t : Z) :
  0 <= Date.DayWithinYear t < 365 + Date.InLeapYear t.
Proof.
  unfold Date.DayWithinYear, Date.InLeapYear, Date.YearFromTime.
  pose proof (YearFromDay_spec (Date.Day t)) as Y.
  pose proof (DaysInYear_spec (Date.YearFromDay (Date.Day t))) as D.
  assert (C : Date.DaysInYear (Date.YearFromDay (Date.Day t)) = 365
              \/ Date.DaysInYear (Date.YearFromDay (Date.Day t)) = 366).
  { unfold Date.DaysInYear.
    repeat match goal with
           | |- context [if ?b then _ else _] => destruct b
           end; auto. }
  destruct C as [C|C]; rewrite C in *; cbn [Z.eqb Pos.eqb]; lia.
Qed.

Lemma InLeapYear_cases (t : Z) :
  Date.InLeapYear t = 0 \/ Date.InLeapYear t = 1.
Proof. unfold Date.InLeapYear. destruct (_ =? _); auto. Qed.

(** The month and the day of the month name a day of the calendar. *)
Lemma DateFromTime_range (t : Z) :
  1 <= Date.DateFromTime t
  <= DaysInMonth (Date.MonthFromTime t) (Date.InLeapYear t).
Proof.
  pose proof (DayWithinYear_range t) as R.
  unfold Date.DateFromTime, Date.MonthFromTime.
  set (d := Date.DayWithinYear t) in *.
  destruct (InLeapYear_cases t) as [L|L]; rewrite L in *;
    repeat match goal with
           | |- context [if ?a <? ?b then _ else _] =>
               destruct (Z.ltb_spec a b)
           end;
    cbn [Date.month_start DaysInMonth]; lia.
Qed.

Lemma dec_length_digit (n : Z) :
  0 <= n < 10 -> List.length (Str.dec n) = 1%nat.
Proof.
  intros H. pose proof (range_In 10 0 n ltac:(lia)) as C.
  vm_compute in C.
  repeat (destruct C as [<-|C]; [reflexivity|]). destruct C.
Qed.

Lemma dec_length_le (k : nat) (n : Z) :
  (1 <= k)%nat -> 0 <= n < 10 ^ Z.of_nat k ->
  (List.length (Str.dec n) <= k)%nat.
Proof.
  revert n. induction k as [|k IH]; intros n Hk Hn; [lia|].
  destruct (Z_lt_ge_dec n 10) as [L|G].
  - rewrite dec_length_digit by lia. lia.
  - rewrite (dec_split n) by lia. rewrite List.length_app.
    rewrite (dec_length_digit (n mod 10))
      by (apply Z.mod_pos_bound; lia).
    destruct k as [|k].
    { change (10 ^ Z.of_nat 1) with 10 in Hn. lia. }
    assert (List.length (Str.dec (n / 10)) <= S k)%nat; [|lia].
    apply IH; [lia|]. split; [apply Z.div_pos; lia|].
    apply Z.div_lt_upper_bound; [lia|].
    rewrite <- Z.pow_succ_r by lia. rewrite <- Nat2Z.inj_succ. lia.
Qed.

Lemma pad_length (w : nat) (n : Z) :
  (1 <= w)%nat -> 0 <= n < 10 ^ Z.of_nat w ->
  List.length (Date.pad w n) = w.
Proof.
  intros Hw Hn. unfold Date.pad.
  pose proof (dec_length_le w n Hw Hn).
  rewrite List.length_app, List.repeat_length. lia.
Qed.

Lemma YearFromTime_range (t : Z) :
  -62167219200000 <= t <= 253402300799999 ->
  0 <= Date.YearFromTime t <= 9999.
Proof.
  intros H. unfold Date.YearFromTime.
  pose proof (YearFromDay_spec (Date.Day t)) as Y.
  set (y := Date.YearFromDay (Date.Day t)) in *.
  assert (D : -719528 <= Date.Day t <= 2932896)
    by (unfold Date.Day, Date.msPerDay; div_lia).
  split.
  - destruct (Z_le_gt_dec 0 y) as [L|G]; [exact L|exfalso].
    assert (Date.DayFromYear (y + 1) <= -719528)
      by (unfold Date.DayFromYear; div_lia).
    lia.
  - destruct (Z_le_gt_dec y 9999) as [L|G]; [exact L|exfalso].
    assert (2932897 <= Date.DayFromYear y)
      by (unfold Date.DayFromYear; div_lia).
    lia.
Qed.

(** X18: while the year of the next day has four digits,
    [getTomorrowDate] returns ten code units, the year, the month and
    the day of the month on four, two and two digits between hyphens,
    and they name a day of the calendar, the one that follows the day
    of the clock reading: the month lies between 1 and 12, the day
    between 1 and the length of the month, and the day number of that
    date is the one after the day number of the clock reading. *)
Theorem getTomorrowDate_calendar (tza now : Z) :
  -62167219200000 <= now + Date.msPerDay <= 253402300799999 ->
  let t := now + Date.msPerDay in
  let y := Date.YearFromTime t in
  let m := Date.MonthFromTime t + 1 in
  let d := Date.DateFromTime t in
  let text := Date.pad 4 y ++ $"-" ++ Date.pad 2 m ++ $"-" ++ Date.pad 2 d in
  getTomorrowDate tza now = Some text
  /\ List.length text = 10%nat
  /\ 0 <= y <= 9999
  /\ 1 <= m <= 12
  /\ 1 <= d <= DaysInMonth (m - 1) (if Date.DaysInYear y =? 366 then 1 else 0)
  /\ Date.MakeDay y (m - 1) d = Date.Day now + 1.
Proof.
  intros H t y m d text.
  pose proof (YearFromTime_range t H) as Y. fold y in Y.
  pose proof (MonthFromTime_range t) as M.
  pose proof (DateFromTime_range t) as D. fold d in D.
  assert (D31 : d <= 31).
  { destruct (InLeapYear_cases t) as [L|L]; rewrite L in D;
      unfold DaysInMonth in D;
      destruct (Date.MonthFromTime t) as [|[p|p|]|]; try lia;
      repeat (destruct p as [p|p|]; try lia). }
  split.
  { rewrite getTomorrowDate_next
      by (unfold Date.msPerDay in *; lia).
    f_equal. unfold Date.date_text. fold t. fold y.
    replace ((0 <=? y) && (y <=? 9999)) with true
      by (symmetry; apply andb_true_intro; split; apply Z.leb_le; lia).
    reflexivity. }
  split.
  { unfold text. rewrite !List.length_app.
    rewrite !pad_length; cbn; try lia. }
  split; [exact Y|]. split; [unfold m; lia|].
  split.
  { unfold m. replace (Date.MonthFromTime t + 1 - 1)
      with (Date.MonthFromTime t) by lia. exact D. }
  unfold m. replace (Date.MonthFromTime t + 1 - 1)
    with (Date.MonthFromTime t) by lia.
  rewrite <- Day_next. fold t.
  unfold Date.MakeDay.
  rewrite (Z.div_small (Date.MonthFromTime t) 12) by lia.
  rewrite (Z.mod_small (Date.MonthFromTime t) 12) by lia.
  rewrite Z.add_0_r.
  unfold d, Date.DateFromTime, Date.InLeapYear, Date.DayWithinYear.
  fold y. lia.
Qed.

Lemma getTomorrowDate_calendar_witness :
  -62167219200000 <= 1709164800000 + Date.msPerDay <= 253402300799999
  /\ getTomorrowDate 0 1709164800000 = Some $"2024-03-01".
Proof.
  assert (H : -62167219200000 <= 1709164800000 + Date.msPerDay
              <= 253402300799999) by (unfold Date.msPerDay; lia).
  split; [exact H|].
  exact (proj1 (getTomorrowDate_calendar 0 1709164800000 H)).
Defined.

(** X19: [getTomorrowDate] fails exactly when the instant one day after
    the clock reading is beyond the range of time values, 100 000 000
    days from the epoch: [toISOString] then throws a RangeError.  A
    request that has passed the checks is then answered 500 by the
    [catch] branch, before the backend is called. *)
Theorem tomorrow_out_of_range :
  (forall tza now : Z,
     getTomorrowDate tza now = None
     <-> 8640000000000000 < Z.abs (now + Date.msPerDay))
  /\ (forall (w : World) (request : Request) (c : Cache)
             (token page_path : jsstring),
        cache_match c (cache_key request) = None ->
        credentials w = Returns tt ->
        getGoogleAuthToken w = Returns (Some token) ->
        Str.eqb (method request) $"GET" = true ->
        find_page_path (searchParams request) = Some page_path ->
        page_path <> [] ->
        8640000000000000 < Z.abs (now w + Date.msPerDay) ->
        status (fst (run w request c)) = 500
        /\ body (fst (run w request c))
           = JSON.stringify_error_timestamp $"Invalid time value"
               (Date.toISOString (now_at_catch w))
        /\ snd (run w request c)
           = {| cache := c;
                trace := [EvCacheMatch (cache_key request);
                          EvGetToken scopes] |}).
Proof.
  split.
  - intros tza now. split.
    + intros H.
      destruct (Z_le_gt_dec (Z.abs (now + Date.msPerDay)) 8640000000000000)
        as [L|G]; [|lia].
      rewrite (getTomorrowDate_next tza now L) in H. discriminate H.
    + intros H. unfold getTomorrowDate. rewrite setDate_next.
      unfold Date.TimeClip.
      replace (Z.abs (now + Date.msPerDay) <=? 8640000000000000) with false
        by (symmetry; apply Z.leb_gt; exact H).
      reflexivity.
  - intros w request c token page_path Hm Hc Ht Hg Hf Hn Hk.
    rewrite (run_range_error w request c token page_path Hm Hc Ht Hg Hf Hn Hk).
    repeat split.
Qed.

Lemma tomorrow_out_of_range_witness :
  8640000000000000 < Z.abs (8639999990000000 + Date.msPerDay)
  /\ getTomorrowDate 0 8639999990000000 = None.
Proof.
  assert (H : 8640000000000000 < Z.abs (8639999990000000 + Date.msPerDay))
    by (vm_compute; reflexivity).
  split; [exact H|].
  exact (proj2 (proj1 tomorrow_out_of_range 0 8639999990000000) H).
Defined.

Lemma YearFromTime_2024 (t : Z) :
  2024 <= Date.YearFromTime t <-> 1704067200000 <= t.
Proof.
  unfold Date.YearFromTime.
  pose proof (YearFromDay_spec (Date.Day t)) as Y.
  set (y := Date.YearFromDay (Date.Day t)) in *.
  assert (D : 19723 <= Date.Day t <-> 1704067200000 <= t)
    by (unfold Date.Day, Date.msPerDay; split; div_lia).
  rewrite <- D. split.
  - intros H.
    assert (19723 <= Date.DayFromYear y)
      by (unfold Date.DayFromYear; div_lia).
    lia.
  - intros H. destruct (Z_le_gt_dec 2024 y) as [L|G]; [exact L|exfalso].
    assert (Date.DayFromYear (y + 1) <= 19723)
      by (unfold Date.DayFromYear; div_lia).
    lia.
Qed.

(** X20: the range of the query begins on the fixed 2024-01-01 and ends
    on the day after the clock reading: its end is on or after its
    start exactly when the clock reads 2023-12-31 or later.  Before
    that day the year of the end date is at most 2023 and the range
    is inverted. *)
Theorem date_range_not_inverted (tza now : Z) :
  -62167219200000 <= now + Date.msPerDay <= 253402300799999 ->
  let y := Date.YearFromTime (now + Date.msPerDay) in
  (exists rest,
     getTomorrowDate tza now = Some (Date.pad 4 y ++ $"-" ++ rest))
  /\ startDate (requestBody [] []) = Date.pad 4 2024 ++ $"-01-01"
  /\ (2024 <= y <-> 1703980800000 <= now).
Proof.
  intros H y. split; [|split].
  - rewrite getTomorrowDate_next by (unfold Date.msPerDay in *; lia).
    unfold Date.date_text. fold y.
    pose proof (YearFromTime_range _ H) as Y. fold y in Y.
    replace ((0 <=? y) && (y <=? 9999)) with true
      by (symmetry; apply andb_true_intro; split; apply Z.leb_le; lia).
    eexists. reflexivity.
  - reflexivity.
  - unfold y. rewrite YearFromTime_2024. unfold Date.msPerDay. lia.
Qed.

Lemma date_range_not_inverted_witness :
  -62167219200000 <= 1703980800000 + Date.msPerDay <= 253402300799999
  /\ 2024 <= Date.YearFromTime (1703980800000 + Date.msPerDay)
  /\ getTomorrowDate 0 1703980800000 = Some $"2024-01-01".
Proof.
  assert (H : -62167219200000 <= 1703980800000 + Date.msPerDay
              <= 253402300799999) by (unfold Date.msPerDay; lia).
  split; [exact H|].
  destruct (date_range_not_inverted 0 1703980800000 H) as [_ [_ I]].
  split; [apply I; lia|reflexivity].
Defined.

(* ================================================================== *)
(** * Report Aggregator: further properties *)
(* ================================================================== *)

Lemma digit_not_space (c : N) : is_digit c = true -> Str.is_space c = false.
Proof.
  unfold is_digit. intros H. apply andb_prop in H as [C1 C2].
  apply N.leb_le in C1. apply N.leb_le in C2.
  unfold Str.is_space. repeat apply orb_false_intro;
    first [ apply N.eqb_neq; lia
          | apply andb_false_iff;
            first [ left; apply N.leb_gt; lia
                  | right; apply N.leb_gt; lia ] ].
Qed.

Lemma digit_value_other (c : N) :
  is_digit c = false -> digit_value 10 c = None.
Proof.
  unfold is_digit, digit_value. intros H.
  replace ((48 <=? Z.of_N c) && (Z.of_N c <=? 57)) with false.
  2:{ symmetry. apply andb_false_iff. apply andb_false_iff in H as [H|H];
        [left|right]; apply N.leb_gt in H; apply Z.leb_gt; lia. }
  destruct ((97 <=? Z.of_N c) && (Z.of_N c <=? 122)) eqn:A.
  { apply andb_prop in A as [A1 A2]. apply Z.leb_le in A1.
    replace (Z.of_N c - 87 <? 10) with false
      by (symmetry; apply Z.ltb_ge; lia). reflexivity. }
  destruct ((65 <=? Z.of_N c) && (Z.of_N c <=? 90)) eqn:B; [|reflexivity].
  apply andb_prop in B as [B1 B2]. apply Z.leb_le in B1.
  replace (Z.of_N c - 55 <? 10) with false
    by (symmetry; apply Z.ltb_ge; lia). reflexivity.
Qed.

Lemma digits_prefix_end (z : Z) (t : jsstring) :
  0 <= z -> numeric_end t = true ->
  digits_prefix 10 None (Str.dec z ++ t) = Some z.
Proof.
  intros Hz Ht.
  rewrite digits_prefix_app by apply dec_digits.
  rewrite digits_prefix_dec by exact Hz.
  destruct t as [|c t]; [reflexivity|].
  cbn [numeric_end] in Ht. apply andb_prop in Ht as [Ht _].
  apply andb_prop in Ht as [Ht _]. apply negb_true_iff in Ht.
  cbn [digits_prefix]. rewrite (digit_value_other c Ht). reflexivity.
Qed.

(** [parseInt] reads the leading digits of a count and leaves the
    rest. *)
Lemma parseInt_prefix (z : Z) (t : jsstring) :
  0 <= z -> numeric_end t = true ->
  parseInt (Str.dec z ++ t) = Num.of_Z z.
Proof.
  intros Hz Ht.
  pose proof (digits_prefix_end z t Hz Ht) as P.
  pose proof (dec_digits z) as D. pose proof (dec_nonempty z) as E.
  destruct (Str.dec z) as [|c r]; [congruence|].
  cbn [forallb] in D. apply andb_prop in D as [Hc Hr].
  cbn [List.app] in *. unfold parseInt.
  rewrite (trimStart_head c _ (digit_not_space c Hc)).
  assert (C : (48 <= c <= 57)%N).
  { unfold is_digit in Hc. apply andb_prop in Hc as [C1 C2].
    apply N.leb_le in C1. apply N.leb_le in C2. lia. }
  replace (c =? 45)%N with false by (symmetry; apply N.eqb_neq; lia).
  replace (c =? 43)%N with false by (symmetry; apply N.eqb_neq; lia).
  assert (F : forall o : option Z,
            o = Some z ->
            match o with
            | Some mathInt =>
                if mathInt =? 0 then S754_zero false else Num.of_Z mathInt
            | None => Num.NaN
            end = Num.of_Z z).
  { intros o ->. destruct (Z.eqb_spec z 0) as [->|]; reflexivity. }
  remember (r ++ t) as rt eqn:Ert.
  destruct rt as [|c1 r0]; [exact (F _ P)|].
  assert (N1 : ((c1 =? 120) || (c1 =? 88))%N = false).
  { destruct r as [|d r'].
    - cbn [List.app] in Ert. subst t. cbn [numeric_end] in Ht.
      apply andb_prop in Ht as [Ht H88]. apply andb_prop in Ht as [_ H120].
      apply negb_true_iff in H88, H120. rewrite H88, H120. reflexivity.
    - cbn [List.app] in Ert. injection Ert as -> _.
      cbn [forallb] in Hr. apply andb_prop in Hr as [Hd _].
      unfold is_digit in Hd. apply andb_prop in Hd as [D1 D2].
      apply N.leb_le in D1. apply N.leb_le in D2.
      apply orb_false_iff. split; apply N.eqb_neq; lia. }
  rewrite N1, andb_false_r. exact (F _ P).
Qed.

Lemma count_of_prefix (z : Z) (t : jsstring) :
  0 <= z -> numeric_end t = true -> count_of (Some (Str.dec z ++ t)) = z.
Proof.
  intros Hz Ht. unfold count_of. rewrite digits_prefix_end by assumption.
  reflexivity.
Qed.

Lemma counts_numbers (l : list (option jsstring)) :
  Forall is_count l ->
  List.map (fun v => parseInt (or_zero v)) l
  = List.map Num.of_Z (List.map count_of l)
  /\ Forall (fun z => 0 <= z) (List.map count_of l).
Proof.
  induction 1 as [|v l Hv Hl [IH1 IH2]]; [split; [reflexivity|constructor]|].
  cbn [List.map]. rewrite IH1.
  destruct Hv as [->|[z [t [Hz [Ht ->]]]]].
  - split; [reflexivity|]. constructor; [cbn; lia|exact IH2].
  - cbn [or_zero]. rewrite parseInt_prefix, count_of_prefix by assumption.
    split; [reflexivity|]. constructor; assumption.
Qed.

(** X21: when every metric value of the report is missing (a null
    entry, or an entry without [value]) or begins with the decimal
    digits of a count, the total is the sum of the counts: a missing
    value adds 0, and what follows the digits of a value, a fraction
    say, is left out.  The sum is exact below [2^53]. *)
Theorem counts_of_counts (data : option Report) :
  let values := getValues data $"metricValues" in
  Forall is_count values ->
  Zsum (List.map count_of values) < 2 ^ 53 ->
  counts data = Num.of_Z (Zsum (List.map count_of values)).
Proof.
  intros values Hv Hs. unfold counts. fold values.
  destruct (counts_numbers values Hv) as [E P]. rewrite E.
  change (Num.of_Z 0) with (int 0).
  change (fun total count : number => Num.add total count) with Num.add.
  rewrite fold_add_int by (auto; lia).
  pose proof (Zsum_nonneg _ P).
  symmetry. apply of_Z_safe. cbn [Z.add]. lia.
Qed.

Lemma counts_of_counts_witness :
  let data :=
    Some {| rows := Some
      [ [ ($"dimensionValues", [ Some {| value := Some $"/a" |} ]);
          ($"metricValues", [ Some {| value := Some $"12.7" |}; None;
                              Some {| value := None |} ]) ];
        GoogleAnalyticsReport.row [ $"/b" ] [ $"30" ] ] |} in
  Forall is_count (getValues data $"metricValues")
  /\ Zsum (List.map count_of (getValues data $"metricValues")) < 2 ^ 53
  /\ counts data = Num.of_Z 42.
Proof.
  intros data.
  assert (F : Forall is_count (getValues data $"metricValues")).
  { apply Forall_cons;
      [right; exists 12, ($".7"); repeat split; lia|].
    apply Forall_cons; [left; reflexivity|].
    apply Forall_cons; [left; reflexivity|].
    apply Forall_cons; [right; exists 30, []; repeat split; lia|].
    apply Forall_nil. }
  assert (B : Zsum (List.map count_of (getValues data $"metricValues"))
              < 2 ^ 53) by (vm_compute; reflexivity).
  split; [exact F|]. split; [exact B|].
  exact (counts_of_counts data F B).
Defined.

Lemma slots_app (key : jsstring) (rs1 rs2 : list ReportRow) :
  slots key (rs1 ++ rs2) = slots key rs1 ++ slots key rs2.
Proof. unfold slots. apply List.flat_map_app. Qed.

Lemma row_slots_length (key : jsstring) (row : ReportRow) :
  List.length
    (List.flat_map
       (fun kv : jsstring * list (option Value) =>
          if Str.eqb (fst kv) key then List.map value_of (snd kv) else [])
       row)
  = row_count key row.
Proof.
  unfold row_count. induction row as [|kv row IH]; [reflexivity|].
  cbn [List.flat_map List.map list_sum]. rewrite List.length_app, IH.
  destruct (Str.eqb (fst kv) key); [rewrite List.length_map|]; reflexivity.
Qed.

Lemma slots_length (key : jsstring) (rs : list ReportRow) :
  List.length (slots key rs) = list_sum (List.map (row_count key) rs).
Proof.
  induction rs as [|row rs IH]; [reflexivity|].
  cbn [List.map].
  change (list_sum (row_count key row :: List.map (row_count key) rs))
    with (row_count key row + list_sum (List.map (row_count key) rs))%nat.
  rewrite <- IH, <- row_slots_length.
  unfold slots. cbn [List.flat_map]. apply List.length_app.
Qed.

(** X22: [getValues] reads the rows one after the other: the values of
    a report are those of its first rows followed by those of the
    others; it returns as many values as the rows hold under the key,
    the missing ones included; a key that is neither of the two fields
    of a row finds nothing, and so does a report without rows. *)
Theorem getValues_rows :
  (forall (key : jsstring) (rs1 rs2 : list ReportRow),
     getValues (report_of (rs1 ++ rs2)) key
     = getValues (report_of rs1) key ++ getValues (report_of rs2) key)
  /\ (forall (key : jsstring) (rs : list ReportRow),
        List.length (getValues (report_of rs) key)
        = list_sum (List.map (row_count key) rs))
  /\ (forall (key : jsstring) (l : list (list jsstring * list jsstring)),
        key <> $"dimensionValues" -> key <> $"metricValues" ->
        getValues (typed_report l) key = [])
  /\ (forall key : jsstring,
        getValues None key = []
        /\ getValues (Some {| rows := None |}) key = []).
Proof.
  split; [|split; [|split]].
  - intros key rs1 rs2. rewrite !getValues_slots. apply slots_app.
  - intros key rs. rewrite getValues_slots. apply slots_length.
  - intros key l Hd Hm. rewrite getValues_slots.
    unfold typed_report. cbn [rows_of rows].
    assert (Ed : Str.eqb $"dimensionValues" key = false).
    { destruct (Str.eqb $"dimensionValues" key) eqn:E; [|reflexivity].
      apply Str_eqb_eq in E. congruence. }
    assert (Em : Str.eqb $"metricValues" key = false).
    { destruct (Str.eqb $"metricValues" key) eqn:E; [|reflexivity].
      apply Str_eqb_eq in E. congruence. }
    induction l as [|r l IH]; [reflexivity|].
    cbn [List.map]. unfold slots in *. cbn [List.flat_map].
    rewrite IH. unfold GoogleAnalyticsReport.row.
    cbn [List.flat_map fst snd]. rewrite Ed, Em. reflexivity.
  - intros key. split; reflexivity.
Qed.

Lemma getValues_rows_witness :
  $"rowCount" <> $"dimensionValues" /\ $"rowCount" <> $"metricValues"
  /\ getValues (typed_report [ ([ $"/a" ], [ $"1" ]) ]) $"rowCount" = [].
Proof.
  assert (A : $"rowCount" <> $"dimensionValues") by discriminate.
  assert (B : $"rowCount" <> $"metricValues") by discriminate.
  split; [exact A|]. split; [exact B|].
  destruct getValues_rows as [_ [_ [H _]]]. exact (H _ _ A B).
Defined.
